(** * Rin server: the namespaced key/value store and its call sites

    A shallow embedding of the parts of the Rin server that the store
    contract is about:
    - [TestCacheImpl] (server/tests/test-api-client.ts), the in-memory
      implementation of the [CacheImpl] interface;
    - [maskSensitiveFields] and the GET /:type and DELETE /cache handlers
      of [ConfigService] (server/src/services/config.ts);
    - [LazyInitContainer], [initContainerMiddleware] and [authMiddleware]
      (server/src/core/types.ts) and the [scheduled] and [fetch] entry
      points;
    - the handlers that use the store as a cache: the moments list and
      creation (services/moments.ts), the search and the invalidation of
      the feed entries (services/seo.ts), and [friendCrontab]
      (services/friends.ts).

    JavaScript [Map<string, any>] and [Record<string, any>] are finite maps
    over strings ([gmap string value]); a key that is missing from a map
    ([undefined] in JavaScript) is [None]. *)

From Stdlib Require Import ZArith.
From stdpp Require Import base option strings pretty gmap fin_maps list.

Set Warnings "-register-all".
Open Scope string_scope.
Open Scope list_scope.
Open Scope nat_scope.
Open Scope stdpp_scope.

(** ** JavaScript values *)

Module Js.

(** The values the store holds: the JSON-serializable values of the data
    model (null, booleans, numbers, strings, arrays, string-keyed objects).
    Numbers are restricted to integers.  [undefined] is not a JSON value
    and is not modelled as a stored value; as the result of looking up a
    missing key it is [None]. *)
Inductive value : Type :=
| VNull
| VBool (b : bool)
| VNum (n : Z)
| VStr (s : string)
| VArr (items : list value)
| VObj (fields : list (string * value)).

(** [v !== null] *)
Definition not_null (v : value) : bool :=
  match v with
  | VNull => false
  | _ => true
  end.

(** [x ?? d] where [x] is the result of a map lookup: [None] is
    [undefined]. *)
Definition nullish (x : option value) (d : value) : value :=
  match x with
  | None => d
  | Some VNull => d
  | Some v => v
  end.

(** JavaScript truthiness, as used by [cond && value] and [cond ? a : b]. *)
Definition truthy (v : value) : bool :=
  match v with
  | VNull => false
  | VBool b => b
  | VNum n => negb (n =? 0)%Z
  | VStr s => negb (String.eqb s "")
  | VArr _ => true
  | VObj _ => true
  end.

(** [key.startsWith(prefix)] *)
Definition startsWith (key prefix : string) : bool := String.prefix prefix key.

(** [key.endsWith(suffix)] *)
Definition endsWith (key suffix : string) : bool :=
  String.prefix (String.rev suffix) (String.rev key).

(** The outcome of awaiting a promise. *)
Inductive outcome (A : Type) : Type :=
| Resolved (a : A)
| Rejected (reason : value).
Arguments Resolved {A} a.
Arguments Rejected {A} reason.

End Js.
Import Js.

(** ** TestCacheImpl: the in-memory CacheImpl (tests/test-api-client.ts)

    [private data = new Map<string, any>()].  Every method is a state
    transformer on the instance's own [data]; the ignored [_save] and
    [_suffix] parameters are kept in the signatures. *)

Module TestCacheImpl.

(** [new TestCacheImpl()] *)
Definition new : gmap string value := ∅.

(** [return this.data.get(key) ?? null] *)
Definition get (key : string) (data : gmap string value) : value * gmap string value :=
  (nullish (data !! key) VNull, data).

(** [this.data.set(key, value)] *)
Definition set (key : string) (v : value) (_save : option bool) (data : gmap string value)
  : unit * gmap string value :=
  (tt, <[key := v]> data).

(** [this.data.delete(key)] *)
Definition delete (key : string) (_save : option bool) (data : gmap string value) : unit * gmap string value :=
  (tt, base.delete key data).

(** [for (const key of this.data.keys()) if (key.startsWith(prefix))
    this.data.delete(key)]: the loop visits the keys of [data] and deletes
    from the same map. *)
Definition deletePrefix (prefix : string) (data : gmap string value) : unit * gmap string value :=
  (tt, map_fold (fun key _ (this_data : gmap string value) =>
                   if startsWith key prefix then base.delete key this_data
                   else this_data) data data).

Section Factory.
(** An asynchronous factory [() => Promise<T>] runs against the world
    outside the store (a database, the network), of any type [W], and
    resolves or rejects. *)
Context {W : Type}.
Definition factory : Type := W -> outcome value * W.

(** [const cached = await this.get(key); if (cached !== null) return cached;
    const value = await factory(); await this.set(key, value); return value] *)
Definition getOrSet (key : string) (f : factory) (st : gmap string value * W)
  : outcome value * (gmap string value * W) :=
  let '(data, w) := st in
  let '(cached, data) := get key data in
  if not_null cached then (Resolved cached, (data, w))
  else
    match f w with
    | (Resolved v, w') =>
        let '(_, data) := set key v None data in
        (Resolved v, (data, w'))
    | (Rejected e, w') => (Rejected e, (data, w'))
    end.

(** A factory instrumented with a counter of its invocations. *)
Definition counting (f : factory) : W * nat -> outcome value * (W * nat) :=
  fun '(w, n) => let '(o, w') := f w in (o, (w', S n)).
End Factory.
Arguments factory W : clear implicits.

(** [await c.getOrSet(key, f); await c.getOrSet(key, f)]: the two results
    and the number of times [f] ran. *)
Definition getOrSet_twice {W} (key : string) (f : factory W)
    (data : gmap string value) (w : W) : outcome value * outcome value * nat :=
  let '(r1, st1) := getOrSet key (counting f) (data, (w, 0)) in
  let '(r2, st2) := getOrSet key (counting f) st1 in
  (r1, r2, snd (snd st2)).

(** [const cached = await this.get(key);
    return cached !== null ? cached : defaultValue] *)
Definition getOrDefault (key : string) (defaultValue : value) (data : gmap string value)
  : value * gmap string value :=
  let '(cached, data) := get key data in
  ((if not_null cached then cached else defaultValue), data).

(** [async getBySuffix(_suffix) { return []; }] *)
Definition getBySuffix (_suffix : string) (data : gmap string value) : list value * gmap string value :=
  ([], data).

(** [return new Map(this.data)] *)
Definition all (data : gmap string value) : gmap string value * gmap string value := (data, data).

(** [async save() { }] *)
Definition save (data : gmap string value) : unit * gmap string value := (tt, data).

(** [this.data.clear()] *)
Definition clear (data : gmap string value) : unit * gmap string value := (tt, ∅).

End TestCacheImpl.

(** ** TestCacheImpl over [Map<string, any>]

    The value handed to [set], and the value a factory resolves to, has
    the type [any]: it can be [undefined], which is no JSON value
    ([db.query.feeds.findFirst] resolves to it when no row matches).  Here
    a value of type [any] is a JSON value or [undefined] ([None]), and
    [data] can hold [undefined] under a key.  On JSON values the methods
    are those of [TestCacheImpl]. *)

Module TestCacheAny.

(** [return this.data.get(key) ?? null]: [Map.get] gives [undefined] for
    a missing key and for a key that holds [undefined]. *)
Definition get (key : string) (data : gmap string (option value))
  : value * gmap string (option value) :=
  (nullish (mjoin (data !! key)) VNull, data).

(** [this.data.set(key, value)] *)
Definition set (key : string) (v : option value) (_save : option bool)
    (data : gmap string (option value)) : unit * gmap string (option value) :=
  (tt, <[key := v]> data).

Section Factory.
Context {W : Type}.
(** [() => Promise<T>]: the call resolves to a JSON value or to
    [undefined], or rejects. *)
Definition factory : Type := W -> outcome (option value) * W.

(** [const cached = await this.get(key); if (cached !== null) return cached;
    const value = await factory(); await this.set(key, value); return value] *)
Definition getOrSet (key : string) (f : factory) (st : gmap string (option value) * W)
  : outcome (option value) * (gmap string (option value) * W) :=
  let '(data, w) := st in
  let '(cached, data) := get key data in
  if not_null cached then (Resolved (Some cached), (data, w))
  else
    match f w with
    | (Resolved v, w') =>
        let '(_, data) := set key v None data in
        (Resolved v, (data, w'))
    | (Rejected e, w') => (Rejected e, (data, w'))
    end.

(** A factory instrumented with a counter of its invocations. *)
Definition counting (f : factory) : W * nat -> outcome (option value) * (W * nat) :=
  fun '(w, n) => let '(o, w') := f w in (o, (w', S n)).
End Factory.
Arguments factory W : clear implicits.

(** [await c.getOrSet(key, f); await c.getOrSet(key, f)]: the two results
    and the number of times [f] ran. *)
Definition getOrSet_twice {W} (key : string) (f : factory W)
    (data : gmap string (option value)) (w : W)
  : outcome (option value) * outcome (option value) * nat :=
  let '(r1, st1) := getOrSet key (counting f) (data, (w, 0)) in
  let '(r2, st2) := getOrSet key (counting f) st1 in
  (r1, r2, snd (snd st2)).

(** A store and a factory of JSON values, as values of type [any]. *)
Definition of_json (data : gmap string value) : gmap string (option value) :=
  Some <$> data.

Definition of_outcome (o : outcome value) : outcome (option value) :=
  match o with
  | Resolved v => Resolved (Some v)
  | Rejected e => Rejected e
  end.

Definition of_factory {W} (f : TestCacheImpl.factory W) : factory W :=
  fun w => (of_outcome (fst (f w)), snd (f w)).

End TestCacheAny.

(** ** Object identity

    Store instances are JavaScript objects: the request context holds
    references to them, and a method call mutates the instance the
    reference points to.  The heap maps a reference to the [data] of the
    instance. *)

Module Heap.

Definition ref : Type := nat.

(** [new TestCacheImpl()]: a reference that is not yet in the heap. *)
Definition alloc (h : gmap nat (gmap string value)) : ref * gmap nat (gmap string value) :=
  let r := fresh (dom h) in (r, <[r := TestCacheImpl.new]> h).

(** The [data] of the instance [r] points to (a reference held by a
    context always points to an instance; outside the heap the default is
    the empty map). *)
Definition deref (r : ref) (h : gmap nat (gmap string value)) : gmap string value :=
  default ∅ (h !! r).

(** [await r.method(...)] *)
Definition call {A} (r : ref) (method : gmap string value -> A * gmap string value)
    (h : gmap nat (gmap string value)) : A * gmap nat (gmap string value) :=
  let '(a, data) := method (deref r h) in (a, <[r := data]> h).

(** The methods of the interface that take no factory, as data, so that a
    caller's sequence of calls on one instance can be quantified over. *)
Inductive op : Type :=
| OpGet (key : string)
| OpSet (key : string) (v : value) (save : option bool)
| OpDelete (key : string) (save : option bool)
| OpDeletePrefix (prefix : string)
| OpGetOrDefault (key : string) (defaultValue : value)
| OpGetBySuffix (suffix : string)
| OpAll
| OpSave
| OpClear.

Definition is_save (o : op) : bool :=
  match o with OpSave => true | _ => false end.

Definition run_op (o : op) (data : gmap string value) : gmap string value :=
  match o with
  | OpGet k => snd (TestCacheImpl.get k data)
  | OpSet k v s => snd (TestCacheImpl.set k v s data)
  | OpDelete k s => snd (TestCacheImpl.delete k s data)
  | OpDeletePrefix p => snd (TestCacheImpl.deletePrefix p data)
  | OpGetOrDefault k d => snd (TestCacheImpl.getOrDefault k d data)
  | OpGetBySuffix s => snd (TestCacheImpl.getBySuffix s data)
  | OpAll => snd (TestCacheImpl.all data)
  | OpSave => snd (TestCacheImpl.save data)
  | OpClear => snd (TestCacheImpl.clear data)
  end.

(** A sequence of calls on the instance [r]. *)
Definition run_ops (r : ref) (ops : list op) (h : gmap nat (gmap string value))
  : gmap nat (gmap string value) :=
  foldl (fun h o => snd (call r (fun d => (tt, run_op o d)) h)) h ops.

End Heap.

(** ** ConfigService (server/src/services/config.ts)

    The handlers use the stores of the request context through the
    [CacheImpl] interface; here the stores are [TestCacheImpl] instances,
    as in the application [setupTestApp] builds. *)

Module ConfigService.

Import Heap.

Definition SENSITIVE_FIELDS : list string := ["ai_summary.api_key"].

Definition MASK : string := "••••••••".

Definition CLIENT_CONFIG_ENV_DEFAULTS : list (string * string) :=
  [("site.name", "NAME"); ("site.description", "DESCRIPTION");
   ("site.avatar", "AVATAR"); ("site.page_size", "PAGE_SIZE")].

(** [list.includes(key)] *)
Definition includes (l : list string) (key : string) : bool :=
  bool_decide (key ∈ l).

(** [result[key] = v] on the object [result], which starts as [{}]; the
    model keeps its own properties, which are what [c.json] sends.
    ['__proto__'] names the accessor of [Object.prototype]: the assignment
    sets the prototype of [result] when [v] is an object or null, does
    nothing otherwise, and in neither case creates an own property. *)
Definition assign (key : string) (v : value) (result : gmap string value)
  : gmap string value :=
  if String.eqb key "__proto__" then result else <[key := v]> result.

(** [for (const key in config) { const value = config[key];
      if (SENSITIVE_FIELDS.includes(key) && value) result[key] = MASK;
      else result[key] = value; }]; [config] is an object whose
    properties are its own (the handler builds it with
    [Object.fromEntries]). *)
Definition maskSensitiveFields (config : gmap string value) : gmap string value :=
  map_fold (fun key v (result : gmap string value) =>
              if includes SENSITIVE_FIELDS key && truthy v
              then assign key (VStr MASK) result
              else assign key v result) ∅ config.

(** What [getAIConfigForFrontend(db)] resolves to.  The function lives in
    utils/db-config, which is not among the sources; the handler reads
    these five fields of its result, and the key itself is not one of
    them. *)
Record AIConfigForFrontend : Type := {
  enabled : bool;
  provider : string;
  model : string;
  api_url : string;
  api_key_set : bool
}.

(** The context variables the handlers read ([c.get(...)]). *)
Record Variables : Type := {
  cache : ref;
  serverConfig : ref;
  clientConfig : ref;
  admin : bool;
  env : gmap string value
}.

Inductive response : Type :=
| text (body : string) (status : nat)
| json (body : gmap string value) (status : nat).

(** [String(b)] for a boolean. *)
Definition String_of_bool (b : bool) : string := if b then "true" else "false".

(** [result[configKey] === undefined || result[configKey] === ''] *)
Definition unset (x : option value) : bool :=
  match x with
  | None => true
  | Some (VStr s) => String.eqb s ""
  | Some _ => false
  end.

(** [getClientConfigWithDefaults(clientConfig, env)] *)
Definition getClientConfigWithDefaults (clientConfig : ref) (env : gmap string value)
    (h : gmap nat (gmap string value))
  : gmap string value * gmap nat (gmap string value) :=
  let '(all, h) := call clientConfig TestCacheImpl.all h in
  let result := all in
  let result :=
    foldl (fun (result : gmap string value) '(configKey, envKey) =>
             if unset (result !! configKey) then
               match env !! envKey with
               | Some envValue =>
                   if truthy envValue then <[configKey := envValue]> result
                   else result
               | None => result
               end
             else result) result CLIENT_CONFIG_ENV_DEFAULTS in
  let result :=
    if unset (result !! "site.page_size")
    then <["site.page_size" := VNum 5]> result else result in
  (result, h).

(** The server branch of GET builds [configObj]:
    [const configObj = Object.fromEntries(all);
     configObj['ai_summary.enabled'] = String(aiConfig.enabled);
     configObj['ai_summary.provider'] = aiConfig.provider;
     configObj['ai_summary.model'] = aiConfig.model;
     configObj['ai_summary.api_url'] = aiConfig.api_url;
     configObj['ai_summary.api_key'] = aiConfig.api_key_set ? MASK : ''] *)
Definition configObj (aiConfig : AIConfigForFrontend) (all : gmap string value)
  : gmap string value :=
  let configObj := all in
  let configObj := <["ai_summary.enabled" := VStr (String_of_bool (enabled aiConfig))]> configObj in
  let configObj := <["ai_summary.provider" := VStr (provider aiConfig)]> configObj in
  let configObj := <["ai_summary.model" := VStr (model aiConfig)]> configObj in
  let configObj := <["ai_summary.api_url" := VStr (api_url aiConfig)]> configObj in
  <["ai_summary.api_key" := VStr (if api_key_set aiConfig then MASK else "")]> configObj.

(** [app.get('/:type', ...)]; [aiConfig] is what
    [await getAIConfigForFrontend(db)] resolved to. *)
Definition GET (type : string) (c : Variables) (aiConfig : AIConfigForFrontend)
    (h : gmap nat (gmap string value)) : response * gmap nat (gmap string value) :=
  if negb (String.eqb type "server") && negb (String.eqb type "client")
  then (text "Invalid type" 400, h)
  else if String.eqb type "server" && negb (admin c)
  then (text "Unauthorized" 401, h)
  else if String.eqb type "server" then
    let '(all, h) := call (serverConfig c) TestCacheImpl.all h in
    (json (maskSensitiveFields (configObj aiConfig all)) 200, h)
  else
    let '(clientConfigData, h) := getClientConfigWithDefaults (clientConfig c) (env c) h in
    (json (<["ai_summary.enabled" := VBool (enabled aiConfig)]> clientConfigData) 200, h).

(** [app.delete('/cache', ...)] *)
Definition DELETE_cache (c : Variables) (h : gmap nat (gmap string value))
  : response * gmap nat (gmap string value) :=
  if negb (admin c) then (text "Unauthorized" 401, h)
  else
    let '(_, h) := call (cache c) TestCacheImpl.clear h in
    (text "OK" 200, h).

End ConfigService.

(** ** LazyInitContainer (server/src/core/types.ts)

    JavaScript is single-threaded: the body of [get] runs to its end
    without interruption, and the callback passed to [then] runs later,
    when the promise of the factory settles.  A run of the container is
    therefore a sequence of two kinds of atomic steps: a call of [get],
    and the settlement of one of the promises [get] created. *)

Module LazyInitContainer.

Section Container.
(** [I]: the instances ([any]); [W]: the world the factories run in. *)
Context {I W : Type}.

(** What is left of an asynchronous computation after it was started. *)
Definition completion : Type := W -> outcome I * W.

(** [factory: () => Promise<T>], an async function: calling it runs its
    synchronous part and leaves a promise that settles later (the call
    itself does not throw). *)
Definition factory : Type := W -> completion * W.

(** The promises [factory().then(instance => {...})] that [get] created,
    each for the [key] its callback closes over.  A promise is known by
    its position in the list [promises] of the container. *)
Inductive init_promise : Type :=
| Pending (key : string) (rest : completion)
| Settled (key : string) (o : outcome I).

Definition key_of (p : init_promise) : string :=
  match p with Pending key _ | Settled key _ => key end.

(** The two maps of the class, and the promise objects [initializing]
    and the callers of [get] refer to. *)
Record t : Type := {
  instances : gmap string I;
  initializing : gmap string nat;
  promises : list init_promise
}.

(** [new LazyInitContainer(env)] *)
Definition new : t :=
  {| instances := ∅; initializing := ∅; promises := [] |}.

(** What a call of [get] returns: [this.instances.get(key)], or one of
    the promises. *)
Inductive returned : Type :=
| Instance (i : I)
| Promise (p : nat).

Definition get (key : string) (f : factory) (st : t * W) : returned * (t * W) :=
  let '(this, w) := st in
  match instances this !! key with
  | Some i => (Instance i, (this, w))
  | None =>
      match initializing this !! key with
      | Some p => (Promise p, (this, w))
      | None =>
          let '(rest, w) := f w in
          let initPromise := length (promises this) in
          (Promise initPromise,
           ({| instances := instances this;
               initializing := <[key := initPromise]> (initializing this);
               promises := promises this ++ [Pending key rest] |}, w))
      end
  end.

(** The promise of the factory settles; when it resolves, the callback
    [instance => { this.instances.set(key, instance);
    this.initializing.delete(key); return instance; }] runs; when it
    rejects, the callback is skipped and [initPromise] rejects. *)
Definition settle (p : nat) (st : t * W) : t * W :=
  let '(this, w) := st in
  match promises this !! p with
  | Some (Pending key rest) =>
      let '(o, w) := rest w in
      let ps := <[p := Settled key o]> (promises this) in
      match o with
      | Resolved instance =>
          ({| instances := <[key := instance]> (instances this);
              initializing := delete key (initializing this);
              promises := ps |}, w)
      | Rejected _ =>
          ({| instances := instances this;
              initializing := initializing this;
              promises := ps |}, w)
      end
  | _ => (this, w)
  end.

(** What [await r] gives once [r] has settled. *)
Definition awaited (this : t) (r : returned) : option (outcome I) :=
  match r with
  | Instance i => Some (Resolved i)
  | Promise p =>
      match promises this !! p with
      | Some (Settled _ o) => Some o
      | _ => None
      end
  end.

(** [await this.get(key, factory)] by the only user of the container:
    nothing else runs until the promise has settled. *)
Definition await_get (key : string) (f : factory) (st : t * W)
  : option (outcome I) * (t * W) :=
  let '(r, st) := get key f st in
  let st := match r with Instance _ => st | Promise p => settle p st end in
  (awaited (fst st) r, st).

Inductive event : Type :=
| Get (key : string) (f : factory)
| Settle (p : nat).

(** One step, with the log of what the calls of [get] returned. *)
Definition step (s : t * W * list (string * returned)) (ev : event)
  : t * W * list (string * returned) :=
  let '(st, log) := s in
  match ev with
  | Get key f => let '(r, st) := get key f st in (st, (log ++ [(key, r)])%list)
  | Settle p => (settle p st, log)
  end.

Definition run (evs : list event) (w : W) : t * W * list (string * returned) :=
  foldl step (new, w, []) evs.
End Container.

Arguments t I W : clear implicits.
Arguments factory I W : clear implicits.
Arguments completion I W : clear implicits.
Arguments event I W : clear implicits.
Arguments init_promise I W : clear implicits.
Arguments returned I : clear implicits.

(** A factory that also records, in the world, that it was called for
    [key]. *)
Definition recording {I W} (key : string) (f : factory I W)
  : factory I (W * list string) :=
  fun '(w, calls) =>
    let '(rest, w) := f w in
    ((fun '(w, calls) => let '(o, w) := rest w in (o, (w, calls))),
     (w, (calls ++ [key])%list)).

Definition recording_event {I W} (ev : event I W) : event I (W * list string) :=
  match ev with
  | Get key f => Get key (recording key f)
  | Settle p => Settle p
  end.

(** The keys for which a factory was called during the schedule [evs], in
    the order of the calls. *)
Definition factory_calls {I W} (evs : list (event I W)) (w : W) : list string :=
  snd (snd (fst (run (recording_event <$> evs) (w, [])))).

End LazyInitContainer.

(** ** CacheImpl: the store the server constructs

    The class is imported from utils/cache, which is not among the
    sources.  The call sites fix the shape of the constructor,
    [new CacheImpl(db, env, type, storageMode?)]; what an instance does
    with its arguments is taken from the specification. *)

Module CacheImpl.

Import Heap.

Inductive backend : Type := Relational | Object.

(** An instance: the constructor arguments it keeps, the writes it has
    buffered ([Some v]: upsert, [None]: delete), and, for the object
    backend, the map it has materialized. *)
Record t : Type := {
  env : gmap string value;
  type : string;
  storageMode : option string;
  buffered : gmap string (option value);
  memory : option (gmap string value)
}.

(** [new CacheImpl(db, env, type, storageMode)] *)
Definition new {D : Type} (db : D) (env : gmap string value) (type : string)
    (storageMode : option string) : t :=
  {| env := env; type := type; storageMode := storageMode;
     buffered := ∅; memory := None |}.

(** Modelled from the spec: the persistence services are not among the
    sources.  They are shared by all namespaces and requests:
    the rows of the table, keyed by (key, namespace); the objects of the
    object store, one per namespace; and the put-object requests the
    object store has received, by namespace. *)
Record backends : Type := {
  table : gmap (string * string) value;
  objects : gmap string (gmap string value);
  puts : list string
}.

Definition with_buffered (c : t) (b : gmap string (option value)) : t :=
  {| env := env c; type := type c; storageMode := storageMode c;
     buffered := b; memory := memory c |}.

Definition with_memory (c : t) (m : gmap string value) : t :=
  {| env := env c; type := type c; storageMode := storageMode c;
     buffered := buffered c; memory := Some m |}.

Definition with_table (b : backends) (rows : gmap (string * string) value) : backends :=
  {| table := rows; objects := objects b; puts := puts b |}.

(** put-object: the whole namespace is uploaded as one object. *)
Definition put_object (ns : string) (m : gmap string value) (b : backends) : backends :=
  {| table := table b; objects := <[ns := m]> (objects b);
     puts := (puts b ++ [ns])%list |}.

(** [persistImmediately = true] *)
Definition persistImmediately (save : option bool) : bool := default true save.

Section Backend.
(** The namespace-to-backend mapping supplied by configuration, for the
    constructions that pass no [storageMode]. *)
Variable configured : gmap string value -> string -> backend.

(** Modelled from the spec: the class itself is missing.  A store "binds
    to exactly one namespace and one backend variant at construction",
    "selected at construction time by a namespace-to-backend mapping
    supplied by configuration"; the explicit argument ["database"]
    selects the relational backend. *)
Definition backend_of (c : t) : backend :=
  match storageMode c with
  | Some mode => if String.eqb mode "database" then Relational else Object
  | None => configured (env c) (type c)
  end.

(** Modelled from the spec: "flushes all buffered writes". *)
Definition merge (b : gmap string (option value)) (m : gmap string value)
  : gmap string value :=
  map_fold (fun key w (m : gmap string value) =>
              match w with Some v => <[key := v]> m | None => delete key m end)
           m b.

(** Modelled from the spec: the relational backend (section 4.2) keeps
    "rows (key, value, namespace, updated_at) with a uniqueness
    constraint on (key, namespace)"; writes are upserts, [deletePrefix]
    and [clear] are deletes scoped to the namespace, a deferred write
    stays in the instance until [save]. *)
Definition exec_relational (o : op) (c : t) (b : backends) : t * backends :=
  let ns := type c in
  match o with
  | OpSet key v save =>
      if persistImmediately save
      then (with_buffered c (delete key (buffered c)),
            with_table b (<[(key, ns) := v]> (table b)))
      else (with_buffered c (<[key := Some v]> (buffered c)), b)
  | OpDelete key save =>
      if persistImmediately save
      then (with_buffered c (delete key (buffered c)),
            with_table b (delete (key, ns) (table b)))
      else (with_buffered c (<[key := None]> (buffered c)), b)
  | OpSave =>
      (with_buffered c ∅,
       with_table b
         (map_fold (fun key w (rows : gmap (string * string) value) =>
                      match w with
                      | Some v => <[(key, ns) := v]> rows
                      | None => delete (key, ns) rows
                      end) (table b) (buffered c)))
  | OpDeletePrefix prefix =>
      (with_buffered c
         (filter (fun kw => startsWith (fst kw) prefix = false) (buffered c)),
       with_table b
         (filter (fun row => ¬ (snd (fst row) = ns
                                ∧ startsWith (fst (fst row)) prefix = true))
                 (table b)))
  | OpClear =>
      (with_buffered c ∅,
       with_table b (filter (fun row => snd (fst row) ≠ ns) (table b)))
  | OpGet _ | OpGetOrDefault _ _ | OpGetBySuffix _ | OpAll => (c, b)
  end.

(** Modelled from the spec: the object backend (section 4.3) keeps
    "exactly one object per namespace"; the first access materializes it
    in the instance, "any mutation that is not deferred re-serializes
    and re-uploads the entire object", and [save] "reads the current
    blob, merges buffered entries, and writes the blob back once",
    doing nothing when no write is buffered. *)
Definition exec_object (o : op) (c : t) (b : backends) : t * backends :=
  let ns := type c in
  let mem := default (default ∅ (objects b !! ns)) (memory c) in
  match o with
  | OpSet key v save =>
      let mem := <[key := v]> mem in
      if persistImmediately save
      then (with_memory (with_buffered c (delete key (buffered c))) mem,
            put_object ns mem b)
      else (with_memory (with_buffered c (<[key := Some v]> (buffered c))) mem, b)
  | OpDelete key save =>
      let mem := delete key mem in
      if persistImmediately save
      then (with_memory (with_buffered c (delete key (buffered c))) mem,
            put_object ns mem b)
      else (with_memory (with_buffered c (<[key := None]> (buffered c))) mem, b)
  | OpSave =>
      if decide (size (buffered c) = 0) then (c, b)
      else (with_memory (with_buffered c ∅) mem,
            put_object ns (merge (buffered c) (default ∅ (objects b !! ns))) b)
  | OpDeletePrefix prefix =>
      let mem := filter (fun kv => startsWith (fst kv) prefix = false) mem in
      (with_memory
         (with_buffered c
            (filter (fun kw => startsWith (fst kw) prefix = false) (buffered c)))
         mem,
       put_object ns mem b)
  | OpClear => (with_memory (with_buffered c ∅) ∅, put_object ns ∅ b)
  | OpGet _ | OpGetOrDefault _ _ | OpGetBySuffix _ | OpAll =>
      (with_memory c mem, b)
  end.

(** Modelled from the spec: the class itself is missing.  "The Store
    facade exclusively owns read/write access to its namespace's
    backend": a method call goes to the backend the instance was bound
    to at construction. *)
Definition exec (o : op) (s : t * backends) : t * backends :=
  match backend_of (fst s) with
  | Relational => exec_relational o (fst s) (snd s)
  | Object => exec_object o (fst s) (snd s)
  end.

Definition exec_all (ops : list op) (s : t * backends) : t * backends :=
  foldl (fun s o => exec o s) s ops.

(** Modelled from the spec: the class itself is missing.  "[get(key) ->
    value | absent].  Point lookup", with null for the absent marker, and
    a buffered write "remains visible via [get] on the same instance
    immediately".  With the relational backend that is the buffered write
    of the key, if there is one, and else the row (key, namespace); with
    the object backend it is the entry of the in-memory map, which the
    first access materializes from the object of the namespace. *)
Definition get (key : string) (s : t * backends) : value :=
  let c := fst s in
  let b := snd s in
  match backend_of c with
  | Relational =>
      match buffered c !! key with
      | Some (Some v) => v
      | Some None => VNull
      | None => nullish (table b !! (key, type c)) VNull
      end
  | Object =>
      nullish (default (default ∅ (objects b !! type c)) (memory c) !! key) VNull
  end.
End Backend.


End CacheImpl.

(** ** initContainerMiddleware (server/src/core/types.ts) *)

Module Middleware.

Import LazyInitContainer.

(** What the factories of the middleware construct. *)
Inductive instance : Type :=
| Db (binding : option value)                  (* drizzle(c.env.DB, { schema }) *)
| Cache (store : CacheImpl.t)                  (* new CacheImpl(...) *)
| Jwt (secret : value)                         (* createJWT(secret) *)
| OAuth2 (clientId clientSecret : value).      (* createOAuthPlugin(...) *)

(** [c.set(...)]: the variables of the request context. *)
Record Variables : Type := {
  db : instance;
  cache : instance;
  serverConfig : instance;
  clientConfig : instance;
  jwt : instance;
  oauth2 : option instance;
  admin : bool;
  env : gmap string value
}.

(** [async () => { ...; return x }] and [async () => { ...; throw e }]:
    nothing happens in the call itself, the promise settles later. *)
Definition async (o : outcome instance) : factory instance unit :=
  fun w => ((fun w => (o, w)), w).

(** Sequencing of awaits: a rejection is thrown on, and [None] is an await
    on a promise that never settles. *)
Definition bind {A B} (m : t instance unit * unit -> option (outcome A) * (t instance unit * unit))
    (k : A -> t instance unit * unit -> option (outcome B) * (t instance unit * unit))
  : t instance unit * unit -> option (outcome B) * (t instance unit * unit) :=
  fun st =>
    match m st with
    | (Some (Resolved a), st) => k a st
    | (Some (Rejected e), st) => (Some (Rejected e), st)
    | (None, st) => (None, st)
    end.

Definition ret {A} (a : A) : t instance unit * unit -> option (outcome A) * (t instance unit * unit) :=
  fun st => (Some (Resolved a), st).

Notation "x <- m ;; k" := (bind m (fun x => k))
  (at level 100, m at next level, right associativity).

(** [!!x] of a variable that may be unset. *)
Definition set_and_truthy (x : option value) : bool :=
  match x with Some v => truthy v | None => false end.

Definition initContainerMiddleware (env : gmap string value)
  : t instance unit * unit -> option (outcome Variables) * (t instance unit * unit) :=
  db <- await_get "db" (async (Resolved (Db (env !! "DB")))) ;;
  cache <- await_get "cache"
             (async (Resolved (Cache (CacheImpl.new db env "cache" None)))) ;;
  serverConfig <- await_get "serverConfig"
             (async (Resolved (Cache (CacheImpl.new db env "server.config"
                                        (Some "database"))))) ;;
  clientConfig <- await_get "clientConfig"
             (async (Resolved (Cache (CacheImpl.new db env "client.config" None)))) ;;
  jwt <- await_get "jwt"
             (async (if set_and_truthy (env !! "JWT_SECRET")
                     then Resolved (Jwt (default VNull (env !! "JWT_SECRET")))
                     else Rejected (VStr "JWT_SECRET is not set"))) ;;
  oauth2 <- (if set_and_truthy (env !! "RIN_GITHUB_CLIENT_ID")
                && set_and_truthy (env !! "RIN_GITHUB_CLIENT_SECRET")
             then
               i <- await_get "oauth2"
                      (async (Resolved
                                (OAuth2 (default VNull (env !! "RIN_GITHUB_CLIENT_ID"))
                                        (default VNull (env !! "RIN_GITHUB_CLIENT_SECRET"))))) ;;
               ret (Some i)
             else ret None) ;;
  ret {| db := db; cache := cache; serverConfig := serverConfig;
         clientConfig := clientConfig; jwt := jwt; oauth2 := oauth2;
         admin := false; env := env |}.

(** One request: [const container = new LazyInitContainer(c.env)] and the
    body of the middleware up to [await next()]. *)
Definition request (env : gmap string value)
  : option (outcome Variables) * (t instance unit * unit) :=
  initContainerMiddleware env (new, tt).

(** The stores a container holds. *)
Definition stores (c : t instance unit) : list CacheImpl.t :=
  omap (fun ki => match snd ki with Cache s => Some s | _ => None end)
       (map_to_list (instances c)).

End Middleware.

(** ** The scheduled entry point *)

Module Scheduled.

(** The arguments of [friendCrontab(env, ctx, db, cache, serverConfig,
    clientConfig)]. *)
Record crontab_args : Type := {
  db : Middleware.instance;
  cache : CacheImpl.t;
  serverConfig : CacheImpl.t;
  clientConfig : CacheImpl.t
}.

(** [scheduled(_controller, env, ctx)] up to the calls of the crontab
    functions. *)
Definition scheduled (env : gmap string value) : crontab_args :=
  let db := Middleware.Db (env !! "DB") in
  let cache := CacheImpl.new db env "cache" None in
  let serverConfig := CacheImpl.new db env "server.config" (Some "database") in
  let clientConfig := CacheImpl.new db env "client.config" None in
  {| db := db; cache := cache; serverConfig := serverConfig;
     clientConfig := clientConfig |}.

Definition stores (env : gmap string value) : list CacheImpl.t :=
  [cache (scheduled env); serverConfig (scheduled env); clientConfig (scheduled env)].

End Scheduled.

(** Every [CacheImpl] the server constructs for an environment: in the
    container of a request, and in the scheduled job. *)
Definition constructions (env : gmap string value) : list CacheImpl.t :=
  (Middleware.stores (fst (snd (Middleware.request env))) ++ Scheduled.stores env)%list.

(** ** The mock middleware of setupTestApp (tests/test-api-client.ts) *)

Module TestApp.

Import Heap ConfigService.

(** [const serverConfig = new TestCacheImpl(); c.set('cache', new
    TestCacheImpl()); c.set('serverConfig', serverConfig);
    c.set('clientConfig', new TestCacheImpl()); ... c.set('admin', admin)];
    [admin] is what the lookup of the bearer token's user gave. *)
Definition middleware (env : gmap string value) (admin : bool)
    (h : gmap nat (gmap string value)) : Variables * gmap nat (gmap string value) :=
  let '(serverConfig, h) := alloc h in
  let '(cache, h) := alloc h in
  let '(clientConfig, h) := alloc h in
  ({| cache := cache; serverConfig := serverConfig; clientConfig := clientConfig;
      admin := admin; env := env |}, h).

End TestApp.

(** ** The contract of getBySuffix, in the words of the specification *)

(** "Returns exactly the current values of all keys ending in [suffix]":
    the values of the entries whose key ends in [suffix]. *)
Definition values_with_suffix (suffix : string) (data : gmap string value)
  : list value :=
  snd <$> map_to_list (filter (fun kv => endsWith (fst kv) suffix = true) data).

(** ** The invariant of the container

    Each key has at most one promise; a promise that has not resolved
    (pending, or rejected) is the one [initializing] holds for its key,
    and [instances] has nothing for that key; a promise that resolved
    with an instance is no longer in [initializing], and [instances]
    holds that instance for its key. *)

Section ContainerInvariant.
Import LazyInitContainer.
Context {I W : Type}.

Definition resolved_with (p : init_promise I W) : option I :=
  match p with
  | Settled _ (Resolved i) => Some i
  | _ => None
  end.

Record container_inv (c : t I W) : Prop := {
  inv_unique : ∀ p q sp sq,
    promises c !! p = Some sp → promises c !! q = Some sq →
    key_of sp = key_of sq → p = q;
  inv_unresolved : ∀ p sp,
    promises c !! p = Some sp → resolved_with sp = None →
    initializing c !! key_of sp = Some p ∧ instances c !! key_of sp = None;
  inv_resolved : ∀ p sp i,
    promises c !! p = Some sp → resolved_with sp = Some i →
    instances c !! key_of sp = Some i ∧ initializing c !! key_of sp = None;
  inv_initializing : ∀ k p,
    initializing c !! k = Some p →
    ∃ sp, promises c !! p = Some sp ∧ key_of sp = k;
  inv_instances : ∀ k i,
    instances c !! k = Some i →
    ∃ p sp, promises c !! p = Some sp ∧ key_of sp = k ∧ resolved_with sp = Some i
}.

(** What [get] returned for [key] is the instance of [key], or a promise
    made for [key]. *)
Definition returned_for (c : t I W) (key : string) (r : returned I) : Prop :=
  match r with
  | Instance i => instances c !! key = Some i
  | Promise p => ∃ sp, promises c !! p = Some sp ∧ key_of sp = key
  end.

(** A promise was made for [key]. *)
Definition called_for (c : t I W) (key : string) : Prop :=
  ∃ p sp, promises c !! p = Some sp ∧ key_of sp = key.
End ContainerInvariant.

(** Recording the factory calls changes nothing else: a container run
    with recording factories is, promise by promise, the container run
    with the factories themselves. *)

Section Recording.
Import LazyInitContainer.
Context {I W : Type}.

Definition same_promise (p : init_promise I W) (p' : init_promise I (W * list string))
  : Prop :=
  match p, p' with
  | Pending k rest, Pending k' rest' =>
      k = k' ∧ ∀ w calls, rest' (w, calls) = (fst (rest w), (snd (rest w), calls))
  | Settled k o, Settled k' o' => k = k' ∧ o = o'
  | _, _ => False
  end.

Definition same_container (c : t I W) (c' : t I (W * list string)) : Prop :=
  instances c = instances c'
  ∧ initializing c = initializing c'
  ∧ Forall2 same_promise (promises c) (promises c').
End Recording.

(** ** ConfigService: updating the configuration (config.ts) *)

Module ConfigUpdate.

Import Heap ConfigService.

Definition AI_CONFIG_KEYS : list string :=
  ["ai_summary.enabled"; "ai_summary.provider"; "ai_summary.model";
   "ai_summary.api_key"; "ai_summary.api_url"].

(** [AI_CONFIG_KEYS.includes(key) || key.startsWith('ai_summary.')] *)
Definition isAIConfigKey (key : string) : bool :=
  includes AI_CONFIG_KEYS key || startsWith key "ai_summary.".

(** [s.substring(n)] *)
Fixpoint substring_from (n : nat) (s : string) : string :=
  match n, s with
  | S n, String _ s => substring_from n s
  | _, _ => s
  end.

(** [s.replace(pattern, replacement)] for a string [pattern] and a
    [replacement] without [$]: the first occurrence is replaced. *)
Fixpoint replace (pattern replacement s : string) : string :=
  if String.prefix pattern s
  then replacement +:+ substring_from (String.length pattern) s
  else match s with
       | EmptyString => EmptyString
       | String c s => String c (replace pattern replacement s)
       end.

(** An object built from [{}] by assignments: its own properties, and
    its prototype once ['__proto__'] has been assigned an object, an
    array or null ([None]: the prototype is still [Object.prototype],
    which has no enumerable property). *)
Record object : Type := {
  own : gmap string value;
  proto : option value
}.

(** The enumerable properties of a JSON value that is an object or an
    array: the fields of the object (each listed once), the items of the
    array under their indices. *)
Definition properties (v : value) : gmap string value :=
  match v with
  | VObj fields => list_to_map fields
  | VArr items => list_to_map (imap (fun i item => (pretty i, item)) items)
  | _ => ∅
  end.

(** Whether [obj['__proto__'] = v] reaches the accessor of
    [Object.prototype]: no own property and no property of the prototype
    has that name, and the prototype is not null. *)
Definition reaches_accessor (obj : object) : bool :=
  match own obj !! "__proto__", proto obj with
  | Some _, _ => false
  | None, None => true
  | None, Some VNull => false
  | None, Some p => bool_decide (properties p !! "__proto__" = None)
  end.

(** What the accessor makes the prototype when it is assigned [v]: [v]
    itself when it is an object, an array or null, and nothing
    otherwise. *)
Definition prototype (v : value) : option value :=
  match v with
  | VObj _ | VArr _ | VNull => Some v
  | _ => None
  end.

(** [obj[key] = v].  Through the accessor, ['__proto__'] sets the
    prototype or does nothing, and creates no own property.  Every other
    assignment creates or updates an own property. *)
Definition assign (key : string) (v : value) (obj : object) : object :=
  if String.eqb key "__proto__" && reaches_accessor obj
  then match prototype v with
       | Some p => {| own := own obj; proto := Some p |}
       | None => obj
       end
  else {| own := <[key := v]> (own obj); proto := proto obj |}.

(** [for (const key in obj)] with [obj[key]]: the own properties, and the
    properties of the prototype that no own property shadows. *)
Definition for_in (obj : object) : gmap string value :=
  own obj ∪ default ∅ (properties <$> proto obj).

(** [for (const key in body) { if (isAIConfigKey(key)) {
      const nestedKey = key.replace('ai_summary.', '');
      aiConfigUpdates[nestedKey] = body[key];
    } else { regularConfig[key] = body[key]; } }]:
    the pair (regularConfig, aiConfigUpdates).  [body] holds the
    enumerable properties of the parsed body, which are its own (for an
    object, ['__proto__'] among them when the text has that key). *)
Definition separate (body : gmap string value) : object * object :=
  map_fold (fun key v (acc : object * object) =>
              if isAIConfigKey key
              then (fst acc, assign (replace "ai_summary." "" key) v (snd acc))
              else (assign key v (fst acc), snd acc))
           ({| own := ∅; proto := None |}, {| own := ∅; proto := None |}) body.

(** [for (const key in regularConfig)
      await config.set(key, regularConfig[key], false);
    await config.save()] *)
Definition save_regular (config : ref) (regularConfig : object)
    (h : gmap nat (gmap string value)) : gmap nat (gmap string value) :=
  let h :=
    map_fold (fun key v (h : gmap nat (gmap string value)) =>
                snd (call config (TestCacheImpl.set key v (Some false)) h))
             h (for_in regularConfig) in
  snd (call config TestCacheImpl.save h).

(** [app.post('/:type', ...)]; [body] is what [await c.req.json()] gives
    when it returns.  Besides the response, the result tells what was
    passed to [setAIConfig(db, aiConfigUpdates)] (utils/db-config, not
    among the sources), if it was called:
    [Object.keys(aiConfigUpdates).length > 0] counts the own
    properties. *)
Definition POST (type : string) (c : Variables) (body : gmap string value)
    (h : gmap nat (gmap string value))
  : response * option object * gmap nat (gmap string value) :=
  if negb (String.eqb type "server") && negb (String.eqb type "client")
  then (text "Invalid type" 400, None, h)
  else if negb (admin c)
  then (text "Unauthorized" 401, None, h)
  else
    let '(regularConfig, aiConfigUpdates) := separate body in
    let config := if String.eqb type "server" then serverConfig c else clientConfig c in
    let h := save_regular config regularConfig h in
    let setAIConfig :=
      if bool_decide (0 < size (own aiConfigUpdates))
      then Some aiConfigUpdates else None in
    (text "OK" 200, setAIConfig, h).

End ConfigUpdate.

(** ** authMiddleware (server/src/core/types.ts) *)

Module Auth.

(** A row of the table [users], as far as the middleware reads it. *)
Record user : Type := { id : Z; username : string; permission : Z }.

(** The variables of the context the middleware sets. *)
Record vars : Type := { uid : option Z; name : option string; admin : bool }.

(** [db.query.users.findFirst({ where: eq(users.id, id) })] *)
Definition findFirst (users : list user) (profile_id : Z) : option user :=
  snd <$> list_find (fun u => id u = profile_id) users.

(** [let token; const authHeader = c.req.header('authorization');
    if (authHeader && authHeader.startsWith('Bearer '))
      token = authHeader.substring(7);
    else token = getCookie(c, 'token')] *)
Definition token_of (authHeader cookie : option string) : option string :=
  match authHeader with
  | Some header =>
      if negb (String.eqb header "") && startsWith header "Bearer "
      then Some (ConfigUpdate.substring_from 7 header)
      else cookie
  | None => cookie
  end.

(** The body of the middleware up to [await next()].  [jwt] is
    [c.get('jwt')]: its [verify] (utils/jwt, not among the sources) gives
    the id of the profile in the token, or null. *)
Definition authMiddleware (jwt : option (string -> option Z)) (users : list user)
    (authHeader cookie : option string) (c : vars) : vars :=
  match token_of authHeader cookie, jwt with
  | Some token, Some verify =>
      if String.eqb token "" then c
      else
        match verify token with
        | Some profile_id =>
            match findFirst users profile_id with
            | Some user =>
                {| uid := Some (id user); name := Some (username user);
                   admin := (permission user =? 1)%Z |}
            | None => c
            end
        | None => c
        end
  | _, _ => c
  end.

End Auth.

(** ** Answers of the handlers below *)

Module Http.

Inductive response : Type :=
| text (body : string) (status : Z)
| json (body : value) (status : Z).

(** JavaScript numbers that are integers or NaN ([None]).  The products
    and sums below are those of the integers; the doubles of the code
    give the same numbers as long as operands and result are within
    2^53 of zero. *)
Definition number : Type := option Z.

Definition mul (a b : number) : number :=
  match a, b with Some a, Some b => Some (a * b)%Z | _, _ => None end.

Definition add (a b : number) : number :=
  match a, b with Some a, Some b => Some (a + b)%Z | _, _ => None end.

(** [a <= b]: false when one of them is NaN. *)
Definition le (a b : number) : bool :=
  match a, b with Some a, Some b => (a <=? b)%Z | _, _ => false end.

(** [a === b]: false when one of them is NaN. *)
Definition eq (a b : number) : bool :=
  match a, b with Some a, Some b => (a =? b)%Z | _, _ => false end.

(** [s ? ... : ...] for a query parameter that may be missing. *)
Definition given (s : option string) : option string :=
  match s with
  | Some s => if String.eqb s "" then None else Some s
  | None => None
  end.

Section Pagination.
(** [parseInt] and the rendering of a number in a template literal are
    built in; they are taken as they are. *)
Variable parseInt : string -> number.

(** [(page ? parseInt(page) > 0 ? parseInt(page) : 1 : 1) - 1] *)
Definition page_num (page : option string) : Z :=
  (match given page with
   | Some page =>
       match parseInt page with
       | Some n => if (0 <? n)%Z then n else 1
       | None => 1
       end
   | None => 1
   end - 1)%Z.

(** [limit ? parseInt(limit) > 50 ? 50 : parseInt(limit) : 20] *)
Definition limit_num (limit : option string) : number :=
  match given limit with
  | Some limit =>
      match parseInt limit with
      | Some n => if (50 <? n)%Z then Some 50%Z else Some n
      | None => None
      end
  | None => Some 20%Z
  end.
End Pagination.

(** [!uid] for [uid: number | undefined]. *)
Definition no_uid (uid : option Z) : bool :=
  match uid with Some n => (n =? 0)%Z | None => true end.

(** [!field] for a field of the request body, which may be missing. *)
Definition no_field (field : option value) : bool :=
  match field with Some v => negb (truthy v) | None => true end.

(** [list.slice(start, end)] for integer arguments; NaN counts as 0, a
    negative index counts from the end. *)
Definition slice {A} (l : list A) (start stop : number) : list A :=
  let n := Z.of_nat (length l) in
  let rel (k : number) : Z :=
    match k with
    | None => 0%Z
    | Some k => if (k <? 0)%Z then Z.max (n + k) 0 else Z.min k n
    end in
  let from := rel start in
  let to := rel stop in
  take (Z.to_nat (to - from)) (drop (Z.to_nat from) l).

(** [{ size, data, hasNext }] *)
Definition page_of (size : Z) (rows : list value) (hasNext : bool) : value :=
  VObj [("size", VNum size); ("data", VArr rows); ("hasNext", VBool hasNext)].

(** [list.slice(start)] *)
Definition slice_from {A} (l : list A) (start : number) : list A :=
  slice l start (Some (Z.of_nat (length l))).

End Http.

(** ** MomentsService: list and create (server/src/services/moments.ts) *)

Module Moments.

Import Http.

(** What the handlers ask of the database: the number of rows, and
    [db.query.moments.findMany({ ..., orderBy, offset, limit })] as a
    function of [offset] and [limit]. *)
Record DB : Type := {
  count : Z;
  findMany : number -> number -> list value
}.

Section Handlers.
Variable parseInt : string -> number.
(** [`${n}`] for a number. *)
Variable String_of_number : number -> string.

(** [`moments_${page_num}_${limit_num}`] *)
Definition cacheKey (page limit : option string) : string :=
  "moments_" +:+ String_of_number (Some (page_num parseInt page))
  +:+ "_" +:+ String_of_number (limit_num parseInt limit).

(** [app.get('/', ...)] *)
Definition GET (page limit : option string) (db : DB) (data : gmap string value)
  : response * gmap string value :=
  let page_num := page_num parseInt page in
  let limit_num := limit_num parseInt limit in
  let cacheKey := cacheKey page limit in
  let '(cached, data) := TestCacheImpl.get cacheKey data in
  if truthy cached then (json cached 200, data)
  else if (count db =? 0)%Z then (json (page_of 0 [] false) 200, data)
  else
    let moments_list :=
      findMany db (mul (Some page_num) limit_num) (add limit_num (Some 1%Z)) in
    let '(moments_list, hasNext) :=
      if eq (Some (Z.of_nat (length moments_list))) (add limit_num (Some 1%Z))
      then (removelast moments_list, true)
      else (moments_list, false) in
    let page := page_of (count db) moments_list hasNext in
    let '(_, data) := TestCacheImpl.set cacheKey page None data in
    (json page 200, data).

(** [app.post('/', ...)] from its guards on, for the [content] taken
    from the body: [result] is what
    [db.insert(moments).values(...).returning(...)] gives when it is
    reached; the second component tells whether it was. *)
Definition POST (uid : option Z) (admin : bool) (content : option value)
    (result : list value) (data : gmap string value)
  : response * bool * gmap string value :=
  if no_uid uid then (text "Unauthorized" 401, false, data)
  else if negb admin then (text "Permission denied" 403, false, data)
  else if no_field content then (text "Content is required" 400, false, data)
  else
    let '(_, data) := TestCacheImpl.deletePrefix "moments_" data in
    (match result with
     | [] => text "Failed to insert" 500
     | inserted :: _ => json inserted 200
     end, true, data).

(** [app.post('/', ...)] from its start:
    [const body = await c.req.json(); const { content } = body]
    come before the guards.  [body] is what [c.req.json()] resolves to,
    [None] when it rejects (the body is no JSON text); destructuring
    null throws; of any other JSON value, [content] is the property of
    that name, if it has one. *)
Definition POST_request (uid : option Z) (admin : bool) (body : option value)
    (result : list value) (data : gmap string value)
  : outcome response * bool * gmap string value :=
  match body with
  | None => (Rejected (VStr "SyntaxError"), false, data)
  | Some VNull => (Rejected (VStr "TypeError"), false, data)
  | Some body =>
      let content := ConfigUpdate.properties body !! "content" in
      let '(response, inserted, data) := POST uid admin content result data in
      (Resolved response, inserted, data)
  end.
End Handlers.

End Moments.

(** ** Feed cache invalidation (server/src/services/seo.ts) *)

Module Feed.

Section ClearFeedCache.
(** [`${id}`] for a feed id. *)
Variable String_of_number : Z -> string.

(** [if (alias) await cache.delete(`feed_${alias}`, false)] for an alias
    that may be null ([None]). *)
Definition delete_alias (alias : option string) (data : gmap string value)
  : unit * gmap string value :=
  match Http.given alias with
  | Some alias => TestCacheImpl.delete ("feed_" +:+ alias) (Some false) data
  | None => (tt, data)
  end.

(** [clearFeedCache(cache, id, alias, newAlias)] *)
Definition clearFeedCache (id : Z) (alias newAlias : option string)
    (data : gmap string value) : unit * gmap string value :=
  let '(_, data) := TestCacheImpl.deletePrefix "feeds_" data in
  let '(_, data) := TestCacheImpl.deletePrefix "search_" data in
  let '(_, data) := TestCacheImpl.delete ("feed_" +:+ String_of_number id) (Some false) data in
  let '(_, data) := TestCacheImpl.deletePrefix (String_of_number id +:+ "_previous_feed") data in
  let '(_, data) := TestCacheImpl.deletePrefix (String_of_number id +:+ "_next_feed") data in
  if bool_decide (alias = newAlias) then (tt, data)
  else
    let '(_, data) := delete_alias alias data in
    let '(_, data) := delete_alias newAlias data in
    (tt, data).
End ClearFeedCache.

(** [app.post('/', ...)], the creation of a feed: [exist] tells whether
    the query for a feed with this title or content found one, and
    [result] is what [db.insert(feeds).values(...).returning(...)] gives
    when it is reached; the second component tells whether it was.  With
    an empty [result], [result[0].insertedId] throws before the cache is
    touched; [bindTagToPost] is taken to return. *)
Definition POST (admin : bool) (title content : option value) (exist : bool)
    (uid : option Z) (result : list value) (data : gmap string value)
  : outcome Http.response * bool * gmap string value :=
  if negb admin then (Resolved (Http.text "Permission denied" 403), false, data)
  else if Http.no_field title then (Resolved (Http.text "Title is required" 400), false, data)
  else if Http.no_field content
  then (Resolved (Http.text "Content is required" 400), false, data)
  else if exist then (Resolved (Http.text "Content already exists" 400), false, data)
  else if Http.no_uid uid then (Resolved (Http.text "User ID is required" 400), false, data)
  else
    match result with
    | [] => (Rejected (VStr "TypeError"), true, data)
    | inserted :: _ =>
        let '(_, data) := TestCacheImpl.deletePrefix "feeds_" data in
        (Resolved (Http.json inserted 200), true, data)
    end.

End Feed.

(** ** SearchService: GET /search/:keyword (server/src/services/seo.ts) *)

Module Search.

Import Http.

Section Handler.
Context {W : Type}.
Variable parseInt : string -> number.
(** [decodeURI(keyword)]; [None] when it throws. *)
Variable decodeURI : string -> option string.
(** [keyword.trim()] *)
Variable trim : string -> string.
(** [db.query.feeds.findMany({ where: admin ? ... : ..., ... })] for the
    flag [admin] and the keyword. *)
Variable findMany : bool -> string -> TestCacheImpl.factory W.
(** The callback of [.map] on the rows, which gives the row sent to the
    client or throws. *)
Variable view : value -> outcome value.

(** [rows.map(view)]: the first row on which the callback throws ends the
    loop. *)
Fixpoint map_view (rows : list value) : outcome (list value) :=
  match rows with
  | [] => Resolved []
  | row :: rows =>
      match view row with
      | Rejected e => Rejected e
      | Resolved v =>
          match map_view rows with
          | Rejected e => Rejected e
          | Resolved vs => Resolved (v :: vs)
          end
      end
  end.

(** The answer for the rows of a keyword: the three cases on
    [feed_list.length]. *)
Definition paged (feed_list : list value) (page_num : Z) (limit_num : number) : value :=
  let size := Z.of_nat (length feed_list) in
  let offset := mul (Some page_num) limit_num in
  if le (Some size) offset
  then page_of size [] false
  else if le (Some size) (add offset limit_num)
  then page_of size (slice_from feed_list offset) false
  else page_of size (slice feed_list offset (add offset limit_num)) true.

(** [app.get('/:keyword', ...)] *)
Definition GET (admin : bool) (page limit : option string) (keyword : string)
    (st : gmap string value * W) : outcome response * (gmap string value * W) :=
  match decodeURI keyword with
  | None => (Rejected (VStr "URIError"), st)
  | Some keyword =>
      let page_num := page_num parseInt page in
      let limit_num := limit_num parseInt limit in
      if String.eqb (trim keyword) ""
      then (Resolved (json (page_of 0 [] false) 200), st)
      else
        let cacheKey := "search_" +:+ keyword in
        match TestCacheImpl.getOrSet cacheKey (findMany admin keyword) st with
        | (Rejected e, st) => (Rejected e, st)
        | (Resolved (VArr rows), st) =>
            match map_view rows with
            | Rejected e => (Rejected e, st)
            | Resolved feed_list =>
                (Resolved (json (paged feed_list page_num limit_num) 200), st)
            end
        | (Resolved _, st) => (Rejected (VStr "TypeError"), st)
        end
  end.
End Handler.

End Search.

(** ** The worker entry point: fetch (server/src/_worker.ts) *)

Module Worker.

(** [\w] *)
Definition is_word (c : Ascii.ascii) : bool :=
  let n := Ascii.nat_of_ascii c in
  (48 <=? n) && (n <=? 57) || (65 <=? n) && (n <=? 90) || (n =? 95)
  || (97 <=? n) && (n <=? 122).

Fixpoint all_word (s : string) : bool :=
  match s with
  | "" => true
  | String c s => is_word c && all_word s
  end.

(** [path.match(/\.\w+$/)]: some dot of the path is followed by one or
    more word characters up to the end. *)
Fixpoint has_extension (path : string) : bool :=
  match path with
  | "" => false
  | String c rest =>
      String.eqb (String c "") "." && negb (String.eqb rest "") && all_word rest
      || has_extension rest
  end.

(** [path.match(/^\/(rss\.xml|atom\.xml|rss\.json|feed\.json|feed\.xml)$/)] *)
Definition is_feed_path (path : string) : bool :=
  bool_decide (path ∈ ["/rss.xml"; "/atom.xml"; "/rss.json"; "/feed.json"; "/feed.xml"]).

(** [status === 200 || (status >= 300 && status < 400)] *)
Definition accepted (status : Z) : bool :=
  (status =? 200)%Z || (300 <=? status)%Z && (status <? 400)%Z.

Section Fetch.
(** The app, the world its construction runs in, requests and responses
    are taken as they are: a request has the path of its URL and the
    request for the index built from it, a response has a status. *)
Context {App W Request Response : Type}.
Variable createHonoApp : W -> App * W.
Variable pathname : Request -> string.
(** [new Request(new URL('/', url.origin), request)] *)
Variable indexRequest : Request -> Request.
Variable status : Response -> Z.

(** What [fetch] returns: the answer of [honoApp.fetch(request, env)], a
    response of [env.ASSETS], or [new Response('Hi', { status: 200 })]. *)
Inductive result : Type :=
| Delegated (honoApp : App)
| Asset (response : Response)
| Hi.

(** [let app = null] and [getApp()] *)
Definition getApp (st : option App * W) : App * (option App * W) :=
  match fst st with
  | Some app => (app, st)
  | None => let '(app, w) := createHonoApp (snd st) in (app, (Some app, w))
  end.

(** [try { const r = await env.ASSETS.fetch(request); if (accepted) return r }
    catch (e) { }]: the response that is returned, if one is. *)
Definition try_asset (ASSETS : Request -> outcome Response) (request : Request)
  : option Response :=
  match ASSETS request with
  | Resolved asset => if accepted (status asset) then Some asset else None
  | Rejected _ => None
  end.

(** [fetch(request, env)], with [env.ASSETS] that may be missing. *)
Definition fetch (request : Request) (ASSETS : option (Request -> outcome Response))
    (st : option App * W) : result * (option App * W) :=
  let path := pathname request in
  if is_feed_path path
  then let '(honoApp, st) := getApp st in (Delegated honoApp, st)
  else if startsWith path "/api/"
  then let '(honoApp, st) := getApp st in (Delegated honoApp, st)
  else
    match (if has_extension path
           then match ASSETS with
                | Some ASSETS => try_asset ASSETS request
                | None => None
                end
           else None) with
    | Some asset => (Asset asset, st)
    | None =>
        match (match ASSETS with
               | Some ASSETS => try_asset ASSETS (indexRequest request)
               | None => None
               end) with
        | Some indexResponse => (Asset indexResponse, st)
        | None => (Hi, st)
        end
    end.

(** The requests of one isolate, one after the other. *)
Fixpoint serve (requests : list Request) (ASSETS : option (Request -> outcome Response))
    (st : option App * W) : list result * (option App * W) :=
  match requests with
  | [] => ([], st)
  | request :: requests =>
      let '(r, st) := fetch request ASSETS st in
      let '(rs, st) := serve requests ASSETS st in
      (r :: rs, st)
  end.
End Fetch.
Arguments result : clear implicits.

(** [createHonoApp] instrumented with a counter of its calls. *)
Definition counting {App W} (createHonoApp : W -> App * W) : W * nat -> App * (W * nat) :=
  fun '(w, n) => let '(app, w) := createHonoApp w in (app, (w, S n)).

End Worker.

(** ** friendCrontab (server/src/services/friends.ts) *)

Module Friends.

Record friend : Type := { id : Z; name : string; url : string }.

(** [response.ok] and [response.status] *)
Record response : Type := { ok : bool; status : Z }.

Section Crontab.
Context {W : Type}.
(** [`${response.status}`] *)
Variable String_of_number : Z -> string.
(** [fetch(new Request(url, { method: 'GET', headers: { 'User-Agent': ua } }))] *)
Variable fetch : string -> value -> W -> outcome response * W.
(** [e.message] *)
Variable message : value -> string.

(** The loop state: the updates handed to [ctx.waitUntil], as pairs of a
    friend id and the new [health], and the two counters. *)
Record progress : Type := {
  updates : list (Z * string);
  health : nat;
  unhealthy : nat
}.

(** The body of [for (const friend of friend_list)]. *)
Definition check (ua : value) (st : progress * W) (friend : friend) : progress * W :=
  let '(p, w) := st in
  match fetch (url friend) ua w with
  | (Resolved response, w) =>
      if ok response
      then ({| updates := updates p ++ [(id friend, "")];
               health := S (health p); unhealthy := unhealthy p |}, w)
      else ({| updates := updates p ++ [(id friend, String_of_number (status response))];
               health := health p; unhealthy := S (unhealthy p) |}, w)
  | (Rejected e, w) =>
      ({| updates := updates p ++ [(id friend, message e)];
          health := health p; unhealthy := S (unhealthy p) |}, w)
  end.

(** [friendCrontab(env, ctx, db, cache, serverConfig, clientConfig)];
    [friend_list] is what [db.query.friends.findMany()] gives when it is
    reached, and the result is [None] when the function returns before
    the loop. *)
Definition friendCrontab (serverConfig : gmap string value) (friend_list : list friend)
    (w : W) : option progress * W :=
  let '(enable, serverConfig) :=
    TestCacheImpl.getOrDefault "friend_crontab" (VBool true) serverConfig in
  let '(friend_ua, serverConfig) := TestCacheImpl.get "friend_ua" serverConfig in
  let ua := if truthy friend_ua then friend_ua else VStr "Rin-Check/0.1.0" in
  if negb (truthy enable) then (None, w)
  else
    let '(p, w) :=
      foldl (check ua) ({| updates := []; health := 0; unhealthy := 0 |}, w) friend_list in
    (Some p, w).
End Crontab.

End Friends.

(** * Properties *)

(** ** TestCacheImpl *)

Section TestCacheImplFacts.
Implicit Types (data : gmap string value) (key prefix : string) (v : value).

Lemma nullish_null_id v : nullish (Some v) VNull = v.
Proof. by destruct v. Qed.

Lemma get_set key v save data :
  fst (TestCacheImpl.get key (snd (TestCacheImpl.set key v save data))) = v.
Proof. cbn. rewrite lookup_insert_eq. apply nullish_null_id. Qed.

(** The loop of [deletePrefix], started from any map [this_data], over
    the keys of [data]. *)
Lemma deletePrefix_loop_lookup prefix data (this_data : gmap string value) key :
  map_fold (fun key _ (this_data : gmap string value) =>
              if startsWith key prefix then delete key this_data
              else this_data) this_data data !! key
  = if startsWith key prefix && bool_decide (is_Some (data !! key))
    then None else this_data !! key.
Proof.
  revert data.
  apply (map_fold_weak_ind (fun (r : gmap string value) (m : gmap string value) =>
    r !! key = if startsWith key prefix && bool_decide (is_Some (m !! key))
               then None else this_data !! key)).
  - rewrite lookup_empty, bool_decide_eq_false_2 by (by intros [? ?]).
    by rewrite andb_false_r.
  - intros i x m r Hi IH.
    destruct (decide (i = key)) as [->|Hne].
    + rewrite lookup_insert_eq, bool_decide_eq_true_2, andb_true_r by eauto.
      destruct (startsWith key prefix) eqn:E.
      * apply lookup_delete_eq.
      * by rewrite IH.
    + rewrite lookup_insert_ne by done.
      destruct (startsWith i prefix); [rewrite lookup_delete_ne by done|]; exact IH.
Qed.

Lemma deletePrefix_lookup prefix data key :
  snd (TestCacheImpl.deletePrefix prefix data) !! key
  = if startsWith key prefix then None else data !! key.
Proof.
  cbn. rewrite deletePrefix_loop_lookup.
  destruct (startsWith key prefix); [|done]. cbn.
  case_bool_decide as H; [done|].
  by apply eq_None_not_Some.
Qed.
End TestCacheImplFacts.

(** C3.  For every key and every value, [set(key, v)] followed by
    [get(key)] on the same instance returns [v], whatever the [save]
    argument of [set]. *)
Theorem set_get_roundtrip (key : string) (v : value) (save : option bool)
    (data : gmap string value) :
  fst (TestCacheImpl.get key (snd (TestCacheImpl.set key v save data))) = v.
Proof. apply get_set. Qed.

(** C4.  After [deletePrefix(p)]: [get(k)] is null for every key that
    starts with [p]; [get(k)] is what it was for every other key; and when
    no key of the store starts with [p] the store is left as it was.  The
    call itself always returns (the method is a total function with result
    [tt]). *)
Theorem deletePrefix_frame (prefix : string) (data : gmap string value) :
  let data' := snd (TestCacheImpl.deletePrefix prefix data) in
  (∀ key, startsWith key prefix = true →
     fst (TestCacheImpl.get key data') = VNull)
  ∧ (∀ key, startsWith key prefix = false →
       fst (TestCacheImpl.get key data') = fst (TestCacheImpl.get key data))
  ∧ ((∀ key, is_Some (data !! key) → startsWith key prefix = false) →
       TestCacheImpl.deletePrefix prefix data = (tt, data)).
Proof.
  cbv zeta. split; [|split].
  - intros key E. unfold TestCacheImpl.get. cbn [fst].
    by rewrite deletePrefix_lookup, E.
  - intros key E. unfold TestCacheImpl.get. cbn [fst].
    by rewrite deletePrefix_lookup, E.
  - intros Hno.
    unfold TestCacheImpl.deletePrefix. f_equal.
    apply map_eq. intros key.
    pose proof (deletePrefix_lookup prefix data key) as H. cbn in H. rewrite H.
    destruct (startsWith key prefix) eqn:E; [|done].
    destruct (data !! key) eqn:Hk; [|done].
    specialize (Hno key (mk_is_Some _ _ Hk)). congruence.
Qed.

(** The invalidation scenario: [set("feeds_normal_0_20", listA);
    deletePrefix("feeds_"); get("feeds_normal_0_20")] is null, and a key
    without the prefix is kept. *)
Example invalidation_scenario :
  let data0 : gmap string value := {[ "moments_0" := VNum 3 ]} in
  let data1 := snd (TestCacheImpl.set "feeds_normal_0_20" (VArr [VNum 1; VNum 2]) None data0) in
  let data2 := snd (TestCacheImpl.deletePrefix "feeds_" data1) in
  fst (TestCacheImpl.get "feeds_normal_0_20" data1) = VArr [VNum 1; VNum 2]
  ∧ fst (TestCacheImpl.get "feeds_normal_0_20" data2) = VNull
  ∧ fst (TestCacheImpl.get "moments_0" data2) = VNum 3.
Proof. by vm_compute. Qed.

(** C10.  After [set(key, null)]: [get(key)] is null, [getOrDefault(key,
    d)] is [d], and [getOrSet(key, f)] calls [f]: its result and the world
    it leaves are those of [f], and a resolved value is stored.  The three
    methods answer as they do on the store from which the key was
    deleted. *)
Theorem stored_null_is_a_miss {W : Type} (key : string) (save : option bool)
    (d : value) (f : TestCacheImpl.factory W) (w : W) (data : gmap string value) :
  let data' := snd (TestCacheImpl.set key VNull save data) in
  let absent := snd (TestCacheImpl.delete key save data) in
  fst (TestCacheImpl.get key data') = VNull
  ∧ fst (TestCacheImpl.getOrDefault key d data') = d
  ∧ TestCacheImpl.getOrSet key f (data', w)
    = match f w with
      | (Resolved v, w') => (Resolved v, (<[key := v]> data', w'))
      | (Rejected e, w') => (Rejected e, (data', w'))
      end
  ∧ fst (TestCacheImpl.get key data') = fst (TestCacheImpl.get key absent)
  ∧ fst (TestCacheImpl.getOrDefault key d data')
    = fst (TestCacheImpl.getOrDefault key d absent)
  ∧ fst (TestCacheImpl.getOrSet key f (data', w))
    = fst (TestCacheImpl.getOrSet key f (absent, w)).
Proof.
  cbv zeta. unfold TestCacheImpl.getOrSet, TestCacheImpl.getOrDefault,
    TestCacheImpl.get, TestCacheImpl.set, TestCacheImpl.delete. cbn [fst snd].
  rewrite lookup_insert_eq, lookup_delete_eq. cbn.
  split; [done|]. split; [done|]. split; [done|].
  split; [done|]. split; [done|].
  by destruct (f w) as [[v|e] w'].
Qed.

(** C6, as stated, fails: with one entry under a key that ends in the
    suffix, [getBySuffix] still returns the empty list. *)
Lemma getBySuffix_misses_entry :
  let data : gmap string value := {[ "1_previous_feed_2" := VNum 7 ]} in
  values_with_suffix "previous_feed_2" data = [VNum 7]
  ∧ fst (TestCacheImpl.getBySuffix "previous_feed_2" data) = []
  ∧ ¬ (fst (TestCacheImpl.getBySuffix "previous_feed_2" data)
         ≡ₚ values_with_suffix "previous_feed_2" data).
Proof.
  cbv zeta.
  assert (values_with_suffix "previous_feed_2"
            ({[ "1_previous_feed_2" := VNum 7 ]} : gmap string value) = [VNum 7])
    as -> by (by vm_compute).
  repeat split. cbn. intros H. by apply Permutation_nil_l in H.
Qed.

(** C6, amended.  [getBySuffix] returns the empty list and leaves the
    store as it is, for every store and every suffix; that is the list of
    the values of the keys ending in the suffix exactly when no key of the
    store ends in it. *)
Theorem getBySuffix_empty (suffix : string) (data : gmap string value) :
  TestCacheImpl.getBySuffix suffix data = ([], data)
  ∧ (fst (TestCacheImpl.getBySuffix suffix data) ≡ₚ values_with_suffix suffix data
     ↔ ∀ key, is_Some (data !! key) → endsWith key suffix = false).
Proof.
  split; [done|]. cbn. rewrite Permutation_nil_l. unfold values_with_suffix.
  split.
  - intros H key [v Hv]. symmetry in H. apply fmap_nil_inv in H.
    apply map_to_list_empty_iff in H.
    destruct (endsWith key suffix) eqn:E; [|done].
    assert (filter (fun kv : string * value => endsWith (fst kv) suffix = true) data
              !! key = Some v) as Hin by (by apply map_lookup_filter_Some).
    rewrite H in Hin. by rewrite lookup_empty in Hin.
  - intros Hno. symmetry.
    replace (filter (fun kv : string * value => endsWith (fst kv) suffix = true) data)
      with (∅ : gmap string value); [by rewrite map_to_list_empty|].
    symmetry. apply map_eq. intros key. rewrite lookup_empty.
    apply map_lookup_filter_None. right. intros v Hv HP. cbn [fst] in HP.
    by rewrite (Hno key (mk_is_Some _ _ Hv)) in HP.
Qed.

(** C5, as stated, fails: a factory that resolves to null is called by
    both calls of [getOrSet]; and on a store that already holds a value
    under the key the factory is not called at all. *)
Lemma getOrSet_twice_not_once :
  TestCacheImpl.getOrSet_twice "k" (fun w : unit => (Resolved VNull, w)) ∅ tt
  = (Resolved VNull, Resolved VNull, 2)
  ∧ snd (TestCacheImpl.getOrSet_twice "k" (fun w : unit => (Resolved VNull, w)) ∅ tt)
    ≠ 1
  ∧ TestCacheImpl.getOrSet_twice "k" (fun w : unit => (Resolved (VNum 1), w))
      {[ "k" := VNum 0 ]} tt
    = (Resolved (VNum 0), Resolved (VNum 0), 0)
  ∧ snd (TestCacheImpl.getOrSet_twice "k" (fun w : unit => (Resolved (VNum 1), w))
           {[ "k" := VNum 0 ]} tt)
    ≠ 1.
Proof. repeat split; by vm_compute. Qed.

Section TestCacheAnyFacts.
Context {W : Type}.

Lemma any_get_set key (v : option value) save (data : gmap string (option value)) :
  fst (TestCacheAny.get key (snd (TestCacheAny.set key v save data))) = nullish v VNull.
Proof. cbn. by rewrite lookup_insert_eq. Qed.

Lemma any_get_of_json key (data : gmap string value) :
  fst (TestCacheAny.get key (TestCacheAny.of_json data)) = fst (TestCacheImpl.get key data).
Proof.
  cbn. unfold TestCacheAny.of_json. rewrite lookup_fmap. by destruct (data !! key).
Qed.

(** On a store and a factory of JSON values, [getOrSet] is that of
    [TestCacheImpl]. *)
Lemma any_getOrSet_of_json key (f : TestCacheImpl.factory W) (data : gmap string value)
    (w : W) :
  TestCacheAny.getOrSet key (TestCacheAny.of_factory f) (TestCacheAny.of_json data, w)
  = (TestCacheAny.of_outcome (fst (TestCacheImpl.getOrSet key f (data, w))),
     (TestCacheAny.of_json (fst (snd (TestCacheImpl.getOrSet key f (data, w)))),
      snd (snd (TestCacheImpl.getOrSet key f (data, w))))).
Proof.
  unfold TestCacheAny.getOrSet, TestCacheImpl.getOrSet.
  pose proof (any_get_of_json key data) as Hget. cbn [TestCacheAny.get TestCacheImpl.get fst] in *.
  rewrite Hget. destruct (not_null (nullish (data !! key) VNull)); [done|].
  unfold TestCacheAny.of_factory. destruct (f w) as [[v|e] w']; cbn; [|done].
  unfold TestCacheAny.of_json. by rewrite fmap_insert.
Qed.
End TestCacheAnyFacts.

(** A factory that resolves to [undefined] is called by both calls of
    [getOrSet], as one that resolves to null is: [undefined] is stored,
    and read back as null. *)
Example getOrSet_twice_undefined :
  TestCacheAny.getOrSet_twice "feed_7" (fun w : unit => (Resolved None, w)) ∅ tt
  = (Resolved None, Resolved None, 2).
Proof. by vm_compute. Qed.

(** C5, amended.  When the call of the factory resolves to a value that is
    neither null nor [undefined], two calls of [getOrSet(key, f)] in
    sequence return the same value and call the factory at most once:
    once when [get(key)] was null before the first call, and never when
    the key held a value. *)
Theorem getOrSet_twice_at_most_once {W : Type} (key : string)
    (f : TestCacheAny.factory W) (data : gmap string (option value)) (w w' : W)
    (v : value) :
  f w = (Resolved (Some v), w') →
  not_null v = true →
  let '(r1, r2, calls) := TestCacheAny.getOrSet_twice key f data w in
  r1 = r2
  ∧ (calls ≤ 1)%nat
  ∧ (fst (TestCacheAny.get key data) = VNull → r1 = Resolved (Some v) ∧ calls = 1)
  ∧ (fst (TestCacheAny.get key data) ≠ VNull →
       r1 = Resolved (Some (fst (TestCacheAny.get key data))) ∧ calls = 0).
Proof.
  intros Hf Hv.
  unfold TestCacheAny.getOrSet_twice, TestCacheAny.getOrSet,
    TestCacheAny.counting, TestCacheAny.get, TestCacheAny.set.
  cbn [fst snd].
  destruct (not_null (nullish (mjoin (data !! key)) VNull)) eqn:Hc.
  - rewrite Hc. cbn [fst snd].
    split; [done|]. split; [lia|]. split; [|done].
    intros E. rewrite E in Hc. discriminate.
  - rewrite Hf. rewrite lookup_insert_eq.
    change (mjoin (Some (Some v))) with (Some v).
    rewrite nullish_null_id, Hv. cbn [fst snd].
    split; [done|]. split; [lia|]. split; [done|].
    intros E. by destruct (nullish (mjoin (data !! key)) VNull).
Qed.

Lemma getOrSet_twice_at_most_once_witness :
  (fun w : unit => (Resolved (Some (VNum 1)), w)) tt = (Resolved (Some (VNum 1)), tt)
  ∧ not_null (VNum 1) = true
  ∧ let '(r1, r2, calls) :=
      TestCacheAny.getOrSet_twice "k" (fun w : unit => (Resolved (Some (VNum 1)), w)) ∅ tt in
    r1 = r2
    ∧ (calls ≤ 1)%nat
    ∧ (fst (TestCacheAny.get "k" ∅) = VNull → r1 = Resolved (Some (VNum 1)) ∧ calls = 1)
    ∧ (fst (TestCacheAny.get "k" ∅) ≠ VNull →
         r1 = Resolved (Some (fst (TestCacheAny.get "k" ∅))) ∧ calls = 0).
Proof.
  split; [reflexivity|]. split; [reflexivity|].
  apply (getOrSet_twice_at_most_once (W:=unit) "k"
           (fun w => (Resolved (Some (VNum 1)), w)) ∅ tt tt (VNum 1)); reflexivity.
Defined.

(** ** Instances and the request context *)

Section HeapFacts.
Import Heap.
Implicit Types (h : gmap nat (gmap string value)) (r a b : ref).

Lemma deref_call_same {A} r (m : gmap string value → A * gmap string value) h :
  deref r (snd (call r m h)) = snd (m (deref r h)).
Proof.
  unfold call, deref. destruct (m _) as [x d]. cbn. by rewrite lookup_insert_eq.
Qed.

Lemma deref_call_other {A} a b (m : gmap string value → A * gmap string value) h :
  a ≠ b → deref b (snd (call a m h)) = deref b h.
Proof.
  intros Hab. unfold call, deref. destruct (m _) as [x d]. cbn.
  by rewrite lookup_insert_ne.
Qed.

Lemma fst_call {A} r (m : gmap string value → A * gmap string value) h :
  fst (call r m h) = fst (m (deref r h)).
Proof. unfold call. by destruct (m _). Qed.

(** Calls on one instance never reach another one. *)
Lemma run_ops_other a b ops h :
  a ≠ b → deref b (run_ops a ops h) = deref b h.
Proof.
  intros Hab. revert h. induction ops as [|o ops IH]; intros h; [done|].
  unfold run_ops in *. cbn [foldl]. rewrite IH. by apply deref_call_other.
Qed.

(** The three stores of the mock middleware are three objects. *)
Lemma middleware_refs_distinct env admin h :
  let c := fst (TestApp.middleware env admin h) in
  ConfigService.cache c ≠ ConfigService.serverConfig c
  ∧ ConfigService.cache c ≠ ConfigService.clientConfig c
  ∧ ConfigService.serverConfig c ≠ ConfigService.clientConfig c.
Proof.
  cbn.
  set (r0 := fresh (dom h)).
  set (h1 := <[r0 := TestCacheImpl.new]> h).
  set (r1 := fresh (dom h1)).
  set (h2 := <[r1 := TestCacheImpl.new]> h1).
  set (r2 := fresh (dom h2)).
  assert (r1 ∉ dom h1) as H1 by apply is_fresh.
  assert (r2 ∉ dom h2) as H2 by apply is_fresh.
  assert (r0 ∈ dom h1) as H01 by (apply elem_of_dom; subst h1; by rewrite lookup_insert_eq).
  assert (r1 ∈ dom h2) as H12 by (apply elem_of_dom; subst h2; by rewrite lookup_insert_eq).
  assert (r0 ∈ dom h2) as H02.
  { apply elem_of_dom. subst h2 h1.
    destruct (decide (r1 = r0)) as [->|Hne]; [by rewrite lookup_insert_eq|].
    by rewrite lookup_insert_ne, lookup_insert_eq. }
  repeat split; intros E.
  - apply H1. by rewrite E.
  - apply H2. by rewrite <- E.
  - apply H2. by rewrite <- E.
Qed.
End HeapFacts.

(** C8.  DELETE /cache leaves the server-config and client-config stores
    as they are; for an admin it answers OK and empties the cache store;
    and after [clear()], [all()] is the empty map, whatever the store
    held. *)
Theorem clear_cache_only (c : ConfigService.Variables)
    (h : gmap nat (gmap string value)) :
  ConfigService.cache c ≠ ConfigService.serverConfig c →
  ConfigService.cache c ≠ ConfigService.clientConfig c →
  let h' := snd (ConfigService.DELETE_cache c h) in
  Heap.deref (ConfigService.serverConfig c) h' = Heap.deref (ConfigService.serverConfig c) h
  ∧ Heap.deref (ConfigService.clientConfig c) h' = Heap.deref (ConfigService.clientConfig c) h
  ∧ (ConfigService.admin c = true →
       fst (ConfigService.DELETE_cache c h) = ConfigService.text "OK" 200
       ∧ fst (Heap.call (ConfigService.cache c) TestCacheImpl.all h') = ∅)
  ∧ (∀ data : gmap string value,
       fst (TestCacheImpl.all (snd (TestCacheImpl.clear data))) = ∅).
Proof.
  intros Hs Hc. cbv zeta. unfold ConfigService.DELETE_cache.
  destruct (ConfigService.admin c); cbn [negb].
  - destruct (Heap.call _ _ _) as [u h'] eqn:E.
    assert (h' = snd (Heap.call (ConfigService.cache c) TestCacheImpl.clear h))
      as -> by (by rewrite E).
    cbn [fst snd]. rewrite !deref_call_other by done.
    split; [done|]. split; [done|]. split; [|done].
    intros _. split; [done|]. by rewrite fst_call, deref_call_same.
  - cbn [fst snd]. split; [done|]. split; [done|]. split; [|done].
    discriminate.
Qed.

Lemma clear_cache_only_witness :
  1 ≠ 0 ∧ 1 ≠ 2
  ∧ (let c := {| ConfigService.cache := 1; ConfigService.serverConfig := 0;
                 ConfigService.clientConfig := 2; ConfigService.admin := true;
                 ConfigService.env := ∅ |} in
     let h : gmap nat (gmap string value) :=
       {[ 0 := {[ "webhook_url" := VStr "https://example.com/webhook" ]};
          1 := {[ "feeds_normal_0_20" := VNum 1; "feeds_normal_1_20" := VNum 2;
                  "moments_0" := VNum 3; "feed_1" := VNum 4; "feed_2" := VNum 5 ]};
          2 := {[ "site.name" := VStr "Rin" ]} ]} in
     let h' := snd (ConfigService.DELETE_cache c h) in
     Heap.deref (ConfigService.serverConfig c) h' = Heap.deref (ConfigService.serverConfig c) h
     ∧ Heap.deref (ConfigService.clientConfig c) h' = Heap.deref (ConfigService.clientConfig c) h
     ∧ (ConfigService.admin c = true →
          fst (ConfigService.DELETE_cache c h) = ConfigService.text "OK" 200
          ∧ fst (Heap.call (ConfigService.cache c) TestCacheImpl.all h') = ∅)
     ∧ (∀ data : gmap string value,
          fst (TestCacheImpl.all (snd (TestCacheImpl.clear data))) = ∅)).
Proof.
  split; [lia|]. split; [lia|].
  apply (clear_cache_only
           {| ConfigService.cache := 1; ConfigService.serverConfig := 0;
              ConfigService.clientConfig := 2; ConfigService.admin := true;
              ConfigService.env := ∅ |}); cbn; lia.
Defined.

(** ** ConfigService: masking *)

Section MaskFacts.
Import Heap ConfigService.

(** Field by field, what [maskSensitiveFields] returns. *)
Lemma maskSensitiveFields_fields (config : gmap string value) (key : string) :
  maskSensitiveFields config !! key
  = if String.eqb key "__proto__" then None
    else (fun v => if includes SENSITIVE_FIELDS key && truthy v then VStr MASK else v)
           <$> config !! key.
Proof.
  unfold maskSensitiveFields.
  apply (map_fold_weak_ind (fun (r m : gmap string value) =>
    r !! key = if String.eqb key "__proto__" then None
               else (fun v => if includes SENSITIVE_FIELDS key && truthy v
                              then VStr MASK else v) <$> m !! key)).
  - rewrite !lookup_empty. by destruct (String.eqb key "__proto__").
  - intros i x m r Hi IH. unfold assign.
    destruct (decide (i = key)) as [->|Hne].
    + rewrite (lookup_insert_eq m). cbn.
      destruct (String.eqb key "__proto__") eqn:Hp.
      * by destruct (includes SENSITIVE_FIELDS key && truthy x).
      * destruct (includes SENSITIVE_FIELDS key && truthy x);
          by rewrite lookup_insert_eq.
    + rewrite (lookup_insert_ne m) by done. rewrite <- IH.
      destruct (includes SENSITIVE_FIELDS i && truthy x), (String.eqb i "__proto__");
        by rewrite ?lookup_insert_ne.
Qed.

Lemma maskSensitiveFields_lookup (config : gmap string value) (key : string) :
  key ≠ "__proto__" →
  maskSensitiveFields config !! key
  = (fun v => if includes SENSITIVE_FIELDS key && truthy v then VStr MASK else v)
      <$> config !! key.
Proof.
  intros Hk. rewrite maskSensitiveFields_fields.
  apply String.eqb_neq in Hk. by rewrite Hk.
Qed.

Lemma GET_server_admin (c : Variables) (aiConfig : AIConfigForFrontend)
    (h : gmap nat (gmap string value)) :
  admin c = true →
  fst (GET "server" c aiConfig h)
  = json (maskSensitiveFields (configObj aiConfig (deref (serverConfig c) h))) 200.
Proof.
  intros Ha. unfold GET. rewrite Ha. cbn. done.
Qed.

Lemma GET_server_not_admin (c : Variables) (aiConfig : AIConfigForFrontend)
    (h : gmap nat (gmap string value)) :
  admin c = false → GET "server" c aiConfig h = (text "Unauthorized" 401, h).
Proof. intros Ha. unfold GET. by rewrite Ha. Qed.

(** The object depends on the store only through the fields other than
    the key. *)
Lemma configObj_ignores_stored_key (aiConfig : AIConfigForFrontend)
    (all1 all2 : gmap string value) :
  delete "ai_summary.api_key" all1 = delete "ai_summary.api_key" all2 →
  configObj aiConfig all1 = configObj aiConfig all2.
Proof.
  intros H. apply map_eq. intros k. unfold configObj.
  destruct (decide (k = "ai_summary.api_key")) as [->|Hk].
  - by rewrite !lookup_insert_eq.
  - rewrite !(lookup_insert_ne _ "ai_summary.api_key") by done.
    assert (all1 !! k = all2 !! k) as Hl.
    { rewrite <- (lookup_delete_ne all1 "ai_summary.api_key" k) by done.
      rewrite H. by rewrite lookup_delete_ne. }
    rewrite !lookup_insert. repeat case_decide; done.
Qed.
End MaskFacts.

(** C2.  [maskSensitiveFields] maps a non-empty (truthy)
    'ai_summary.api_key' to the mask, so two objects that differ only in
    that value are masked to the same object; the answer of GET /server
    to an admin, when the key is reported as set, carries the mask under
    'ai_summary.api_key' (in every case the field is the mask or the empty
    string, by that report alone); and the answer is the same for two
    server-config stores that differ only in what they hold under that
    key. *)
Theorem api_key_is_masked :
  (∀ (config : gmap string value) (v : value),
     config !! "ai_summary.api_key" = Some v → truthy v = true →
     ConfigService.maskSensitiveFields config !! "ai_summary.api_key"
     = Some (VStr ConfigService.MASK))
  ∧ (∀ (config : gmap string value) (v1 v2 : value),
       truthy v1 = true → truthy v2 = true →
       ConfigService.maskSensitiveFields (<["ai_summary.api_key" := v1]> config)
       = ConfigService.maskSensitiveFields (<["ai_summary.api_key" := v2]> config))
  ∧ (∀ (c : ConfigService.Variables) (aiConfig : ConfigService.AIConfigForFrontend)
       (h : gmap nat (gmap string value)),
       ConfigService.admin c = true →
       ConfigService.api_key_set aiConfig = true →
       ∃ body, fst (ConfigService.GET "server" c aiConfig h) = ConfigService.json body 200
               ∧ body !! "ai_summary.api_key" = Some (VStr ConfigService.MASK))
  ∧ (∀ (c : ConfigService.Variables) (aiConfig : ConfigService.AIConfigForFrontend)
       (h : gmap nat (gmap string value)),
       ConfigService.admin c = true →
       ∃ body, fst (ConfigService.GET "server" c aiConfig h) = ConfigService.json body 200
               ∧ body !! "ai_summary.api_key"
                 = Some (VStr (if ConfigService.api_key_set aiConfig
                               then ConfigService.MASK else "")))
  ∧ (∀ (c : ConfigService.Variables) (aiConfig : ConfigService.AIConfigForFrontend)
       (h1 h2 : gmap nat (gmap string value)),
       delete "ai_summary.api_key" (Heap.deref (ConfigService.serverConfig c) h1)
       = delete "ai_summary.api_key" (Heap.deref (ConfigService.serverConfig c) h2) →
       fst (ConfigService.GET "server" c aiConfig h1)
       = fst (ConfigService.GET "server" c aiConfig h2)).
Proof.
  split; [|split; [|split; [|split]]].
  - intros config v Hv Ht. rewrite maskSensitiveFields_lookup, Hv by done. cbn.
    by rewrite Ht.
  - intros config v1 v2 H1 H2. apply map_eq. intros k.
    rewrite !maskSensitiveFields_fields.
    destruct (String.eqb k "__proto__"); [done|].
    destruct (decide (k = "ai_summary.api_key")) as [->|Hk].
    + rewrite !lookup_insert_eq. cbn. by rewrite H1, H2.
    + by rewrite !lookup_insert_ne.
  - intros c aiConfig h Ha Hset. eexists. split; [by apply GET_server_admin|].
    rewrite maskSensitiveFields_lookup by done. unfold ConfigService.configObj.
    rewrite lookup_insert_eq, Hset. done.
  - intros c aiConfig h Ha. eexists. split; [by apply GET_server_admin|].
    rewrite maskSensitiveFields_lookup by done. unfold ConfigService.configObj.
    rewrite lookup_insert_eq. by destruct (ConfigService.api_key_set aiConfig).
  - intros c aiConfig h1 h2 H. destruct (ConfigService.admin c) eqn:Ha.
    + rewrite !GET_server_admin by done.
      by rewrite (configObj_ignores_stored_key aiConfig _ _ H).
    + by rewrite !GET_server_not_admin.
Qed.

(** A run of GET /server: the store holds a key of its own, the AI
    configuration reports the key as set; nothing of the stored value is
    in the answer. *)
Example GET_server_run :
  fst (ConfigService.GET "server"
         {| ConfigService.cache := 1; ConfigService.serverConfig := 0;
            ConfigService.clientConfig := 2; ConfigService.admin := true;
            ConfigService.env := ∅ |}
         {| ConfigService.enabled := true; ConfigService.provider := "openai";
            ConfigService.model := "gpt-4o-mini"; ConfigService.api_url := "";
            ConfigService.api_key_set := true |}
         {[ 0 := {[ "ai_summary.api_key" := VStr "secret_key_123" ]} ]})
  = ConfigService.json
      (list_to_map
         [("ai_summary.enabled", VStr "true"); ("ai_summary.provider", VStr "openai");
          ("ai_summary.model", VStr "gpt-4o-mini"); ("ai_summary.api_url", VStr "");
          ("ai_summary.api_key", VStr ConfigService.MASK)]) 200.
Proof.
  rewrite GET_server_admin by done. by vm_compute.
Qed.

(** ** LazyInitContainer *)

Section ContainerFacts.
Import LazyInitContainer.
Context {I W : Type}.
Implicit Types (c : t I W) (w : W) (key k : string) (f : factory I W)
  (p q : nat) (sp sq : init_promise I W) (r : returned I).

Lemma new_inv : container_inv (new : t I W).
Proof.
  split; cbn.
  - intros p q sp sq H. by rewrite lookup_nil in H.
  - intros p sp H. by rewrite lookup_nil in H.
  - intros p sp i H. by rewrite lookup_nil in H.
  - intros k p H. by rewrite lookup_empty in H.
  - intros k i H. by rewrite lookup_empty in H.
Qed.

(** A key that is in neither map has no promise. *)
Lemma fresh_key_no_promise c k p sp :
  container_inv c →
  instances c !! k = None → initializing c !! k = None →
  promises c !! p = Some sp → key_of sp ≠ k.
Proof.
  intros Hinv Hi Hn Hp <-.
  destruct (resolved_with sp) as [i|] eqn:E.
  - destruct (inv_resolved c Hinv p sp i Hp E) as [H _]. congruence.
  - destruct (inv_unresolved c Hinv p sp Hp E) as [H _]. congruence.
Qed.

(** The three ways [get] returns. *)
Lemma get_cases key f c w :
  (∃ i, instances c !! key = Some i ∧ get key f (c, w) = (Instance i, (c, w)))
  ∨ (∃ p, instances c !! key = None ∧ initializing c !! key = Some p
          ∧ get key f (c, w) = (Promise p, (c, w)))
  ∨ (instances c !! key = None ∧ initializing c !! key = None
     ∧ get key f (c, w)
       = (Promise (length (promises c)),
          ({| instances := instances c;
              initializing := <[key := length (promises c)]> (initializing c);
              promises := promises c ++ [Pending key (fst (f w))] |}, snd (f w)))).
Proof.
  unfold get.
  destruct (instances c !! key) as [i|]; [left; eauto|].
  destruct (initializing c !! key) as [p|]; [right; left; eauto|].
  right; right. by destruct (f w).
Qed.

Lemma lookup_snoc_Some {A} (l : list A) (x y : A) (n : nat) :
  (l ++ [x]) !! n = Some y →
  l !! n = Some y ∨ (n = length l ∧ y = x).
Proof.
  intros H. destruct (decide (n < length l)%nat) as [Hlt|Hge].
  - left. by rewrite lookup_app_l in H.
  - right. rewrite lookup_app_r in H by lia.
    destruct (n - length l)%nat as [|m] eqn:E; cbn in H; [|done].
    split; [lia|congruence].
Qed.

Lemma get_inv key f c w :
  container_inv c → container_inv (fst (snd (get key f (c, w)))).
Proof.
  intros Hinv.
  destruct (get_cases key f c w) as [(i & _ & ->)|[(p & _ & _ & ->)|(Hi & Hn & ->)]];
    [done..|].
  cbn [fst snd].
  assert (∀ p sp, promises c !! p = Some sp → key_of sp ≠ key) as Hfresh
    by (intros p sp; by apply fresh_key_no_promise).
  split; cbn [instances initializing promises].
  - intros p q sp sq Hp Hq Hk.
    apply lookup_snoc_Some in Hp as [Hp|[-> ->]];
      apply lookup_snoc_Some in Hq as [Hq|[-> ->]].
    + by apply (inv_unique c Hinv p q sp sq).
    + cbn in Hk. by apply Hfresh in Hp.
    + cbn in Hk. symmetry in Hk. by apply Hfresh in Hq.
    + done.
  - intros p sp Hp Hr.
    apply lookup_snoc_Some in Hp as [Hp|[-> ->]].
    + rewrite lookup_insert_ne by (apply not_eq_sym; by eapply Hfresh).
      by apply (inv_unresolved c Hinv).
    + cbn. by rewrite lookup_insert_eq.
  - intros p sp i Hp Hr.
    apply lookup_snoc_Some in Hp as [Hp|[-> ->]]; [|done].
    rewrite lookup_insert_ne by (apply not_eq_sym; by eapply Hfresh).
    by apply (inv_resolved c Hinv p).
  - intros k p Hk.
    destruct (decide (key = k)) as [->|Hne].
    + rewrite lookup_insert_eq in Hk. injection Hk as <-.
      exists (Pending k (fst (f w))). split; [|done].
      rewrite lookup_app_r by lia. by rewrite Nat.sub_diag.
    + rewrite lookup_insert_ne in Hk by done.
      destruct (inv_initializing c Hinv k p Hk) as (sp & Hp & Hkey).
      exists sp. split; [|done]. by apply lookup_app_l_Some.
  - intros k i Hk.
    destruct (inv_instances c Hinv k i Hk) as (p & sp & Hp & Hkey & Hr).
    exists p, sp. split; [|done]. by apply lookup_app_l_Some.
Qed.

(** [settle] does nothing unless the promise is pending; then it runs the
    rest of the factory and the callback. *)
Lemma settle_cases p c w :
  ((∀ k rest, promises c !! p ≠ Some (Pending k rest)) ∧ settle p (c, w) = (c, w))
  ∨ (∃ k rest, promises c !! p = Some (Pending k rest)
       ∧ settle p (c, w)
         = ({| instances := match fst (rest w) with
                            | Resolved i => <[k := i]> (instances c)
                            | Rejected _ => instances c
                            end;
               initializing := match fst (rest w) with
                               | Resolved _ => delete k (initializing c)
                               | Rejected _ => initializing c
                               end;
               promises := <[p := Settled k (fst (rest w))]> (promises c) |},
            snd (rest w))).
Proof.
  unfold settle. destruct (promises c !! p) as [[k rest|k o]|] eqn:E.
  - right. exists k, rest. split; [done|]. by destruct (rest w) as [[i|e] w'].
  - left. split; [intros; discriminate|done].
  - left. split; [intros; discriminate|done].
Qed.

Lemma settle_inv p c w :
  container_inv c → container_inv (fst (settle p (c, w))).
Proof.
  intros Hinv.
  destruct (settle_cases p c w) as [[_ ->]|(k & rest & Hp & ->)]; [done|].
  cbn [fst]. set (o := fst (rest w)).
  destruct (inv_unresolved c Hinv p _ Hp eq_refl) as [Hin Hi]. cbn in Hin, Hi.
  assert (∀ q sq, <[p := Settled k o]> (promises c) !! q = Some sq →
            (q = p ∧ sq = Settled k o)
            ∨ (q ≠ p ∧ promises c !! q = Some sq ∧ key_of sq ≠ k)) as Hlook.
  { intros q sq Hq. apply list_lookup_insert_Some in Hq as [(-> & <- & _)|[Hne Hq]].
    - by left.
    - right. split; [done|]. split; [done|]. intros Hk.
      apply Hne. by apply (inv_unique c Hinv p q _ sq Hp Hq). }
  assert (∀ k', k' ≠ k →
            match o with Resolved i => <[k := i]> (instances c) | Rejected _ => instances c end
              !! k' = instances c !! k') as Hinst.
  { intros k' Hk'. destruct o; [by rewrite lookup_insert_ne|done]. }
  assert (∀ k', k' ≠ k →
            match o with Resolved _ => delete k (initializing c) | Rejected _ => initializing c end
              !! k' = initializing c !! k') as Hinit.
  { intros k' Hk'. destruct o; [by rewrite lookup_delete_ne|done]. }
  assert (p < length (promises c)) as Hlen by (by eapply lookup_lt_Some).
  split; cbn [instances initializing promises].
  - intros q1 q2 s1 s2 H1 H2 Hk.
    apply Hlook in H1 as [[-> ->]|(Hn1 & H1 & Hk1)];
      apply Hlook in H2 as [[-> ->]|(Hn2 & H2 & Hk2)]; cbn in Hk; try done.
    by apply (inv_unique c Hinv q1 q2 s1 s2).
  - intros q sq Hq Hr.
    apply Hlook in Hq as [[-> ->]|(Hn & Hq & Hk)].
    + cbn in Hr |- *. destruct o; [done|]. done.
    + rewrite Hinst, Hinit by done. by apply (inv_unresolved c Hinv).
  - intros q sq i Hq Hr.
    apply Hlook in Hq as [[-> ->]|(Hn & Hq & Hk)].
    + cbn in Hr |- *. destruct o as [j|e]; [|done]. injection Hr as ->.
      by rewrite lookup_insert_eq, lookup_delete_eq.
    + rewrite Hinst, Hinit by done. by apply (inv_resolved c Hinv q).
  - intros k' q Hk'.
    destruct (decide (k' = k)) as [->|Hne].
    + exists (Settled k o). destruct o as [j|e].
      * by rewrite lookup_delete_eq in Hk'.
      * assert (q = p) as -> by congruence.
        split; [by apply list_lookup_insert_eq|done].
    + rewrite Hinit in Hk' by done.
      destruct (inv_initializing c Hinv k' q Hk') as (sq & Hq & Hkey).
      exists sq. split; [|done].
      rewrite list_lookup_insert_ne; [done|]. intros ->.
      rewrite Hp in Hq. injection Hq as <-. by cbn in Hkey.
  - intros k' i Hk'.
    destruct (decide (k' = k)) as [->|Hne].
    + destruct o as [j|e]; [|congruence].
      rewrite lookup_insert_eq in Hk'. injection Hk' as ->.
      exists p, (Settled k (Resolved i)). split; [by apply list_lookup_insert_eq|done].
    + rewrite Hinst in Hk' by done.
      destruct (inv_instances c Hinv k' i Hk') as (q & sq & Hq & Hkey & Hr).
      exists q, sq. split; [|done].
      rewrite list_lookup_insert_ne; [done|]. intros ->.
      rewrite Hp in Hq. injection Hq as <-. by cbn in Hkey.
Qed.

(** What [get] returns is for the key it was called with. *)
Lemma get_returned_for key f c w :
  container_inv c →
  returned_for (fst (snd (get key f (c, w)))) key (fst (get key f (c, w))).
Proof.
  intros Hinv.
  destruct (get_cases key f c w) as [(i & Hi & ->)|[(p & _ & Hp & ->)|(_ & _ & ->)]];
    cbn [fst snd returned_for].
  - done.
  - by apply (inv_initializing c Hinv).
  - exists (Pending key (fst (f w))). split; [|done]. cbn.
    rewrite lookup_app_r by lia. by rewrite Nat.sub_diag.
Qed.

(** A promise keeps its key. *)
Lemma called_for_get key f c w k :
  called_for c k → called_for (fst (snd (get key f (c, w)))) k.
Proof.
  intros (p & sp & Hp & Hk).
  destruct (get_cases key f c w) as [(i & _ & ->)|[(q & _ & _ & ->)|(_ & _ & ->)]];
    cbn [fst snd]; [by exists p, sp..|].
  exists p, sp. split; [|done]. by apply lookup_app_l_Some.
Qed.

Lemma called_for_settle q c w k :
  called_for c k → called_for (fst (settle q (c, w))) k.
Proof.
  intros (p & sp & Hp & Hk).
  destruct (settle_cases q c w) as [[_ ->]|(k0 & rest & Hq & ->)];
    cbn [fst]; [by exists p, sp|].
  destruct (decide (q = p)) as [->|Hne].
  - exists p, (Settled k0 (fst (rest w))). cbn. split.
    + apply list_lookup_insert_eq. by eapply lookup_lt_Some.
    + rewrite Hq in Hp. injection Hp as <-. done.
  - exists p, sp. split; [|done]. cbn. by rewrite list_lookup_insert_ne.
Qed.

Lemma returned_for_get key f c w k r :
  returned_for c k r → returned_for (fst (snd (get key f (c, w)))) k r.
Proof.
  destruct r as [i|p]; cbn [returned_for].
  - intros H.
    by destruct (get_cases key f c w) as [(j & _ & ->)|[(q & _ & _ & ->)|(_ & _ & ->)]].
  - intros (sp & Hp & Hk).
    destruct (get_cases key f c w) as [(j & _ & ->)|[(q & _ & _ & ->)|(_ & _ & ->)]];
      cbn [fst snd promises]; [by exists sp..|].
    exists sp. split; [|done]. by apply lookup_app_l_Some.
Qed.

Lemma returned_for_settle q c w k r :
  container_inv c → returned_for c k r → returned_for (fst (settle q (c, w))) k r.
Proof.
  intros Hinv.
  destruct (settle_cases q c w) as [[_ ->]|(k0 & rest & Hq & ->)]; [done|].
  destruct (inv_unresolved c Hinv q _ Hq eq_refl) as [_ Hi]. cbn in Hi.
  destruct r as [i|p]; cbn [returned_for fst instances promises].
  - intros H. destruct (fst (rest w)); [|done].
    rewrite lookup_insert_ne; [done|]. intros ->. congruence.
  - intros (sp & Hp & Hk). destruct (decide (q = p)) as [->|Hne].
    + exists (Settled k0 (fst (rest w))). split.
      * apply list_lookup_insert_eq. by eapply lookup_lt_Some.
      * rewrite Hq in Hp. injection Hp as <-. done.
    + exists sp. split; [|done]. by rewrite list_lookup_insert_ne.
Qed.

(** Along every schedule the invariant holds, and every logged result is
    a result for its key. *)
Lemma run_inv (evs : list (event I W)) w :
  container_inv (fst (fst (run evs w)))
  ∧ ∀ k r, (k, r) ∈ snd (run evs w) → returned_for (fst (fst (run evs w))) k r.
Proof.
  unfold run. induction evs as [|ev evs IH] using rev_ind.
  - cbn. split; [apply new_inv|]. intros k r H. by apply elem_of_nil in H.
  - rewrite foldl_snoc. destruct (foldl step (new, w, []) evs) as [[c w'] log].
    cbn [fst snd] in IH. destruct IH as [Hinv Hlog].
    destruct ev as [key f|p]; cbn [step].
    + pose proof (get_inv key f c w' Hinv) as Hinv'.
      pose proof (get_returned_for key f c w' Hinv) as Hret.
      pose proof (fun k r => returned_for_get key f c w' k r) as Hmono.
      destruct (get key f (c, w')) as [r [c' w'']]. cbn [fst snd] in *.
      split; [done|]. intros k r' [Hin|Hin%list_elem_of_singleton]%elem_of_app.
      * by apply Hmono, Hlog.
      * by injection Hin as -> ->.
    + pose proof (settle_inv p c w' Hinv) as Hinv'.
      pose proof (fun k r => returned_for_settle p c w' k r Hinv) as Hmono.
      destruct (settle p (c, w')) as [c' w'']. cbn [fst snd] in *.
      split; [done|]. intros k r Hin. by apply Hmono, Hlog.
Qed.
End ContainerFacts.

Section RecordedRuns.
Import LazyInitContainer.
Context {I W : Type}.

(** Along every schedule: no key is recorded twice, a recorded key has a
    promise, and the rest of a started factory leaves the record alone. *)
Lemma recorded_run_inv (evs : list (event I W)) (w : W) :
  let s := fst (run (recording_event <$> evs) (w, [])) in
  container_inv (fst s)
  ∧ NoDup (snd (snd s))
  ∧ (∀ k, k ∈ snd (snd s) → called_for (fst s) k)
  ∧ (∀ p k rest, promises (fst s) !! p = Some (Pending k rest) →
       ∀ w' calls, snd (snd (rest (w', calls))) = calls).
Proof.
  cbv zeta. unfold run. induction evs as [|ev evs IH] using rev_ind.
  - cbn. split; [apply new_inv|]. split; [constructor|]. split.
    + intros k H. by apply elem_of_nil in H.
    + intros p k rest H. by rewrite lookup_nil in H.
  - rewrite fmap_app, foldl_app.
    change (recording_event <$> [ev]) with [recording_event ev]. cbn [foldl].
    destruct (foldl step (new, (w, []), []) (recording_event <$> evs))
      as [[c [w0 calls]] log].
    cbn [fst snd] in IH. destruct IH as (Hinv & Hnd & Hcalled & Hrest).
    destruct ev as [key f|p]; cbn [recording_event step].
    + pose proof (get_inv key (recording key f) c (w0, calls) Hinv) as Hinv'.
      pose proof (fun k => called_for_get key (recording key f) c (w0, calls) k) as Hmono.
      destruct (get_cases key (recording key f) c (w0, calls))
        as [(i & _ & E)|[(q & _ & _ & E)|(Hi & Hn & E)]];
        rewrite E in *; cbn [fst snd] in *; [done..|].
      unfold recording in *. destruct (f w0) as [rest w1]. cbn [fst snd] in *.
      split; [done|]. split; [|split].
      * apply NoDup_app. split; [done|]. split; [|apply NoDup_singleton].
        intros k Hk ->%list_elem_of_singleton.
        destruct (Hcalled _ Hk) as (p & sp & Hp & Hkey).
        by apply (fresh_key_no_promise c key p sp Hinv Hi Hn Hp).
      * intros k [Hk| ->%list_elem_of_singleton]%elem_of_app.
        -- by apply Hmono, Hcalled.
        -- eexists (length (promises c)), _. split.
           ++ cbn [promises]. rewrite lookup_app_r by lia. by rewrite Nat.sub_diag.
           ++ done.
      * intros p k rest' Hp.
        apply lookup_snoc_Some in Hp as [Hp|[_ Hp]]; [by eapply Hrest|].
        injection Hp as -> ->. intros w' calls'. by destruct (rest w').
    + pose proof (settle_inv p c (w0, calls) Hinv) as Hinv'.
      pose proof (fun k => called_for_settle p c (w0, calls) k) as Hmono.
      destruct (settle_cases p c (w0, calls)) as [[_ E]|(k0 & rest & Hp & E)];
        rewrite E in *; cbn [fst snd] in *; [done|].
      rewrite (Hrest p k0 rest Hp w0 calls).
      split; [done|]. split; [done|]. split.
      * intros k Hk. by apply Hmono, Hcalled.
      * intros q k rest' Hq.
        apply list_lookup_insert_Some in Hq as [(_ & Hq & _)|[_ Hq]]; [done|].
        by eapply Hrest.
Qed.

(** The recorded run is the run: same container, same world, same
    results. *)
Lemma recorded_run_same (evs : list (event I W)) (w : W) :
  same_container (fst (fst (run evs w)))
                 (fst (fst (run (recording_event <$> evs) (w, []))))
  ∧ snd (fst (run evs w)) = fst (snd (fst (run (recording_event <$> evs) (w, []))))
  ∧ snd (run evs w) = snd (run (recording_event <$> evs) (w, [])).
Proof.
  unfold run. induction evs as [|ev evs IH] using rev_ind.
  - cbn. repeat split. constructor.
  - rewrite fmap_app, !foldl_app.
    change (recording_event <$> [ev]) with [recording_event ev]. cbn [foldl].
    destruct (foldl step (new, w, []) evs) as [[c w0] log].
    destruct (foldl step (new, (w, []), []) (recording_event <$> evs))
      as [[c' [w0' calls]] log'].
    cbn [fst snd] in IH. destruct IH as ((Hi & Hn & Hp) & <- & <-).
    destruct ev as [key f|p]; cbn [recording_event step].
    + unfold get. rewrite <- Hi, <- Hn.
      destruct (instances c !! key) as [i|]; [by repeat split|].
      destruct (initializing c !! key) as [q|]; [by repeat split|].
      unfold recording. destruct (f w0) as [rest w1]. cbn [fst snd].
      rewrite <- (Forall2_length _ _ _ Hp).
      split; [|done]. split; [done|]. split; [done|]. cbn [promises].
      apply Forall2_app; [done|]. constructor; [|constructor].
      split; [done|]. intros w' calls'. by destruct (rest w').
    + unfold settle.
      destruct (promises c !! p) as [sp|] eqn:E.
      * destruct (Forall2_lookup_l _ _ _ _ _ Hp E) as (sp' & E' & Hs).
        rewrite E'. destruct sp as [k rest|k o], sp' as [k' rest'|k' o'];
          cbn in Hs; try contradiction.
        -- destruct Hs as [<- Hs]. rewrite Hs.
           destruct (rest w0) as [[i|e] w1]; cbn [fst snd];
             rewrite <- ?Hi, <- ?Hn;
             (split; [|done]); (split; [done|]); (split; [done|]);
             by apply Forall2_insert.
        -- done.
      * assert (promises c' !! p = None) as ->.
        { apply lookup_ge_None. rewrite <- (Forall2_length _ _ _ Hp).
          by apply lookup_ge_None. }
        by repeat split.
Qed.
End RecordedRuns.

(** C9.  Along every schedule of calls of [get] and settlements: no
    factory is called twice for one key ([factory_calls] lists the calls;
    recording them does not change the run, [recorded_run_same]); any two
    results [get] returned
    for one key are the same promise, or await to the same outcome (a
    promise and the instance it resolved to, or twice the instance); and
    once [get] was called for a key, a further call of [get] for it leaves
    the container and the world as they are: the factory passed to it is
    not called. *)
Theorem container_single_flight {I W : Type}
    (evs : list (LazyInitContainer.event I W)) (w : W) :
  NoDup (LazyInitContainer.factory_calls evs w)
  ∧ (∀ key r1 r2,
       (key, r1) ∈ snd (LazyInitContainer.run evs w) →
       (key, r2) ∈ snd (LazyInitContainer.run evs w) →
       LazyInitContainer.awaited (fst (fst (LazyInitContainer.run evs w))) r1
       = LazyInitContainer.awaited (fst (fst (LazyInitContainer.run evs w))) r2
       ∧ ∀ p q, r1 = LazyInitContainer.Promise p →
                r2 = LazyInitContainer.Promise q → p = q)
  ∧ (∀ key r f w',
       (key, r) ∈ snd (LazyInitContainer.run evs w) →
       snd (LazyInitContainer.get key f (fst (fst (LazyInitContainer.run evs w)), w'))
       = (fst (fst (LazyInitContainer.run evs w)), w')).
Proof.
  split; [|split].
  - apply (recorded_run_inv evs w).
  - intros key r1 r2 H1 H2.
    destruct (run_inv evs w) as [Hinv Hlog].
    apply Hlog in H1, H2.
    set (c := fst (fst (LazyInitContainer.run evs w))) in *.
    destruct r1 as [i1|p1], r2 as [i2|p2]; cbn [returned_for] in H1, H2.
    + split; [|intros; discriminate]. cbn. congruence.
    + split; [|intros; discriminate].
      destruct H2 as (sp & Hp & Hk).
      destruct (inv_instances c Hinv key i1 H1) as (q & sq & Hq & Hkq & Hr).
      assert (p2 = q) as -> by (apply (inv_unique c Hinv _ _ sp sq); congruence).
      cbn. rewrite Hq. by destruct sq as [|? [|]]; simplify_eq/=.
    + split; [|intros; discriminate].
      destruct H1 as (sp & Hp & Hk).
      destruct (inv_instances c Hinv key i2 H2) as (q & sq & Hq & Hkq & Hr).
      assert (p1 = q) as -> by (apply (inv_unique c Hinv _ _ sp sq); congruence).
      cbn. rewrite Hq. by destruct sq as [|? [|]]; simplify_eq/=.
    + destruct H1 as (s1 & Hp1 & Hk1), H2 as (s2 & Hp2 & Hk2).
      assert (p1 = p2) as -> by (apply (inv_unique c Hinv _ _ s1 s2); congruence).
      split; [done|]. intros; congruence.
  - intros key r f w' Hin.
    destruct (run_inv evs w) as [Hinv Hlog]. apply Hlog in Hin.
    set (c := fst (fst (LazyInitContainer.run evs w))) in *.
    destruct (get_cases key f c w') as [(i & _ & ->)|[(p & _ & _ & ->)|(Hi & Hn & _)]];
      [done..|].
    exfalso. destruct r as [i|p]; cbn [returned_for] in Hin; [congruence|].
    destruct Hin as (sp & Hp & Hk).
    by apply (fresh_key_no_promise c key p sp Hinv Hi Hn Hp).
Qed.

(** Two calls of [get] while the construction is in flight, and one after
    it has completed: one factory call, one promise, one instance. *)
Example container_run :
  let f (i : nat) : LazyInitContainer.factory nat unit :=
    fun w => ((fun w => (Resolved i, w)), w) in
  let evs := [LazyInitContainer.Get "serverConfig" (f 1);
              LazyInitContainer.Get "serverConfig" (f 2);
              LazyInitContainer.Settle 0;
              LazyInitContainer.Get "serverConfig" (f 3)] in
  snd (LazyInitContainer.run evs tt)
  = [("serverConfig", LazyInitContainer.Promise 0);
     ("serverConfig", LazyInitContainer.Promise 0);
     ("serverConfig", LazyInitContainer.Instance 1)]
  ∧ LazyInitContainer.factory_calls evs tt = ["serverConfig"]
  ∧ LazyInitContainer.awaited (fst (fst (LazyInitContainer.run evs tt)))
      (LazyInitContainer.Promise 0) = Some (Resolved 1).
Proof. by vm_compute. Qed.

(** ** The stores the server constructs *)

Section ConstructionFacts.
Import CacheImpl.
Variable configured : gmap string value → string → backend.

(** A store keeps the arguments it was constructed with. *)
Lemma exec_args (o : Heap.op) (c : t) (b : backends) :
  env (fst (exec configured o (c, b))) = env c
  ∧ type (fst (exec configured o (c, b))) = type c
  ∧ storageMode (fst (exec configured o (c, b))) = storageMode c.
Proof.
  unfold exec. cbn [fst snd].
  destruct (backend_of configured c), o as [| ? ? s | ? s | | | | | |];
    cbn; try destruct (persistImmediately s); try case_decide; done.
Qed.

Lemma exec_backend_of (o : Heap.op) (c : t) (b : backends) :
  backend_of configured (fst (exec configured o (c, b))) = backend_of configured c.
Proof.
  destruct (exec_args o c b) as (He & Ht & Hs).
  unfold backend_of. by rewrite He, Ht, Hs.
Qed.

(** The object of the namespace [ns] and the puts for it are out of reach
    of a store on the relational backend, and of a store of another
    namespace. *)
Lemma exec_object_store (o : Heap.op) (c : t) (b : backends) (ns : string) :
  backend_of configured c = Relational ∨ ns ≠ type c →
  objects (snd (exec configured o (c, b))) !! ns = objects b !! ns
  ∧ filter (eq ns) (puts (snd (exec configured o (c, b)))) = filter (eq ns) (puts b).
Proof.
  intros H. unfold exec. cbn [fst snd].
  destruct (backend_of configured c) eqn:Hb.
  - destruct o as [| ? ? s | ? s | | | | | |]; cbn;
      try destruct (persistImmediately s); done.
  - destruct H as [H|H]; [done|].
    assert (∀ m, objects (put_object (type c) m b) !! ns = objects b !! ns
                 ∧ filter (eq ns) (puts (put_object (type c) m b))
                   = filter (eq ns) (puts b)) as Hput.
    { intros m. cbn. rewrite lookup_insert_ne by done. split; [done|].
      rewrite filter_app, filter_cons_False, filter_nil by done.
      by rewrite app_nil_r. }
    destruct o as [| ? ? s | ? s | | | | | |]; cbn [exec_object snd];
      try destruct (persistImmediately s); try case_decide;
      cbn [snd]; try apply Hput; done.
Qed.

Lemma exec_all_object_store (ops : list Heap.op) (c : t) (b : backends) (ns : string) :
  backend_of configured c = Relational ∨ ns ≠ type c →
  objects (snd (exec_all configured ops (c, b))) !! ns = objects b !! ns
  ∧ filter (eq ns) (puts (snd (exec_all configured ops (c, b)))) = filter (eq ns) (puts b).
Proof.
  revert c b. unfold exec_all.
  induction ops as [|o ops IH]; intros c b H; [done|].
  cbn [foldl].
  destruct (exec configured o (c, b)) as [c' b'] eqn:E.
  pose proof (exec_object_store o c b ns H) as [Ho Hp].
  pose proof (exec_backend_of o c b) as Hb.
  destruct (exec_args o c b) as (_ & Ht & _).
  rewrite E in Ho, Hp, Hb, Ht. cbn [fst snd] in *.
  destruct (IH c' b') as [Ho' Hp'].
  { destruct H as [H|H]; [left; congruence|right; congruence]. }
  split; congruence.
Qed.
End ConstructionFacts.

(** The stores in the container of a request: constructed before the JWT
    and OAuth2 factories run, so the same three whatever the environment
    holds. *)
Lemma middleware_stores (env : gmap string value) :
  Middleware.stores (fst (snd (Middleware.request env)))
  = [CacheImpl.new (Middleware.Db (env !! "DB")) env "server.config" (Some "database");
     CacheImpl.new (Middleware.Db (env !! "DB")) env "cache" None;
     CacheImpl.new (Middleware.Db (env !! "DB")) env "client.config" None].
Proof.
  unfold Middleware.request, Middleware.initContainerMiddleware.
  destruct (Middleware.set_and_truthy (env !! "JWT_SECRET"));
    destruct (Middleware.set_and_truthy (env !! "RIN_GITHUB_CLIENT_ID")
              && Middleware.set_and_truthy (env !! "RIN_GITHUB_CLIENT_SECRET"));
    by vm_compute.
Qed.

(** The middleware never waits for ever: every promise it awaits has
    settled. *)
Lemma middleware_completes (env : gmap string value) :
  fst (Middleware.request env) ≠ None.
Proof.
  unfold Middleware.request, Middleware.initContainerMiddleware.
  destruct (Middleware.set_and_truthy (env !! "JWT_SECRET"));
    destruct (Middleware.set_and_truthy (env !! "RIN_GITHUB_CLIENT_ID")
              && Middleware.set_and_truthy (env !! "RIN_GITHUB_CLIENT_SECRET"));
    by vm_compute.
Qed.

(** Without a JWT secret the middleware throws, after the stores were
    constructed. *)
Example request_without_secret :
  fst (Middleware.request ∅) = Some (Rejected (VStr "JWT_SECRET is not set"))
  ∧ length (Middleware.stores (fst (snd (Middleware.request ∅)))) = 3.
Proof. by vm_compute. Qed.

(** When the middleware completes, [serverConfig] of the context is the
    store constructed with the argument "database". *)
Lemma middleware_serverConfig (env : gmap string value) (c : Middleware.Variables) :
  fst (Middleware.request env) = Some (Resolved c) →
  Middleware.serverConfig c
  = Middleware.Cache
      (CacheImpl.new (Middleware.Db (env !! "DB")) env "server.config" (Some "database")).
Proof.
  unfold Middleware.request, Middleware.initContainerMiddleware.
  destruct (Middleware.set_and_truthy (env !! "JWT_SECRET"));
    destruct (Middleware.set_and_truthy (env !! "RIN_GITHUB_CLIENT_ID")
              && Middleware.set_and_truthy (env !! "RIN_GITHUB_CLIENT_SECRET"));
    vm_compute; intros H; by simplify_eq.
Qed.

(** C1.  Every store the request middleware or the scheduled job
    constructs for the namespace "server.config" is constructed with the
    backend argument "database", which binds it to the relational backend;
    and no call on any store they construct changes the object of
    "server.config" in the object store or adds a put for it. *)
Theorem server_config_is_relational
    (configured : gmap string value → string → CacheImpl.backend)
    (env : gmap string value) (c : CacheImpl.t) :
  c ∈ constructions env →
  (CacheImpl.type c = "server.config" →
     CacheImpl.storageMode c = Some "database"
     ∧ CacheImpl.backend_of configured c = CacheImpl.Relational)
  ∧ (∀ (ops : list Heap.op) (b : CacheImpl.backends),
       CacheImpl.objects (snd (CacheImpl.exec_all configured ops (c, b))) !! "server.config"
       = CacheImpl.objects b !! "server.config"
       ∧ filter (eq "server.config")
           (CacheImpl.puts (snd (CacheImpl.exec_all configured ops (c, b))))
         = filter (eq "server.config") (CacheImpl.puts b)).
Proof.
  intros Hc. unfold constructions in Hc. rewrite middleware_stores in Hc.
  unfold Scheduled.stores, Scheduled.scheduled in Hc. cbn in Hc.
  assert (CacheImpl.type c = "server.config" →
          CacheImpl.storageMode c = Some "database"
          ∧ CacheImpl.backend_of configured c = CacheImpl.Relational) as Hdb.
  { intros Ht. unfold CacheImpl.backend_of.
    repeat (apply elem_of_cons in Hc as [->|Hc]); try done.
    by apply elem_of_nil in Hc. }
  split; [done|]. intros ops b.
  apply exec_all_object_store.
  destruct (decide (CacheImpl.type c = "server.config")) as [Ht|Ht].
  - left. by apply Hdb.
  - right. congruence.
Qed.

Lemma server_config_is_relational_witness :
  CacheImpl.new (Middleware.Db None) ∅ "server.config" (Some "database")
    ∈ constructions ∅
  ∧ (CacheImpl.type
       (CacheImpl.new (Middleware.Db None) ∅ "server.config" (Some "database"))
     = "server.config" →
     CacheImpl.storageMode
       (CacheImpl.new (Middleware.Db None) ∅ "server.config" (Some "database"))
     = Some "database"
     ∧ CacheImpl.backend_of (fun _ _ => CacheImpl.Object)
         (CacheImpl.new (Middleware.Db None) ∅ "server.config" (Some "database"))
       = CacheImpl.Relational)
  ∧ (∀ (ops : list Heap.op) (b : CacheImpl.backends),
       CacheImpl.objects
         (snd (CacheImpl.exec_all (fun _ _ => CacheImpl.Object) ops
                 (CacheImpl.new (Middleware.Db None) ∅ "server.config" (Some "database"),
                  b))) !! "server.config"
       = CacheImpl.objects b !! "server.config"
       ∧ filter (eq "server.config")
           (CacheImpl.puts
              (snd (CacheImpl.exec_all (fun _ _ => CacheImpl.Object) ops
                      (CacheImpl.new (Middleware.Db None) ∅ "server.config"
                         (Some "database"), b))))
         = filter (eq "server.config") (CacheImpl.puts b)).
Proof.
  assert (CacheImpl.new (Middleware.Db None) ∅ "server.config" (Some "database")
            ∈ constructions ∅) as Hin.
  { vm_compute. apply list_elem_of_here. }
  split; [exact Hin|].
  exact (server_config_is_relational (fun _ _ => CacheImpl.Object) ∅ _ Hin).
Defined.

(** The default configuration may well be the object backend: a run in
    which the cache store writes its own object, and the server-config
    store writes a row. *)
Example stores_run :
  let configured : gmap string value → string → CacheImpl.backend :=
    fun _ _ => CacheImpl.Object in
  let b0 := {| CacheImpl.table := ∅; CacheImpl.objects := ∅; CacheImpl.puts := [] |} in
  let cache := CacheImpl.new (Middleware.Db None) ∅ "cache" None in
  let serverConfig :=
    CacheImpl.new (Middleware.Db None) ∅ "server.config" (Some "database") in
  let b1 := snd (CacheImpl.exec_all configured
                   [Heap.OpSet "feed_1" (VNum 1) None] (cache, b0)) in
  let b2 := snd (CacheImpl.exec_all configured
                   [Heap.OpSet "webhook_url" (VStr "u") (Some false); Heap.OpSave]
                   (serverConfig, b1)) in
  CacheImpl.puts b2 = ["cache"]
  ∧ CacheImpl.objects b2 !! "server.config" = None
  ∧ CacheImpl.table b2 !! ("webhook_url", "server.config") = Some (VStr "u").
Proof. by vm_compute. Qed.

(** ** Buffered writes *)

Section BufferingFacts.
Import CacheImpl.
Variable configured : gmap string value → string → backend.








End BufferingFacts.



(** * Further properties *)

(** ** TestCacheImpl: delete, set, deletePrefix, getOrSet *)

(** X1.  After [delete(key)], [get(key)] is null and every other key
    reads as before; deleting a key the store does not hold leaves the
    store as it was. *)
Theorem delete_frame (key : string) (save : option bool) (data : gmap string value) :
  let data' := snd (TestCacheImpl.delete key save data) in
  fst (TestCacheImpl.get key data') = VNull
  ∧ (∀ k, k ≠ key → fst (TestCacheImpl.get k data') = fst (TestCacheImpl.get k data))
  ∧ (data !! key = None → data' = data).
Proof.
  cbv zeta. unfold TestCacheImpl.delete, TestCacheImpl.get. cbn [fst snd].
  split; [by rewrite lookup_delete_eq|]. split.
  - intros k Hk. by rewrite lookup_delete_ne.
  - intros Hn. by apply delete_id.
Qed.

(** X2.  The last [set] of a key wins, [set]s of different keys can be
    swapped, and a [set] leaves what [get] returns for every other key. *)
Theorem set_last_write_wins (key : string) (v1 v2 : value) (s1 s2 : option bool)
    (data : gmap string value) :
  snd (TestCacheImpl.set key v2 s2 (snd (TestCacheImpl.set key v1 s1 data)))
  = snd (TestCacheImpl.set key v2 s2 data)
  ∧ (∀ k, k ≠ key →
       snd (TestCacheImpl.set k v2 s2 (snd (TestCacheImpl.set key v1 s1 data)))
       = snd (TestCacheImpl.set key v1 s1 (snd (TestCacheImpl.set k v2 s2 data)))
       ∧ fst (TestCacheImpl.get k (snd (TestCacheImpl.set key v1 s1 data)))
         = fst (TestCacheImpl.get k data)).
Proof.
  unfold TestCacheImpl.set, TestCacheImpl.get. cbn [fst snd].
  split; [apply insert_insert_eq|].
  intros k Hk. split.
  - by apply insert_insert_ne.
  - by rewrite lookup_insert_ne.
Qed.

Section PrefixFacts.
Implicit Types (s p q r : string).

Lemma prefix_spec p s : String.prefix p s = true ↔ ∃ r, s = p +:+ r.
Proof.
  revert s. induction p as [|c p IH]; intros s.
  - split; [intros _; by exists s|]. intros _. by destruct s.
  - destruct s as [|d s]; cbn.
    + split; [done|]. by intros [r Hr].
    + destruct (Ascii.ascii_dec c d) as [->|Hne].
      * rewrite IH. split.
        -- intros [r ->]. by exists r.
        -- intros [r Hr]. exists r. cbn in Hr. by injection Hr.
      * split; [done|]. intros [r Hr]. cbn in Hr. by injection Hr.
Qed.

Lemma startsWith_empty s : startsWith s "" = true.
Proof. apply prefix_spec. by exists s. Qed.

Lemma append_assoc p q r : (p +:+ q) +:+ r = p +:+ (q +:+ r).
Proof.
  induction p as [|c p IH]; [done|].
  change (String c ((p +:+ q) +:+ r) = String c (p +:+ (q +:+ r))).
  by rewrite IH.
Qed.

Lemma startsWith_trans s p q :
  startsWith s p = true → startsWith p q = true → startsWith s q = true.
Proof.
  unfold startsWith. rewrite !prefix_spec. intros [r ->] [r' ->].
  exists (r' +:+ r). apply append_assoc.
Qed.
End PrefixFacts.

(** X3.  [deletePrefix] with the empty prefix empties the store;
    repeating a [deletePrefix] changes nothing; two [deletePrefix] calls
    can be swapped; and after [deletePrefix(q)], a [deletePrefix(p)] with
    a prefix [p] that itself starts with [q] finds nothing left to
    delete. *)
Theorem deletePrefix_compose (p q : string) (data : gmap string value) :
  snd (TestCacheImpl.deletePrefix "" data) = ∅
  ∧ snd (TestCacheImpl.deletePrefix p (snd (TestCacheImpl.deletePrefix p data)))
    = snd (TestCacheImpl.deletePrefix p data)
  ∧ snd (TestCacheImpl.deletePrefix p (snd (TestCacheImpl.deletePrefix q data)))
    = snd (TestCacheImpl.deletePrefix q (snd (TestCacheImpl.deletePrefix p data)))
  ∧ (startsWith p q = true →
     snd (TestCacheImpl.deletePrefix p (snd (TestCacheImpl.deletePrefix q data)))
     = snd (TestCacheImpl.deletePrefix q data)).
Proof.
  split; [|split; [|split]].
  - apply map_eq. intros k.
    by rewrite deletePrefix_lookup, startsWith_empty, lookup_empty.
  - apply map_eq. intros k. rewrite !deletePrefix_lookup.
    by destruct (startsWith k p).
  - apply map_eq. intros k. rewrite !deletePrefix_lookup.
    by destruct (startsWith k p), (startsWith k q).
  - intros Hpq. apply map_eq. intros k. rewrite !deletePrefix_lookup.
    destruct (startsWith k p) eqn:Hp; [|done].
    by rewrite (startsWith_trans k p q Hp Hpq).
Qed.

(** X4.  Whatever the store held and whatever the factory does: when
    [getOrSet(key, f)] resolves with a value, [get(key)] afterwards
    returns that value, or null when the value is [undefined]; when it
    rejects, the store is as it was. *)
Theorem getOrSet_then_get {W : Type} (key : string) (f : TestCacheAny.factory W)
    (data : gmap string (option value)) (w : W) :
  match TestCacheAny.getOrSet key f (data, w) with
  | (Resolved v, (data', _)) => fst (TestCacheAny.get key data') = nullish v VNull
  | (Rejected _, (data', _)) => data' = data
  end.
Proof.
  unfold TestCacheAny.getOrSet. cbn [TestCacheAny.get fst snd].
  destruct (not_null (nullish (mjoin (data !! key)) VNull)) eqn:Hc.
  - cbn [fst]. by destruct (nullish (mjoin (data !! key)) VNull).
  - destruct (f w) as [[v|e] w']; [|done].
    cbn [TestCacheAny.set]. apply (any_get_set key v None).
Qed.

(** ** ConfigService: updating and reading back *)

Section ConfigUpdateFacts.
Import Heap ConfigService ConfigUpdate.

Lemma isAIConfigKey_startsWith (key : string) :
  isAIConfigKey key = startsWith key "ai_summary.".
Proof.
  unfold isAIConfigKey, includes. case_bool_decide as H; [|done].
  cbn [orb]. unfold AI_CONFIG_KEYS in H.
  repeat (apply elem_of_cons in H as [->|H]); try done.
  by apply elem_of_nil in H.
Qed.

Lemma substring_from_append (p r : string) :
  substring_from (String.length p) (p +:+ r) = r.
Proof. induction p as [|c p IH]; [by destruct r|]. exact IH. Qed.

(** On an AI key, [key.replace('ai_summary.', '')] is what follows the
    prefix. *)
Lemma replace_ai_prefix (n : string) :
  replace "ai_summary." "" ("ai_summary." +:+ n) = n.
Proof.
  assert (∀ p r s, replace p r s
            = if String.prefix p s
              then r +:+ substring_from (String.length p) s
              else match s with
                   | EmptyString => EmptyString
                   | String c s => String c (replace p r s)
                   end) as Hunfold by (by intros p r []).
  rewrite Hunfold.
  assert (String.prefix "ai_summary." ("ai_summary." +:+ n) = true) as ->
    by (apply prefix_spec; by exists n).
  by rewrite substring_from_append.
Qed.

Lemma isAIConfigKey_append (key : string) :
  isAIConfigKey key = true ↔ ∃ n, key = "ai_summary." +:+ n.
Proof. rewrite isAIConfigKey_startsWith. apply prefix_spec. Qed.

Lemma append_inj_r (p r r' : string) : p +:+ r = p +:+ r' → r = r'.
Proof.
  induction p as [|c p IH]; [done|].
  change (String c (p +:+ r) = String c (p +:+ r') → r = r').
  intros H. injection H as H. by apply IH.
Qed.

(** X5.  The list [AI_CONFIG_KEYS] adds nothing to the prefix test: a key
    is an AI key exactly when it starts with 'ai_summary.'.  For such a
    key, [key.replace('ai_summary.', '')] takes off exactly that prefix,
    so different AI keys of a body never land on the same nested key. *)
Theorem isAIConfigKey_is_prefix (key : string) :
  isAIConfigKey key = startsWith key "ai_summary."
  ∧ (isAIConfigKey key = true →
     "ai_summary." +:+ replace "ai_summary." "" key = key)
  ∧ (∀ key', isAIConfigKey key = true → isAIConfigKey key' = true →
       replace "ai_summary." "" key = replace "ai_summary." "" key' → key = key').
Proof.
  split; [apply isAIConfigKey_startsWith|]. split.
  - intros [n ->]%isAIConfigKey_append. by rewrite replace_ai_prefix.
  - intros key' [n ->]%isAIConfigKey_append [n' ->]%isAIConfigKey_append.
    rewrite !replace_ai_prefix. by intros ->.
Qed.





Lemma truthy_not_unset (v : value) : truthy v = true → unset (Some v) = false.
Proof. destruct v; cbn; try done. by destruct (String.eqb s ""). Qed.

(** The loop over [CLIENT_CONFIG_ENV_DEFAULTS] (over any such list) leaves
    a field that is set as it is. *)
Lemma defaults_keep_set (env : gmap string value) (l : list (string * string))
    (result : gmap string value) (k : string) :
  unset (result !! k) = false →
  foldl (fun (result : gmap string value) '(configKey, envKey) =>
           if unset (result !! configKey) then
             match env !! envKey with
             | Some envValue =>
                 if truthy envValue then <[configKey := envValue]> result
                 else result
             | None => result
             end
           else result) result l !! k = result !! k.
Proof.
  revert result. induction l as [|[ck ek] l IH]; intros result Hk; [done|].
  cbn [foldl].
  destruct (unset (result !! ck)) eqn:Hck; [|by apply IH].
  destruct (env !! ek) as [ev|]; [|by apply IH].
  destruct (truthy ev); [|by apply IH].
  assert (ck ≠ k) as Hne by (intros ->; congruence).
  rewrite IH; rewrite lookup_insert_ne by done; done.
Qed.

(** ... and fills a field that is unset from the environment. *)
Lemma defaults_fill_unset (env : gmap string value) (l : list (string * string))
    (result : gmap string value) (ck ek : string) (ev : value) :
  NoDup (fst <$> l) → (ck, ek) ∈ l →
  unset (result !! ck) = true → env !! ek = Some ev → truthy ev = true →
  foldl (fun (result : gmap string value) '(configKey, envKey) =>
           if unset (result !! configKey) then
             match env !! envKey with
             | Some envValue =>
                 if truthy envValue then <[configKey := envValue]> result
                 else result
             | None => result
             end
           else result) result l !! ck = Some ev.
Proof.
  revert result. induction l as [|[ck' ek'] l IH]; intros result Hnd Hin Hu He Ht.
  { by apply elem_of_nil in Hin. }
  cbn [fmap list_fmap fst] in Hnd. apply NoDup_cons in Hnd as [Hnotin Hnd].
  cbn [foldl].
  apply elem_of_cons in Hin as [Heq|Hin].
  - injection Heq as <- <-. rewrite Hu, He, Ht.
    rewrite defaults_keep_set; rewrite lookup_insert_eq; [done|].
    by apply truthy_not_unset.
  - assert (ck' ≠ ck) as Hne.
    { intros ->. apply Hnotin. apply list_elem_of_fmap. by exists (ck, ek). }
    destruct (unset (result !! ck')); [|by apply IH].
    destruct (env !! ek') as [ev'|]; [|by apply IH].
    destruct (truthy ev'); [|by apply IH].
    apply IH; try done. by rewrite lookup_insert_ne.
Qed.
End ConfigUpdateFacts.



(** Two POSTs, run.  In the first the key goes to [setAIConfig], not to
    the store.  In the second the body is
    [{"__proto__": {"ai_summary.api_key": "k"}}]: nothing is stored under
    '__proto__', the key is stored under 'ai_summary.api_key', and
    [setAIConfig] is not called. *)
Example POST_run :
  let c := {| ConfigService.cache := 1; ConfigService.serverConfig := 0;
              ConfigService.clientConfig := 2; ConfigService.admin := true;
              ConfigService.env := ∅ |} in
  let r := ConfigUpdate.POST "server" c
             {[ "webhook_url" := VStr "https://example.com/webhook";
                "ai_summary.api_key" := VStr "secret_key_123" ]} ∅ in
  let r' := ConfigUpdate.POST "server" c
              {[ "__proto__" := VObj [("ai_summary.api_key", VStr "k")] ]} ∅ in
  snd (fst r) = Some {| ConfigUpdate.own := {[ "api_key" := VStr "secret_key_123" ]};
                        ConfigUpdate.proto := None |}
  ∧ Heap.deref 0 (snd r) = {[ "webhook_url" := VStr "https://example.com/webhook" ]}
  ∧ snd (fst r') = None
  ∧ Heap.deref 0 (snd r') = {[ "ai_summary.api_key" := VStr "k" ]}.
Proof. by vm_compute. Qed.

Section ConfigReadFacts.
Import Heap ConfigService ConfigUpdate.

Lemma call_all_deref (r r' : ref) (h : gmap nat (gmap string value)) :
  deref r' (snd (call r TestCacheImpl.all h)) = deref r' h.
Proof.
  destruct (decide (r = r')) as [->|Hne].
  - by rewrite deref_call_same.
  - by rewrite deref_call_other.
Qed.

Lemma GET_client (c : Variables) (aiConfig : AIConfigForFrontend)
    (h : gmap nat (gmap string value)) :
  fst (GET "client" c aiConfig h)
  = json (<["ai_summary.enabled" := VBool (enabled aiConfig)]>
            (fst (getClientConfigWithDefaults (clientConfig c) (env c) h))) 200.
Proof.
  unfold GET. cbn [String.eqb Ascii.eqb Bool.eqb negb andb].
  by destruct (getClientConfigWithDefaults _ _ _).
Qed.

(** What [getClientConfigWithDefaults] returns, field by field. *)
Lemma client_config_set (clientConfig : ref) (env : gmap string value)
    (h : gmap nat (gmap string value)) (k : string) :
  unset (deref clientConfig h !! k) = false →
  fst (getClientConfigWithDefaults clientConfig env h) !! k = deref clientConfig h !! k.
Proof.
  intros Hk. unfold getClientConfigWithDefaults.
  destruct (call clientConfig TestCacheImpl.all h) as [all h'] eqn:E.
  assert (all = deref clientConfig h) as ->.
  { pose proof (fst_call clientConfig TestCacheImpl.all h) as H.
    rewrite E in H. exact H. }
  cbn [fst].
  pose proof (defaults_keep_set env CLIENT_CONFIG_ENV_DEFAULTS _ k Hk) as Hl.
  match goal with |- (if unset (?m !! _) then _ else _) !! _ = _ =>
    destruct (unset (m !! "site.page_size")) eqn:Hp; [|exact Hl] end.
  rewrite lookup_insert_ne; [exact Hl|].
  intros <-. rewrite Hl in Hp. congruence.
Qed.

Lemma client_config_default (clientConfig : ref) (env : gmap string value)
    (h : gmap nat (gmap string value)) (ck ek : string) (ev : value) :
  (ck, ek) ∈ CLIENT_CONFIG_ENV_DEFAULTS →
  unset (deref clientConfig h !! ck) = true →
  env !! ek = Some ev → truthy ev = true →
  fst (getClientConfigWithDefaults clientConfig env h) !! ck = Some ev.
Proof.
  intros Hin Hu He Ht. unfold getClientConfigWithDefaults.
  destruct (call clientConfig TestCacheImpl.all h) as [all h'] eqn:E.
  assert (all = deref clientConfig h) as ->.
  { pose proof (fst_call clientConfig TestCacheImpl.all h) as H.
    rewrite E in H. exact H. }
  cbn [fst].
  assert (NoDup (fst <$> CLIENT_CONFIG_ENV_DEFAULTS)) as Hnd
    by (cbn; repeat (constructor;
          [rewrite ?elem_of_cons, elem_of_nil; intuition discriminate|]);
        constructor).
  pose proof (defaults_fill_unset env CLIENT_CONFIG_ENV_DEFAULTS _ ck ek ev
                Hnd Hin Hu He Ht) as Hl.
  match goal with |- (if unset (?m !! _) then _ else _) !! _ = _ =>
    destruct (unset (m !! "site.page_size")) eqn:Hp; [|exact Hl] end.
  rewrite lookup_insert_ne; [exact Hl|].
  intros <-. rewrite Hl in Hp. by rewrite truthy_not_unset in Hp.
Qed.

Lemma client_config_page_size (clientConfig : ref) (env : gmap string value)
    (h : gmap nat (gmap string value)) :
  unset (fst (getClientConfigWithDefaults clientConfig env h) !! "site.page_size") = false.
Proof.
  unfold getClientConfigWithDefaults.
  destruct (call clientConfig TestCacheImpl.all h) as [all h'].
  cbn [fst].
  match goal with |- unset ((if unset (?m !! _) then _ else _) !! _) = _ =>
    destruct (unset (m !! "site.page_size")) eqn:Hp; [|exact Hp] end.
  by rewrite lookup_insert_eq.
Qed.
End ConfigReadFacts.

(** X7.  GET /client needs no admin.  Its answer always carries a page
    size that is set, and the flag 'ai_summary.enabled'; a stored field
    that is set (neither missing nor '') is returned as stored; and a
    field of [CLIENT_CONFIG_ENV_DEFAULTS] that is not set is taken from
    its environment variable when that is truthy. *)
Theorem GET_client_defaults (c : ConfigService.Variables)
    (aiConfig : ConfigService.AIConfigForFrontend) (h : gmap nat (gmap string value)) :
  ∃ body,
    fst (ConfigService.GET "client" c aiConfig h) = ConfigService.json body 200
    ∧ ConfigService.unset (body !! "site.page_size") = false
    ∧ body !! "ai_summary.enabled" = Some (VBool (ConfigService.enabled aiConfig))
    ∧ (∀ k, k ≠ "ai_summary.enabled" →
         ConfigService.unset (Heap.deref (ConfigService.clientConfig c) h !! k) = false →
         body !! k = Heap.deref (ConfigService.clientConfig c) h !! k)
    ∧ (∀ configKey envKey envValue,
         (configKey, envKey) ∈ ConfigService.CLIENT_CONFIG_ENV_DEFAULTS →
         ConfigService.unset (Heap.deref (ConfigService.clientConfig c) h !! configKey) = true →
         ConfigService.env c !! envKey = Some envValue → truthy envValue = true →
         body !! configKey = Some envValue).
Proof.
  eexists. split; [apply GET_client|].
  split; [|split; [|split]].
  - rewrite lookup_insert_ne by done. apply client_config_page_size.
  - by rewrite lookup_insert_eq.
  - intros k Hk Hs. rewrite lookup_insert_ne by done. by apply client_config_set.
  - intros ck ek ev Hin Hu He Ht.
    rewrite lookup_insert_ne; [by eapply client_config_default|].
    intros <-. unfold ConfigService.CLIENT_CONFIG_ENV_DEFAULTS in Hin.
    repeat (apply elem_of_cons in Hin as [Hin|Hin]; [done|]).
    by apply elem_of_nil in Hin.
Qed.

(** X8.  Both handlers test the type before the caller: a type other than
    'server' and 'client' is answered 400; GET /server and every POST
    without admin are answered 401; a rejected POST calls no [setAIConfig];
    and neither a rejected request nor any GET changes a store. *)
Theorem config_requests_guarded :
  (∀ type c aiConfig h, type ≠ "server" → type ≠ "client" →
     ConfigService.GET type c aiConfig h = (ConfigService.text "Invalid type" 400, h))
  ∧ (∀ type c body h, type ≠ "server" → type ≠ "client" →
       ConfigUpdate.POST type c body h = (ConfigService.text "Invalid type" 400, None, h))
  ∧ (∀ c aiConfig h, ConfigService.admin c = false →
       ConfigService.GET "server" c aiConfig h = (ConfigService.text "Unauthorized" 401, h))
  ∧ (∀ type c body h, ConfigService.admin c = false →
       type = "server" ∨ type = "client" →
       ConfigUpdate.POST type c body h = (ConfigService.text "Unauthorized" 401, None, h))
  ∧ (∀ type c aiConfig h r,
       Heap.deref r (snd (ConfigService.GET type c aiConfig h)) = Heap.deref r h).
Proof.
  assert (∀ type s, type ≠ s → String.eqb type s = false) as Hneq
    by (intros type s; apply String.eqb_neq).
  split; [|split; [|split; [|split]]].
  - intros type c ai h H1 H2. unfold ConfigService.GET.
    by rewrite (Hneq _ _ H1), (Hneq _ _ H2).
  - intros type c body h H1 H2. unfold ConfigUpdate.POST.
    by rewrite (Hneq _ _ H1), (Hneq _ _ H2).
  - intros c ai h Ha. by apply GET_server_not_admin.
  - intros type c body h Ha [-> | ->]; unfold ConfigUpdate.POST; by rewrite Ha.
  - intros type c ai h r. unfold ConfigService.GET.
    destruct (negb (String.eqb type "server") && negb (String.eqb type "client"));
      [done|].
    destruct (String.eqb type "server" && negb (ConfigService.admin c)); [done|].
    destruct (String.eqb type "server").
    + pose proof (call_all_deref (ConfigService.serverConfig c) r h) as H.
      by destruct (Heap.call (ConfigService.serverConfig c) TestCacheImpl.all h).
    + unfold ConfigService.getClientConfigWithDefaults.
      pose proof (call_all_deref (ConfigService.clientConfig c) r h) as H.
      by destruct (Heap.call (ConfigService.clientConfig c) TestCacheImpl.all h).
Qed.


(** ** LazyInitContainer: what is memoized stays *)

Section MemoFacts.
Import LazyInitContainer.
Context {I W : Type}.
Implicit Types (c : t I W) (w : W) (key k : string) (f : factory I W) (p q : nat).

Lemma run_app (evs evs' : list (event I W)) w :
  run (evs ++ evs') w = foldl step (run evs w) evs'.
Proof. unfold run. apply foldl_app. Qed.

(** A settled promise stays as it settled. *)
Lemma step_settled (s : t I W * W * list (string * returned I)) (ev : event I W)
    p k (o : outcome I) :
  promises (fst (fst s)) !! p = Some (Settled k o) →
  promises (fst (fst (step s ev))) !! p = Some (Settled k o).
Proof.
  destruct s as [[c w] log]. cbn [fst]. intros Hp.
  destruct ev as [key f|q]; cbn [step].
  - destruct (get_cases key f c w) as [(i & _ & ->)|[(q & _ & _ & ->)|(_ & _ & ->)]];
      cbn [fst snd promises]; [done..|].
    by apply lookup_app_l_Some.
  - destruct (settle_cases q c w) as [[_ ->]|(k0 & rest & Hq & ->)]; [done|].
    cbn [fst promises]. rewrite list_lookup_insert_ne; [done|].
    intros ->. congruence.
Qed.

(** An instance stays the instance of its key. *)
Lemma step_instance (s : t I W * W * list (string * returned I)) (ev : event I W)
    k (i : I) :
  container_inv (fst (fst s)) →
  instances (fst (fst s)) !! k = Some i →
  instances (fst (fst (step s ev))) !! k = Some i.
Proof.
  destruct s as [[c w] log]. cbn [fst]. intros Hinv Hi.
  destruct ev as [key f|q]; cbn [step].
  - pose proof (returned_for_get key f c w k (Instance i) Hi) as H.
    by destruct (get key f (c, w)) as [r [c' w']].
  - exact (returned_for_settle q c w k (Instance i) Hinv Hi).
Qed.

Lemma step_inv (s : t I W * W * list (string * returned I)) (ev : event I W) :
  container_inv (fst (fst s)) → container_inv (fst (fst (step s ev))).
Proof.
  destruct s as [[c w] log]. cbn [fst]. intros Hinv.
  destruct ev as [key f|q]; cbn [step].
  - pose proof (get_inv key f c w Hinv) as H.
    by destruct (get key f (c, w)) as [r [c' w']].
  - exact (settle_inv q c w Hinv).
Qed.

Lemma steps_keep (evs : list (event I W)) (s : t I W * W * list (string * returned I)) :
  container_inv (fst (fst s)) →
  container_inv (fst (fst (foldl step s evs)))
  ∧ (∀ p k o, promises (fst (fst s)) !! p = Some (Settled k o) →
       promises (fst (fst (foldl step s evs))) !! p = Some (Settled k o))
  ∧ (∀ k i, instances (fst (fst s)) !! k = Some i →
       instances (fst (fst (foldl step s evs))) !! k = Some i).
Proof.
  revert s. induction evs as [|ev evs IH]; intros s Hinv; [done|].
  cbn [foldl]. destruct (IH (step s ev) (step_inv s ev Hinv)) as (H1 & H2 & H3).
  split; [done|]. split.
  - intros p k o Hp. by apply H2, step_settled.
  - intros k i Hi. by apply H3, step_instance.
Qed.
End MemoFacts.

(** X11.  Once a construction has resolved, its instance is the instance
    of the key for the rest of the request: whatever calls and
    settlements follow, [get] returns that instance and runs no
    factory. *)
Theorem instance_is_kept {I W : Type} (evs evs' : list (LazyInitContainer.event I W))
    (w w' : W) (key : string) (i : I) (f : LazyInitContainer.factory I W) :
  LazyInitContainer.instances (fst (fst (LazyInitContainer.run evs w))) !! key = Some i →
  LazyInitContainer.get key f (fst (fst (LazyInitContainer.run (evs ++ evs') w)), w')
  = (LazyInitContainer.Instance i,
     (fst (fst (LazyInitContainer.run (evs ++ evs') w)), w')).
Proof.
  intros Hi. rewrite run_app.
  destruct (run_inv evs w) as [Hinv _].
  destruct (steps_keep evs' _ Hinv) as (_ & _ & H3).
  specialize (H3 key i Hi).
  unfold LazyInitContainer.get. by rewrite H3.
Qed.

Lemma instance_is_kept_witness :
  LazyInitContainer.instances
    (fst (fst (LazyInitContainer.run
                 [LazyInitContainer.Get "db" (fun w : unit => ((fun w => (Resolved 7, w)), w));
                  LazyInitContainer.Settle 0] tt))) !! "db" = Some 7
  ∧ LazyInitContainer.get "db" (fun w : unit => ((fun w => (Resolved 8, w)), w))
      (fst (fst (LazyInitContainer.run
                   ([LazyInitContainer.Get "db"
                       (fun w : unit => ((fun w => (Resolved 7, w)), w));
                     LazyInitContainer.Settle 0]
                    ++ [LazyInitContainer.Get "cache"
                          (fun w : unit => ((fun w => (Resolved 9, w)), w))]) tt)), tt)
    = (LazyInitContainer.Instance 7,
       (fst (fst (LazyInitContainer.run
                    ([LazyInitContainer.Get "db"
                        (fun w : unit => ((fun w => (Resolved 7, w)), w));
                      LazyInitContainer.Settle 0]
                     ++ [LazyInitContainer.Get "cache"
                           (fun w : unit => ((fun w => (Resolved 9, w)), w))]) tt)), tt)).
Proof.
  split; [reflexivity|].
  apply (instance_is_kept (I:=nat) (W:=unit)
           [LazyInitContainer.Get "db" (fun w : unit => ((fun w => (Resolved 7, w)), w));
            LazyInitContainer.Settle 0]); reflexivity.
Defined.

(** X12.  A failed construction is memoized as well: once the promise of
    a key has rejected, the key never gets an instance, and whatever
    follows, [get] returns that rejected promise and runs no factory (the
    construction is not tried again). *)
Theorem rejection_is_kept {I W : Type} (evs evs' : list (LazyInitContainer.event I W))
    (w w' : W) (key : string) (p : nat) (e : value)
    (f : LazyInitContainer.factory I W) :
  LazyInitContainer.promises (fst (fst (LazyInitContainer.run evs w))) !! p
  = Some (LazyInitContainer.Settled key (Rejected e)) →
  LazyInitContainer.get key f (fst (fst (LazyInitContainer.run (evs ++ evs') w)), w')
  = (LazyInitContainer.Promise p,
     (fst (fst (LazyInitContainer.run (evs ++ evs') w)), w'))
  ∧ LazyInitContainer.awaited (fst (fst (LazyInitContainer.run (evs ++ evs') w)))
      (LazyInitContainer.Promise p) = Some (Rejected e)
  ∧ LazyInitContainer.instances (fst (fst (LazyInitContainer.run (evs ++ evs') w))) !! key
    = None.
Proof.
  intros Hp. rewrite run_app.
  destruct (run_inv evs w) as [Hinv _].
  destruct (steps_keep evs' _ Hinv) as (Hinv' & H2 & _).
  specialize (H2 p key (Rejected e) Hp).
  set (c' := fst (fst (foldl LazyInitContainer.step (LazyInitContainer.run evs w) evs'))) in *.
  destruct (inv_unresolved c' Hinv' p _ H2 eq_refl) as [Hin Hi]. cbn in Hin, Hi.
  split; [|split; [|done]].
  - unfold LazyInitContainer.get. by rewrite Hi, Hin.
  - cbn. by rewrite H2.
Qed.

Lemma rejection_is_kept_witness :
  LazyInitContainer.promises
    (fst (fst (LazyInitContainer.run
          [LazyInitContainer.Get "jwt"
             (fun w : unit => ((fun w => (Rejected (A:=nat) (VStr "no secret"), w)), w));
           LazyInitContainer.Settle 0] tt))) !! 0
  = Some (LazyInitContainer.Settled "jwt" (Rejected (VStr "no secret")))
  ∧ LazyInitContainer.get "jwt" (fun w : unit => ((fun w => (Resolved 2, w)), w))
      ((fst (fst (LazyInitContainer.run
          ([LazyInitContainer.Get "jwt"
             (fun w : unit => ((fun w => (Rejected (A:=nat) (VStr "no secret"), w)), w));
           LazyInitContainer.Settle 0]
           ++ [LazyInitContainer.Get "jwt" (fun w : unit => ((fun w => (Resolved 1, w)), w));
           LazyInitContainer.Settle 0]) tt))), tt)
    = (LazyInitContainer.Promise 0,
       ((fst (fst (LazyInitContainer.run
          ([LazyInitContainer.Get "jwt"
             (fun w : unit => ((fun w => (Rejected (A:=nat) (VStr "no secret"), w)), w));
           LazyInitContainer.Settle 0]
           ++ [LazyInitContainer.Get "jwt" (fun w : unit => ((fun w => (Resolved 1, w)), w));
           LazyInitContainer.Settle 0]) tt))), tt))
  ∧ LazyInitContainer.awaited
      (fst (fst (LazyInitContainer.run
          ([LazyInitContainer.Get "jwt"
             (fun w : unit => ((fun w => (Rejected (A:=nat) (VStr "no secret"), w)), w));
           LazyInitContainer.Settle 0]
           ++ [LazyInitContainer.Get "jwt" (fun w : unit => ((fun w => (Resolved 1, w)), w));
           LazyInitContainer.Settle 0]) tt)))
      (LazyInitContainer.Promise 0) = Some (Rejected (VStr "no secret"))
  ∧ LazyInitContainer.instances
      (fst (fst (LazyInitContainer.run
          ([LazyInitContainer.Get "jwt"
             (fun w : unit => ((fun w => (Rejected (A:=nat) (VStr "no secret"), w)), w));
           LazyInitContainer.Settle 0]
           ++ [LazyInitContainer.Get "jwt" (fun w : unit => ((fun w => (Resolved 1, w)), w));
           LazyInitContainer.Settle 0]) tt))) !! "jwt"
    = None.
Proof.
  split; [reflexivity|].
  apply (rejection_is_kept (I:=nat) (W:=unit)
          [LazyInitContainer.Get "jwt"
             (fun w : unit => ((fun w => (Rejected (A:=nat) (VStr "no secret"), w)), w));
           LazyInitContainer.Settle 0]
          [LazyInitContainer.Get "jwt" (fun w : unit => ((fun w => (Resolved 1, w)), w));
           LazyInitContainer.Settle 0]
          tt tt "jwt" 0 (VStr "no secret")
          (fun w : unit => ((fun w => (Resolved 2, w)), w))).
  reflexivity.
Defined.

Section AwaitFacts.
Import LazyInitContainer.
Context {I W : Type}.
Implicit Types (c : t I W) (w : W) (key : string) (f : factory I W).

(** [await container.get(key, f)] by the only user of the container
    always completes, and leaves the outcome memoized. *)
Lemma await_get_spec key f c w :
  container_inv c →
  ∃ o, fst (await_get key f (c, w)) = Some o
       ∧ container_inv (fst (snd (await_get key f (c, w))))
       ∧ match o with
         | Resolved i => instances (fst (snd (await_get key f (c, w)))) !! key = Some i
         | Rejected e =>
             ∃ p, initializing (fst (snd (await_get key f (c, w)))) !! key = Some p
                  ∧ instances (fst (snd (await_get key f (c, w)))) !! key = None
                  ∧ promises (fst (snd (await_get key f (c, w)))) !! p
                    = Some (Settled key (Rejected e))
         end.
Proof.
  intros Hinv. unfold await_get.
  pose proof (get_inv key f c w Hinv) as Hinv1.
  pose proof (get_returned_for key f c w Hinv) as Hret.
  destruct (get key f (c, w)) as [r [c1 w1]]. cbn [fst snd] in Hinv1, Hret.
  destruct r as [i|p]; cbn [returned_for] in Hret.
  - exists (Resolved i). cbn [fst snd awaited]. split; [done|]. by split.
  - destruct Hret as (sp & Hp & Hk).
    destruct (settle_cases p c1 w1) as [[Hnp ->]|(k & rest & Hpend & ->)].
    + destruct sp as [k rest|k o]; [by destruct (Hnp k rest)|].
      cbn in Hk. subst k. exists o. cbn [fst snd awaited]. rewrite Hp.
      split; [done|]. split; [done|].
      destruct o as [i|e].
      * by destruct (inv_resolved c1 Hinv1 p _ i Hp eq_refl).
      * destruct (inv_unresolved c1 Hinv1 p _ Hp eq_refl) as [H1 H2].
        by exists p.
    + rewrite Hpend in Hp. injection Hp as <-. cbn in Hk. subst k.
      pose proof (settle_inv p c1 w1 Hinv1) as Hinv2.
      destruct (settle_cases p c1 w1) as [[Hnp _]|(k' & rest' & Hpend' & E)];
        [by destruct (Hnp key rest)|].
      rewrite Hpend in Hpend'. injection Hpend' as <- <-. rewrite E in Hinv2.
      cbn [fst snd] in *.
      destruct (inv_unresolved c1 Hinv1 p _ Hpend eq_refl) as [H1 H2]. cbn in H1, H2.
      assert (p < length (promises c1)) as Hlen by (by eapply lookup_lt_Some).
      exists (fst (rest w1)). cbn [awaited promises].
      rewrite list_lookup_insert_eq by done.
      split; [done|]. split; [done|].
      destruct (fst (rest w1)) as [i|e]; cbn [instances initializing promises].
      * by rewrite lookup_insert_eq.
      * exists p. by rewrite list_lookup_insert_eq.
Qed.
End AwaitFacts.

(** X13.  In any state the container can reach,
    [await container.get(key, f1)] completes, and a following
    [await container.get(key, f2)] gives the same outcome, without
    running [f2] and without changing the container: the first outcome,
    instance or error, is what every later caller gets. *)
Theorem await_get_memoized {I W : Type} (evs : list (LazyInitContainer.event I W))
    (w : W) (key : string) (f1 f2 : LazyInitContainer.factory I W) :
  let first := LazyInitContainer.await_get key f1 (fst (LazyInitContainer.run evs w)) in
  fst first ≠ None
  ∧ LazyInitContainer.await_get key f2 (snd first) = first.
Proof.
  cbv zeta. destruct (run_inv evs w) as [Hinv _].
  destruct (LazyInitContainer.run evs w) as [[c w0] log]. cbn [fst snd] in *.
  destruct (await_get_spec key f1 c w0 Hinv) as (o & Ho & Hinv' & Hm).
  destruct (LazyInitContainer.await_get key f1 (c, w0)) as [r [c' w']].
  cbn [fst snd] in *. subst r. split; [done|].
  unfold LazyInitContainer.await_get, LazyInitContainer.get.
  destruct o as [i|e].
  - by rewrite Hm.
  - destruct Hm as (p & Hin & Hi & Hp). rewrite Hi, Hin. cbn [fst snd].
    unfold LazyInitContainer.settle. rewrite Hp. cbn. by rewrite Hp.
Qed.

(** X14.  The context a request starts with.  The middleware throws
    exactly when JWT_SECRET is not set (or empty); otherwise the context
    holds the three stores with their namespaces, [oauth2] exactly when
    both GitHub settings are set, and [admin] is false. *)
Theorem middleware_context (env : gmap string value) :
  fst (Middleware.request env)
  = if Middleware.set_and_truthy (env !! "JWT_SECRET")
    then Some (Resolved
      {| Middleware.db := Middleware.Db (env !! "DB");
         Middleware.cache :=
           Middleware.Cache (CacheImpl.new (Middleware.Db (env !! "DB")) env "cache" None);
         Middleware.serverConfig :=
           Middleware.Cache (CacheImpl.new (Middleware.Db (env !! "DB")) env
                               "server.config" (Some "database"));
         Middleware.clientConfig :=
           Middleware.Cache (CacheImpl.new (Middleware.Db (env !! "DB")) env
                               "client.config" None);
         Middleware.jwt := Middleware.Jwt (default VNull (env !! "JWT_SECRET"));
         Middleware.oauth2 :=
           if Middleware.set_and_truthy (env !! "RIN_GITHUB_CLIENT_ID")
              && Middleware.set_and_truthy (env !! "RIN_GITHUB_CLIENT_SECRET")
           then Some (Middleware.OAuth2
                        (default VNull (env !! "RIN_GITHUB_CLIENT_ID"))
                        (default VNull (env !! "RIN_GITHUB_CLIENT_SECRET")))
           else None;
         Middleware.admin := false;
         Middleware.env := env |})
    else Some (Rejected (VStr "JWT_SECRET is not set")).
Proof.
  unfold Middleware.request, Middleware.initContainerMiddleware.
  destruct (Middleware.set_and_truthy (env !! "JWT_SECRET"));
    destruct (Middleware.set_and_truthy (env !! "RIN_GITHUB_CLIENT_ID")
              && Middleware.set_and_truthy (env !! "RIN_GITHUB_CLIENT_SECRET"));
    by vm_compute.
Qed.

(** ** authMiddleware *)

Section AuthFacts.
Import Auth.

Lemma findFirst_Some (users : list user) (pid : Z) (u : user) :
  findFirst users pid = Some u → u ∈ users ∧ id u = pid.
Proof.
  unfold findFirst. destruct (list_find _ users) as [[i u']|] eqn:E; [|done].
  intros [= ->]. apply list_find_Some in E as (Hi & Hid & _).
  split; [by eapply list_elem_of_lookup_2|done].
Qed.

Lemma token_of_bearer (t : string) (cookie : option string) :
  token_of (Some ("Bearer " +:+ t)) cookie = Some t.
Proof.
  unfold token_of.
  assert (startsWith ("Bearer " +:+ t) "Bearer " = true) as ->
    by (apply prefix_spec; by exists t).
  change (String.eqb ("Bearer " +:+ t) "") with false. cbn [negb andb].
  done.
Qed.
End AuthFacts.

(** X15.  On a context that starts with [admin] false (as
    [initContainerMiddleware] leaves it), [authMiddleware] sets [admin]
    exactly when there is a non-empty token that [jwt.verify] accepts and
    the first user with the id of its profile has permission 1; [uid] is
    then the id of that user, who is a row of the table. *)
Theorem admin_only_by_permission (jwt : option (string → option Z))
    (users : list Auth.user) (authHeader cookie : option string) (c : Auth.vars) :
  Auth.admin c = false →
  (Auth.admin (Auth.authMiddleware jwt users authHeader cookie c) = true
   ↔ ∃ verify token user,
       jwt = Some verify
       ∧ Auth.token_of authHeader cookie = Some token ∧ token ≠ ""
       ∧ verify token = Some (Auth.id user)
       ∧ Auth.findFirst users (Auth.id user) = Some user
       ∧ user ∈ users
       ∧ Auth.permission user = 1%Z
       ∧ Auth.uid (Auth.authMiddleware jwt users authHeader cookie c)
         = Some (Auth.id user)).
Proof.
  intros Hc. unfold Auth.authMiddleware. split.
  - destruct (Auth.token_of authHeader cookie) as [token|]; [|congruence].
    destruct jwt as [verify|]; [|congruence].
    destruct (String.eqb token "") eqn:Et; [congruence|].
    destruct (verify token) as [pid|] eqn:Ev; [|congruence].
    destruct (Auth.findFirst users pid) as [u|] eqn:Ef; [|congruence].
    cbn. intros Hp%Z.eqb_eq.
    destruct (findFirst_Some users pid u Ef) as [Hin <-].
    exists verify, token, u. apply String.eqb_neq in Et. by repeat split.
  - intros (verify & token & u & -> & -> & Ht & Hv & Hf & _ & Hp & _).
    apply String.eqb_neq in Ht. rewrite Ht, Hv, Hf. cbn. by apply Z.eqb_eq.
Qed.

Lemma admin_only_by_permission_witness :
  Auth.admin {| Auth.uid := None; Auth.name := None; Auth.admin := false |} = false
  ∧ (Auth.admin
       (Auth.authMiddleware (Some (fun token => if String.eqb token "t1" then Some 1%Z else None))
          [{| Auth.id := 1; Auth.username := "testuser"; Auth.permission := 1 |}]
          (Some "Bearer t1") None
          {| Auth.uid := None; Auth.name := None; Auth.admin := false |}) = true
     ↔ ∃ verify token user,
         Some (fun token => if String.eqb token "t1" then Some 1%Z else None) = Some verify
         ∧ Auth.token_of (Some "Bearer t1") None = Some token ∧ token ≠ ""
         ∧ verify token = Some (Auth.id user)
         ∧ Auth.findFirst
             [{| Auth.id := 1; Auth.username := "testuser"; Auth.permission := 1 |}]
             (Auth.id user) = Some user
         ∧ user ∈ [{| Auth.id := 1; Auth.username := "testuser"; Auth.permission := 1 |}]
         ∧ Auth.permission user = 1%Z
         ∧ Auth.uid
             (Auth.authMiddleware
                (Some (fun token => if String.eqb token "t1" then Some 1%Z else None))
                [{| Auth.id := 1; Auth.username := "testuser"; Auth.permission := 1 |}]
                (Some "Bearer t1") None
                {| Auth.uid := None; Auth.name := None; Auth.admin := false |})
           = Some (Auth.id user)).
Proof.
  split; [reflexivity|].
  apply (admin_only_by_permission
           (Some (fun token => if String.eqb token "t1" then Some 1%Z else None))
           [{| Auth.id := 1; Auth.username := "testuser"; Auth.permission := 1 |}]
           (Some "Bearer t1") None
           {| Auth.uid := None; Auth.name := None; Auth.admin := false |}).
  reflexivity.
Defined.

(** The request of the witness authenticates. *)
Example auth_run :
  Auth.authMiddleware (Some (fun token => if String.eqb token "t1" then Some 1%Z else None))
    [{| Auth.id := 1; Auth.username := "testuser"; Auth.permission := 1 |}]
    (Some "Bearer t1") None
    {| Auth.uid := None; Auth.name := None; Auth.admin := false |}
  = {| Auth.uid := Some 1%Z; Auth.name := Some "testuser"; Auth.admin := true |}.
Proof. reflexivity. Qed.

(** X16.  The Authorization header goes before the cookie: with a header
    that starts with 'Bearer ', the token is what follows and the cookie
    is not looked at, so a token that is not accepted leaves the request
    anonymous even when the cookie holds a valid token.  A header that
    does not start with 'Bearer ' and a missing header leave the token to
    the cookie; so does the header 'Bearer' alone, which is how a header
    without a token arrives (a header value has no trailing space). *)
Theorem bearer_header_shadows_cookie (jwt : option (string → option Z))
    (users : list Auth.user) (c : Auth.vars) :
  (∀ t cookie, Auth.token_of (Some ("Bearer " +:+ t)) cookie = Some t)
  ∧ (∀ t cookie cookie',
       Auth.authMiddleware jwt users (Some ("Bearer " +:+ t)) cookie c
       = Auth.authMiddleware jwt users (Some ("Bearer " +:+ t)) cookie' c)
  ∧ (∀ t cookie verify, jwt = Some verify → verify t = None →
       Auth.authMiddleware jwt users (Some ("Bearer " +:+ t)) cookie c = c)
  ∧ (∀ header cookie, startsWith header "Bearer " = false →
       Auth.token_of (Some header) cookie = cookie)
  ∧ (∀ cookie,
       Auth.authMiddleware jwt users (Some "Bearer") cookie c
       = Auth.authMiddleware jwt users None cookie c)
  ∧ (∀ cookie, Auth.token_of None cookie = cookie).
Proof.
  split; [apply token_of_bearer|]. split; [|split; [|split; [|split]]].
  - intros t cookie cookie'. unfold Auth.authMiddleware.
    by rewrite !token_of_bearer.
  - intros t cookie verify -> Hv. unfold Auth.authMiddleware.
    rewrite token_of_bearer, Hv. by destruct (String.eqb t "").
  - intros header cookie Hs. unfold Auth.token_of. rewrite Hs.
    by rewrite andb_false_r.
  - done.
  - done.
Qed.

(** ** Page and limit *)

Section PagingFacts.
Variable parseInt : string → Http.number.

Lemma page_num_nonneg page : (0 ≤ Http.page_num parseInt page)%Z.
Proof.
  unfold Http.page_num. destruct (Http.given page) as [s|]; [|lia].
  destruct (parseInt s) as [n|]; [|lia].
  destruct (0 <? n)%Z eqn:E; [|lia]. apply Z.ltb_lt in E. lia.
Qed.

Lemma limit_num_le limit n : Http.limit_num parseInt limit = Some n → (n ≤ 50)%Z.
Proof.
  unfold Http.limit_num. destruct (Http.given limit) as [s|]; [|intros [= <-]; lia].
  destruct (parseInt s) as [m|]; [|done].
  destruct (50 <? m)%Z eqn:E; intros [= <-]; [lia|].
  apply Z.ltb_ge in E. lia.
Qed.

End PagingFacts.

(** ** The moments list and its invalidation *)

Section MomentsFacts.
Variable parseInt : string → Http.number.
Variable String_of_number : Http.number → string.

Lemma cacheKey_startsWith page limit :
  startsWith (Moments.cacheKey parseInt String_of_number page limit) "moments_" = true.
Proof. apply prefix_spec. by eexists. Qed.

(** On a miss with a table that has rows, the handler answers with the
    page it stores under the key of the request. *)
Lemma GET_miss page limit db data :
  truthy (fst (TestCacheImpl.get (Moments.cacheKey parseInt String_of_number page limit) data)) = false →
  Moments.count db ≠ 0%Z →
  ∃ rows hasNext,
    Moments.GET parseInt String_of_number page limit db data
    = (Http.json (Http.page_of (Moments.count db) rows hasNext) 200,
       <[Moments.cacheKey parseInt String_of_number page limit
         := Http.page_of (Moments.count db) rows hasNext]> data).
Proof.
  intros Hmiss Hcount. unfold Moments.GET.
  cbn [TestCacheImpl.get fst] in *. rewrite Hmiss.
  apply Z.eqb_neq in Hcount. rewrite Hcount.
  destruct (Http.eq _ _); by eexists _, _.
Qed.

Lemma GET_hit page limit db data :
  truthy (fst (TestCacheImpl.get (Moments.cacheKey parseInt String_of_number page limit) data)) = true →
  Moments.GET parseInt String_of_number page limit db data
  = (Http.json (fst (TestCacheImpl.get (Moments.cacheKey parseInt String_of_number page limit) data)) 200,
     data).
Proof.
  intros Hhit. unfold Moments.GET. cbn [TestCacheImpl.get fst] in *. by rewrite Hhit.
Qed.

(** The answer depends on the store only through the entry of the
    request's key. *)
Lemma GET_response_get page limit db data data' :
  fst (TestCacheImpl.get (Moments.cacheKey parseInt String_of_number page limit) data)
  = fst (TestCacheImpl.get (Moments.cacheKey parseInt String_of_number page limit) data') →
  fst (Moments.GET parseInt String_of_number page limit db data)
  = fst (Moments.GET parseInt String_of_number page limit db data').
Proof.
  unfold Moments.GET. cbn [TestCacheImpl.get fst]. intros ->.
  destruct (truthy _); [done|].
  destruct (Z.eqb _ _); [done|].
  by destruct (Http.eq _ _).
Qed.

Lemma removelast_take {A} (l : list A) : removelast l = take (length l - 1) l.
Proof.
  induction l as [|a [|b l] IH]; [done..|].
  change (removelast (a :: b :: l)) with (a :: removelast (b :: l)).
  rewrite IH. cbn. by rewrite Nat.sub_0_r.
Qed.
End MomentsFacts.

(** X17.  A list request that misses the cache, with a table that has
    rows, stores its page: the same request repeated on that store gets
    the same answer whatever the database has become, and leaves the
    store as it is. *)
Theorem moments_list_is_cached (parseInt : string → Http.number)
    (String_of_number : Http.number → string)
    (page limit : option string) (db db' : Moments.DB) (data : gmap string value) :
  truthy (fst (TestCacheImpl.get (Moments.cacheKey parseInt String_of_number page limit) data)) = false →
  Moments.count db ≠ 0%Z →
  Moments.GET parseInt String_of_number page limit db'
    (snd (Moments.GET parseInt String_of_number page limit db data))
  = Moments.GET parseInt String_of_number page limit db data.
Proof.
  intros Hmiss Hcount.
  destruct (GET_miss parseInt String_of_number page limit db data Hmiss Hcount)
    as (rows & hasNext & ->).
  cbn [snd]. rewrite GET_hit.
  - cbn [TestCacheImpl.get fst]. by rewrite lookup_insert_eq.
  - cbn [TestCacheImpl.get fst]. by rewrite lookup_insert_eq.
Qed.

Lemma moments_list_is_cached_witness :
  truthy (fst (TestCacheImpl.get
                 (Moments.cacheKey (fun _ : string => Some 2%Z)
                    (fun n : Http.number => if n is Some 1%Z then "1" else "2")
                    (Some "2") (Some "2")) ∅)) = false
  ∧ Moments.count {| Moments.count := 1; Moments.findMany := fun _ _ => [VStr "first"] |} ≠ 0%Z
  ∧ Moments.GET (fun _ : string => Some 2%Z)
      (fun n : Http.number => if n is Some 1%Z then "1" else "2")
      (Some "2") (Some "2")
      {| Moments.count := 0; Moments.findMany := fun _ _ => [] |}
      (snd (Moments.GET (fun _ : string => Some 2%Z)
              (fun n : Http.number => if n is Some 1%Z then "1" else "2")
              (Some "2") (Some "2")
              {| Moments.count := 1; Moments.findMany := fun _ _ => [VStr "first"] |} ∅))
    = Moments.GET (fun _ : string => Some 2%Z)
        (fun n : Http.number => if n is Some 1%Z then "1" else "2")
        (Some "2") (Some "2")
        {| Moments.count := 1; Moments.findMany := fun _ _ => [VStr "first"] |} ∅.
Proof.
  split; [reflexivity|]. split; [discriminate|].
  apply (moments_list_is_cached (fun _ : string => Some 2%Z)
           (fun n : Http.number => if n is Some 1%Z then "1" else "2")); [reflexivity|discriminate].
Defined.

(** X18.  A create request that passes the guards (a user, an admin,
    a content) reaches the insert and drops every cached page: any list
    request that follows is answered as on an empty store, and the
    entries outside the [moments_] namespace are kept. *)
Theorem moments_create_invalidates (parseInt : string → Http.number)
    (String_of_number : Http.number → string)
    (uid : option Z) (admin : bool) (content : option value) (result : list value)
    (data : gmap string value) :
  Http.no_uid uid = false → admin = true → Http.no_field content = false →
  snd (fst (Moments.POST uid admin content result data)) = true
  ∧ (∀ page limit db,
       fst (Moments.GET parseInt String_of_number page limit db
              (snd (Moments.POST uid admin content result data)))
       = fst (Moments.GET parseInt String_of_number page limit db ∅))
  ∧ (∀ key, startsWith key "moments_" = false →
       snd (Moments.POST uid admin content result data) !! key = data !! key).
Proof.
  intros Huid -> Hcontent. unfold Moments.POST. rewrite Huid, Hcontent.
  cbn [negb]. destruct (TestCacheImpl.deletePrefix "moments_" data) as [u data'] eqn:E.
  assert (data' = snd (TestCacheImpl.deletePrefix "moments_" data)) as -> by by rewrite E.
  cbn [fst snd]. split; [done|]. split.
  - intros page limit db. apply GET_response_get.
    cbn [TestCacheImpl.get fst].
    by rewrite deletePrefix_lookup, cacheKey_startsWith, lookup_empty.
  - intros key Hkey. by rewrite deletePrefix_lookup, Hkey.
Qed.

Lemma moments_create_invalidates_witness :
  Http.no_uid (Some 1%Z) = false ∧ true = true
  ∧ Http.no_field (Some (VStr "hello")) = false
  ∧ snd (fst (Moments.POST (Some 1%Z) true (Some (VStr "hello")) [VNum 7]
               {[ "moments_0_20" := VArr [] ]})) = true
  ∧ (∀ page limit db,
       fst (Moments.GET (fun _ => None) (fun _ => "0") page limit db
              (snd (Moments.POST (Some 1%Z) true (Some (VStr "hello")) [VNum 7]
                      {[ "moments_0_20" := VArr [] ]})))
       = fst (Moments.GET (fun _ => None) (fun _ => "0") page limit db ∅))
  ∧ (∀ key, startsWith key "moments_" = false →
       snd (Moments.POST (Some 1%Z) true (Some (VStr "hello")) [VNum 7]
              {[ "moments_0_20" := VArr [] ]}) !! key
       = ({[ "moments_0_20" := VArr [] ]} : gmap string value) !! key).
Proof.
  split; [reflexivity|]. split; [reflexivity|]. split; [reflexivity|].
  apply (moments_create_invalidates (fun _ => None) (fun _ => "0")); reflexivity.
Defined.

(** X19.  The body of a create request is read before the guards: when
    it is no JSON text, or is null, the handler throws, whoever sent the
    request.  With any other body, a request without a user, from a user
    who is not an admin, or without a content is answered with 401, 403
    or 400 in that order of precedence.  In none of these cases the
    insert is reached or the store changed. *)
Theorem moments_create_guarded (uid : option Z) (admin : bool) (body : option value)
    (result : list value) (data : gmap string value) :
  match body with
  | None | Some VNull =>
      ∃ e, Moments.POST_request uid admin body result data = (Rejected e, false, data)
  | Some json =>
      Http.no_uid uid = true ∨ admin = false
      ∨ Http.no_field (ConfigUpdate.properties json !! "content") = true →
      Moments.POST_request uid admin body result data
      = (Resolved (if Http.no_uid uid then Http.text "Unauthorized" 401
                   else if negb admin then Http.text "Permission denied" 403
                   else Http.text "Content is required" 400), false, data)
  end.
Proof.
  assert (∀ content,
            Http.no_uid uid = true ∨ admin = false ∨ Http.no_field content = true →
            Moments.POST uid admin content result data
            = (if Http.no_uid uid then Http.text "Unauthorized" 401
               else if negb admin then Http.text "Permission denied" 403
               else Http.text "Content is required" 400, false, data)) as Hguards.
  { intros content. unfold Moments.POST. intros [H|[H|H]].
    - by rewrite H.
    - rewrite H. by destruct (Http.no_uid uid).
    - rewrite H. by destruct (Http.no_uid uid), admin. }
  destruct body as [json|]; [|by eexists].
  destruct json; try (by eexists);
    intros H; unfold Moments.POST_request; by rewrite (Hguards _ H).
Qed.

(** Two create requests, run: an anonymous request with the body
    [{"content": "hello"}] is answered 401, and one with the body [null]
    throws although it is an admin's. *)
Example moments_create_run :
  Moments.POST_request None false (Some (VObj [("content", VStr "hello")])) [] ∅
  = (Resolved (Http.text "Unauthorized" 401), false, ∅)
  ∧ Moments.POST_request (Some 1%Z) true (Some VNull) [] ∅
    = (Rejected (VStr "TypeError"), false, ∅).
Proof. by vm_compute. Qed.

(** X20.  For a page number below 2^47 and a limit that parses to a
    number [n] that is not negative: [n] is at most 50 and the offset
    [page_num * n] is below 2^53, so that the numbers of the handler are
    integers a double holds exactly.  With a database that returns at
    most [limit] rows, a request that misses the cache on a table with
    rows answers with the first [n] of the [n + 1] rows it asked for
    from that offset, and sets [hasNext] exactly when the database
    returned all [n + 1]. *)
Theorem moments_page_bounded (parseInt : string → Http.number)
    (String_of_number : Http.number → string)
    (page limit : option string) (db : Moments.DB) (data : gmap string value) (n : Z) :
  truthy (fst (TestCacheImpl.get (Moments.cacheKey parseInt String_of_number page limit) data)) = false →
  Moments.count db ≠ 0%Z →
  (Http.page_num parseInt page < 2 ^ 47)%Z →
  Http.limit_num parseInt limit = Some n → (0 ≤ n)%Z →
  (∀ offset l, (0 ≤ l)%Z →
     (Z.of_nat (length (Moments.findMany db offset (Some l))) ≤ l)%Z) →
  let asked := Moments.findMany db
                 (Some (Http.page_num parseInt page * n)%Z) (Some (n + 1)%Z) in
  (n ≤ 50)%Z
  ∧ (0 ≤ Http.page_num parseInt page * n < 2 ^ 53)%Z
  ∧ (Z.of_nat (length (take (Z.to_nat n) asked)) ≤ n)%Z
  ∧ fst (Moments.GET parseInt String_of_number page limit db data)
    = Http.json (Http.page_of (Moments.count db) (take (Z.to_nat n) asked)
                   (bool_decide (Z.of_nat (length asked) = (n + 1)%Z))) 200.
Proof.
  intros Hmiss Hcount Hpage Hlimit Hn Hdb asked.
  pose proof (limit_num_le parseInt limit n Hlimit) as Hle.
  pose proof (page_num_nonneg parseInt page) as Hp.
  split; [done|]. split; [|split].
  - change (2 ^ 53)%Z with (2 ^ 47 * 64)%Z. nia.
  - rewrite length_take. lia.
  - unfold Moments.GET. cbn [TestCacheImpl.get fst] in *. rewrite Hmiss.
    apply Z.eqb_neq in Hcount. rewrite Hcount, Hlimit.
    cbn [Http.mul Http.add Http.eq]. fold asked.
    pose proof (Hdb (Some (Http.page_num parseInt page * n)%Z) (n + 1)%Z ltac:(lia)) as Hlen.
    fold asked in Hlen.
    destruct (Z.eqb_spec (Z.of_nat (length asked)) (n + 1)) as [E|E]; cbn [fst].
    + rewrite bool_decide_eq_true_2 by done.
      rewrite removelast_take.
      by replace (length asked - 1) with (Z.to_nat n) by lia.
    + rewrite bool_decide_eq_false_2 by done.
      rewrite take_ge by lia. done.
Qed.

Lemma moments_page_bounded_witness :
  truthy (fst (TestCacheImpl.get
                 (Moments.cacheKey (fun _ : string => Some 2%Z) (fun _ : Http.number => "2")
                    None (Some "2")) ∅)) = false
  ∧ (Http.page_num (fun _ : string => Some 2%Z) None < 2 ^ 47)%Z
  ∧ Http.limit_num (fun _ : string => Some 2%Z) (Some "2") = Some 2%Z ∧ (0 ≤ 2)%Z
  ∧ fst (Moments.GET (fun _ : string => Some 2%Z) (fun _ : Http.number => "2") None (Some "2")
      {| Moments.count := 3;
         Moments.findMany := fun _ l =>
           if l is Some l then take (Z.to_nat l) [VStr "c"; VStr "b"; VStr "a"]
           else [VStr "c"; VStr "b"; VStr "a"] |} ∅)
    = Http.json (Http.page_of 3 [VStr "c"; VStr "b"] true) 200.
Proof.
  split; [reflexivity|]. split; [reflexivity|]. split; [reflexivity|]. split; [lia|].
  refine (proj2 (proj2 (proj2 (moments_page_bounded (fun _ : string => Some 2%Z)
     (fun _ : Http.number => "2")
     None (Some "2")
     {| Moments.count := 3;
         Moments.findMany := fun _ l =>
           if l is Some l then take (Z.to_nat l) [VStr "c"; VStr "b"; VStr "a"]
           else [VStr "c"; VStr "b"; VStr "a"] |} ∅ 2 _ _ _ _ _ _))));
    [reflexivity|discriminate|reflexivity|reflexivity|lia|].
  intros offset l Hl. cbn [Moments.findMany]. rewrite length_take. lia.
Defined.

(** ** Invalidation of the feed entries *)

Section FeedFacts.
Variable String_of_number : Z → string.

Lemma delete_lookup key save (data : gmap string value) k :
  snd (TestCacheImpl.delete key save data) !! k
  = if String.eqb k key then None else data !! k.
Proof.
  cbn. destruct (String.eqb_spec k key) as [->|Hne].
  - apply lookup_delete_eq.
  - by apply lookup_delete_ne.
Qed.

Lemma delete_alias_lookup alias (data : gmap string value) k :
  snd (Feed.delete_alias alias data) !! k
  = if match Http.given alias with
       | Some alias => String.eqb k ("feed_" +:+ alias)
       | None => false
       end
    then None else data !! k.
Proof.
  unfold Feed.delete_alias. destruct (Http.given alias); [|done].
  apply delete_lookup.
Qed.

(** The keys [clearFeedCache] removes. *)
Lemma clearFeedCache_lookup id alias newAlias (data : gmap string value) k :
  snd (Feed.clearFeedCache String_of_number id alias newAlias data) !! k
  = if startsWith k "feeds_" || startsWith k "search_"
       || String.eqb k ("feed_" +:+ String_of_number id)
       || startsWith k (String_of_number id +:+ "_previous_feed")
       || startsWith k (String_of_number id +:+ "_next_feed")
       || negb (bool_decide (alias = newAlias))
          && (match Http.given alias with
              | Some alias => String.eqb k ("feed_" +:+ alias)
              | None => false
              end
              || match Http.given newAlias with
                 | Some alias => String.eqb k ("feed_" +:+ alias)
                 | None => false
                 end)
    then None else data !! k.
Proof.
  unfold Feed.clearFeedCache.
  destruct (TestCacheImpl.deletePrefix "feeds_" data) as [u1 d1] eqn:E1.
  destruct (TestCacheImpl.deletePrefix "search_" d1) as [u2 d2] eqn:E2.
  destruct (TestCacheImpl.delete _ _ d2) as [u3 d3] eqn:E3.
  destruct (TestCacheImpl.deletePrefix _ d3) as [u4 d4] eqn:E4.
  destruct (TestCacheImpl.deletePrefix _ d4) as [u5 d5] eqn:E5.
  assert (d5 !! k
          = if startsWith k "feeds_" || startsWith k "search_"
               || String.eqb k ("feed_" +:+ String_of_number id)
               || startsWith k (String_of_number id +:+ "_previous_feed")
               || startsWith k (String_of_number id +:+ "_next_feed")
            then None else data !! k) as H5.
  { replace d5 with (snd (TestCacheImpl.deletePrefix
                            (String_of_number id +:+ "_next_feed") d4)) by by rewrite E5.
    replace d4 with (snd (TestCacheImpl.deletePrefix
                            (String_of_number id +:+ "_previous_feed") d3)) by by rewrite E4.
    replace d3 with (snd (TestCacheImpl.delete
                            ("feed_" +:+ String_of_number id) (Some false) d2)) by by rewrite E3.
    replace d2 with (snd (TestCacheImpl.deletePrefix "search_" d1)) by by rewrite E2.
    replace d1 with (snd (TestCacheImpl.deletePrefix "feeds_" data)) by by rewrite E1.
    rewrite !deletePrefix_lookup, delete_lookup, !deletePrefix_lookup.
    by destruct (startsWith k "feeds_"), (startsWith k "search_"),
         (String.eqb k _), (startsWith k (_ +:+ "_previous_feed")),
         (startsWith k (_ +:+ "_next_feed")). }
  destruct (bool_decide (alias = newAlias)); cbn [negb andb snd].
  - rewrite orb_false_r. exact H5.
  - destruct (Feed.delete_alias alias d5) as [u6 d6] eqn:E6.
    destruct (Feed.delete_alias newAlias d6) as [u7 d7] eqn:E7.
    replace d7 with (snd (Feed.delete_alias newAlias d6)) by by rewrite E7.
    replace d6 with (snd (Feed.delete_alias alias d5)) by by rewrite E6.
    cbn [snd]. rewrite !delete_alias_lookup, H5.
    by destruct (_ || _ || _ || _ || _), (match Http.given alias with Some _ => _ | None => _ end),
         (match Http.given newAlias with Some _ => _ | None => _ end).
Qed.
End FeedFacts.

(** X21.  [clearFeedCache(cache, id, alias, newAlias)] drops every list
    page ([feeds_]) and every search result ([search_]), the entry
    [feed_<id>] and the adjacent-feed entries whose key starts with
    [<id>_previous_feed] or [<id>_next_feed]; it keeps every key that is
    none of these and is not [feed_<alias>] or [feed_<newAlias>]. *)
Theorem clearFeedCache_removes (String_of_number : Z → string) (id : Z)
    (alias newAlias : option string) (data : gmap string value) :
  let data' := snd (Feed.clearFeedCache String_of_number id alias newAlias data) in
  (∀ k, startsWith k "feeds_" = true ∨ startsWith k "search_" = true
        ∨ k = "feed_" +:+ String_of_number id
        ∨ startsWith k (String_of_number id +:+ "_previous_feed") = true
        ∨ startsWith k (String_of_number id +:+ "_next_feed") = true →
        fst (TestCacheImpl.get k data') = VNull)
  ∧ (∀ k, startsWith k "feeds_" = false → startsWith k "search_" = false →
          k ≠ "feed_" +:+ String_of_number id →
          startsWith k (String_of_number id +:+ "_previous_feed") = false →
          startsWith k (String_of_number id +:+ "_next_feed") = false →
          (∀ a, alias = Some a → k ≠ "feed_" +:+ a) →
          (∀ a, newAlias = Some a → k ≠ "feed_" +:+ a) →
          data' !! k = data !! k).
Proof.
  cbv zeta. split.
  - intros k Hk. cbn [TestCacheImpl.get fst]. rewrite clearFeedCache_lookup.
    destruct Hk as [-> | [-> | [-> | [-> | ->]]]];
      rewrite ?String.eqb_refl, ?orb_true_r; done.
  - intros k H1 H2 H3 H4 H5 Ha Hn. rewrite clearFeedCache_lookup, H1, H2, H4, H5.
    apply String.eqb_neq in H3. rewrite H3. cbn [orb].
    assert (∀ x, (∀ a, x = Some a → k ≠ "feed_" +:+ a) →
                 match Http.given x with
                 | Some alias => String.eqb k ("feed_" +:+ alias)
                 | None => false
                 end = false) as Hx.
    { intros [a|] Hxa; [|done]. cbn. destruct (String.eqb a ""); [done|].
      apply String.eqb_neq. by apply Hxa. }
    rewrite (Hx alias Ha), (Hx newAlias Hn). by rewrite andb_false_r.
Qed.

(** X22.  When the alias does not change ([alias === newAlias], as when a
    feed is updated with the alias it has), [clearFeedCache] returns
    before the alias entries: the entry [feed_<alias>] stays as it is in
    the store, for an alias that is not the rendering of the id (which,
    as that of a number, does not start with 'f'). *)
Theorem clearFeedCache_keeps_alias_entry (String_of_number : Z → string) (id : Z)
    (alias : string) (data : gmap string value) :
  String_of_number id ≠ alias →
  startsWith (String_of_number id) "f" = false →
  snd (Feed.clearFeedCache String_of_number id (Some alias) (Some alias) data)
    !! ("feed_" +:+ alias)
  = data !! ("feed_" +:+ alias).
Proof.
  intros Hne Hf. rewrite clearFeedCache_lookup.
  rewrite bool_decide_eq_true_2 by done. cbn [negb andb]. rewrite orb_false_r.
  replace (startsWith ("feed_" +:+ alias) "feeds_") with false by done.
  replace (startsWith ("feed_" +:+ alias) "search_") with false by done.
  replace (String.eqb ("feed_" +:+ alias) ("feed_" +:+ String_of_number id)) with false.
  2:{ symmetry. apply String.eqb_neq. intros H. apply append_inj_r in H. congruence. }
  unfold startsWith in *. destruct (String_of_number id) as [|c s]; [done|].
  cbn in Hf. simpl. destruct (Ascii.ascii_dec c _) as [->|Hc]; [|done].
  by destruct s.
Qed.

Lemma clearFeedCache_keeps_alias_entry_witness :
  (fun _ : Z => "7") 7%Z ≠ "hello"
  ∧ startsWith ((fun _ : Z => "7") 7%Z) "f" = false
  ∧ snd (Feed.clearFeedCache (fun _ : Z => "7") 7 (Some "hello") (Some "hello")
           {[ "feed_hello" := VStr "old"; "feed_7" := VStr "old" ]})
      !! ("feed_" +:+ "hello")
    = ({[ "feed_hello" := VStr "old"; "feed_7" := VStr "old" ]} : gmap string value)
        !! ("feed_" +:+ "hello").
Proof.
  split; [discriminate|]. split; [reflexivity|].
  apply (clearFeedCache_keeps_alias_entry (fun _ : Z => "7") 7 "hello");
    [discriminate|reflexivity].
Defined.

(** ** Search: paging and caching *)

Section SearchFacts.
Variable parseInt : string → Http.number.

Lemma slice_nonneg {A} (l : list A) (a b : Z) :
  (0 ≤ a)%Z → (0 ≤ b)%Z →
  Http.slice l (Some a) (Some b) = take (Z.to_nat b - Z.to_nat a) (drop (Z.to_nat a) l).
Proof.
  intros Ha Hb. unfold Http.slice.
  destruct (Z.ltb_spec a 0) as [?|_]; [lia|].
  destruct (Z.ltb_spec b 0) as [?|_]; [lia|].
  destruct (Z.le_gt_cases a (Z.of_nat (length l))) as [Hal|Hal].
  - rewrite (Z.min_l a) by done.
    destruct (Z.le_gt_cases b (Z.of_nat (length l))) as [Hbl|Hbl].
    + rewrite (Z.min_l b) by done. f_equal. lia.
    + rewrite (Z.min_r b) by lia.
      rewrite !take_ge; [done|rewrite length_drop; lia|rewrite length_drop; lia].
  - rewrite (Z.min_r a) by lia.
    rewrite !drop_ge by lia. by rewrite !take_nil.
Qed.
End SearchFacts.

(** X23.  For a limit that parses to a positive number [n], the answer
    for page [p] (counted from 0) holds the rows from position [p * n],
    at most [n] of them and [n] is at most 50; [size] is the number of
    all rows, and [hasNext] is set exactly when rows are left after this
    page. *)
Theorem search_paging (parseInt : string → Http.number) (feed_list : list value)
    (page limit : option string) (n : Z) :
  Http.limit_num parseInt limit = Some n → (0 < n)%Z →
  let p := Http.page_num parseInt page in
  Search.paged feed_list p (Http.limit_num parseInt limit)
  = Http.page_of (Z.of_nat (length feed_list))
      (take (Z.to_nat n) (drop (Z.to_nat (p * n)) feed_list))
      (bool_decide (p * n + n < Z.of_nat (length feed_list))%Z)
  ∧ (0 ≤ p)%Z ∧ (n ≤ 50)%Z.
Proof.
  intros Hlimit Hn p.
  pose proof (page_num_nonneg parseInt page) as Hp. fold p in Hp.
  pose proof (limit_num_le parseInt limit n Hlimit) as Hle.
  split; [|done]. rewrite Hlimit. unfold Search.paged.
  cbn [Http.mul Http.add Http.le].
  destruct (Z.leb_spec (Z.of_nat (length feed_list)) (p * n)) as [H1|H1].
  - rewrite drop_ge by lia. rewrite take_nil.
    by rewrite bool_decide_eq_false_2 by lia.
  - destruct (Z.leb_spec (Z.of_nat (length feed_list)) (p * n + n)) as [H2|H2].
    + rewrite bool_decide_eq_false_2 by lia.
      unfold Http.slice_from. rewrite slice_nonneg by lia.
      rewrite !take_ge; [done|rewrite length_drop; lia|rewrite length_drop; lia].
    + rewrite bool_decide_eq_true_2 by lia.
      rewrite slice_nonneg by lia. do 2 f_equal. lia.
Qed.

Lemma search_paging_witness :
  Http.limit_num (fun _ : string => Some 2%Z) (Some "2") = Some 2%Z ∧ (0 < 2)%Z
  ∧ Search.paged [VNum 1; VNum 2; VNum 3; VNum 4; VNum 5]
      (Http.page_num (fun _ : string => Some 2%Z) (Some "2"))
      (Http.limit_num (fun _ : string => Some 2%Z) (Some "2"))
    = Http.page_of 5 [VNum 3; VNum 4] true.
Proof.
  split; [reflexivity|]. split; [lia|].
  exact (proj1 (search_paging (fun _ : string => Some 2%Z)
                  [VNum 1; VNum 2; VNum 3; VNum 4; VNum 5] (Some "2") (Some "2") 2
                  eq_refl ltac:(lia))).
Defined.

(** X24.  For a limit that is not a number, or is zero or negative, and
    rows that are not empty, the answer never tells the end of the
    results: [hasNext] is true on every page, and for a limit that is not
    a number or is zero the page has no rows. *)
Theorem search_paging_no_end (parseInt : string → Http.number) (feed_list : list value)
    (page limit : option string) :
  feed_list ≠ [] →
  (∀ n, Http.limit_num parseInt limit = Some n → (n ≤ 0)%Z) →
  ∃ data,
    Search.paged feed_list (Http.page_num parseInt page) (Http.limit_num parseInt limit)
    = Http.page_of (Z.of_nat (length feed_list)) data true
    ∧ (Http.limit_num parseInt limit = None ∨ Http.limit_num parseInt limit = Some 0%Z →
       data = []).
Proof.
  intros Hrows Hlimit.
  pose proof (page_num_nonneg parseInt page) as Hp.
  assert (0 < length feed_list) as Hlen by (destruct feed_list; [done|cbn; lia]).
  unfold Search.paged.
  destruct (Http.limit_num parseInt limit) as [n|] eqn:E.
  - specialize (Hlimit n eq_refl). cbn [Http.mul Http.add Http.le].
    destruct (Z.leb_spec (Z.of_nat (length feed_list)) (Http.page_num parseInt page * n))
      as [H1|H1]; [nia|].
    destruct (Z.leb_spec (Z.of_nat (length feed_list))
                (Http.page_num parseInt page * n + n)) as [H2|H2]; [nia|].
    eexists. split; [done|]. intros [?|[= ->]]; [done|].
    rewrite Z.mul_0_r, slice_nonneg by lia. done.
  - cbn [Http.mul Http.add Http.le]. eexists. split; [done|]. intros _.
    by cbn.
Qed.

Lemma search_paging_no_end_witness :
  [VNum 1; VNum 2] ≠ []
  ∧ ∃ data,
      Search.paged [VNum 1; VNum 2] (Http.page_num (fun _ : string => None) None)
        (Http.limit_num (fun _ : string => None) (Some "x"))
      = Http.page_of (Z.of_nat (length [VNum 1; VNum 2])) data true
      ∧ (Http.limit_num (fun _ : string => None) (Some "x") = None
         ∨ Http.limit_num (fun _ : string => None) (Some "x") = Some 0%Z →
         data = []).
Proof.
  split; [discriminate|].
  apply (search_paging_no_end (fun _ : string => None) [VNum 1; VNum 2] None (Some "x"));
    [discriminate|].
  intros n H. discriminate H.
Defined.

(** X25.  The search results are cached under the keyword alone.  Once a
    search for a keyword has resolved, every later search for that
    keyword, with the same page and limit and with or without [admin],
    gets the same answer; it does not run the query and changes
    nothing. *)
Theorem search_cached_by_keyword {W : Type} (parseInt : string → Http.number)
    (decodeURI : string → option string) (trim : string → string)
    (findMany : bool → string → TestCacheImpl.factory W) (view : value → outcome value)
    (admin admin' : bool) (page limit : option string) (keyword : string)
    (st st' : gmap string value * W) (r : Http.response) :
  Search.GET parseInt decodeURI trim findMany view admin page limit keyword st
  = (Resolved r, st') →
  Search.GET parseInt decodeURI trim findMany view admin' page limit keyword st'
  = (Resolved r, st').
Proof.
  unfold Search.GET. destruct (decodeURI keyword) as [kw|]; [|done].
  destruct (String.eqb (trim kw) ""); [by intros [= <- <-]|].
  destruct (TestCacheImpl.getOrSet _ (findMany admin kw) st) as [[v|e] st1] eqn:E; [|done].
  destruct v as [| | | |rows|]; try done.
  destruct (Search.map_view view rows) as [feed_list|e] eqn:Ev; [|done].
  intros [= <- <-].
  assert (TestCacheImpl.getOrSet ("search_" +:+ kw) (findMany admin' kw) st1
          = (Resolved (VArr rows), st1)) as ->.
  { destruct st as [data w]. unfold TestCacheImpl.getOrSet in E |- *.
    cbn [TestCacheImpl.get] in E.
    destruct (not_null (nullish (data !! ("search_" +:+ kw)) VNull)) eqn:Hn.
    - injection E as E <-. cbn [TestCacheImpl.get]. by rewrite Hn, E.
    - destruct (findMany admin kw w) as [[v|e] w'] eqn:Ef; [|done].
      cbn [TestCacheImpl.set] in E. injection E as -> <-.
      cbn [TestCacheImpl.get]. by rewrite lookup_insert_eq. }
  by rewrite Ev.
Qed.

Lemma search_cached_by_keyword_witness :
  Search.GET (fun _ : string => None) Some (fun s : string => s)
    (fun (admin : bool) (_ : string) (w : nat) =>
       (Resolved (VArr (if admin then [VStr "draft"; VStr "post"] else [VStr "post"])), S w))
    Resolved true None None "rocq" (∅, 0)
  = (Resolved (Http.json (Http.page_of 2 [VStr "draft"; VStr "post"] false) 200),
     ({[ "search_rocq" := VArr [VStr "draft"; VStr "post"] ]}, 1))
  ∧ Search.GET (fun _ : string => None) Some (fun s : string => s)
      (fun (admin : bool) (_ : string) (w : nat) =>
         (Resolved (VArr (if admin then [VStr "draft"; VStr "post"] else [VStr "post"])), S w))
      Resolved false None None "rocq"
      ({[ "search_rocq" := VArr [VStr "draft"; VStr "post"] ]}, 1)
    = (Resolved (Http.json (Http.page_of 2 [VStr "draft"; VStr "post"] false) 200),
       ({[ "search_rocq" := VArr [VStr "draft"; VStr "post"] ]}, 1)).
Proof.
  split; [reflexivity|].
  apply (search_cached_by_keyword (fun _ : string => None) Some (fun s : string => s)
           (fun (admin : bool) (_ : string) (w : nat) =>
              (Resolved (VArr (if admin then [VStr "draft"; VStr "post"] else [VStr "post"])),
               S w))
           Resolved true false None None "rocq" (∅, 0)).
  reflexivity.
Defined.

(** ** The worker entry point *)

Section WorkerFacts.
Context {App W Request Response : Type}.
Variable createHonoApp : W → App * W.
Variable pathname : Request → string.
Variable indexRequest : Request → Request.
Variable status : Response → Z.

Lemma try_asset_accepted (ASSETS : Request → outcome Response) (request : Request)
    (r : Response) :
  Worker.try_asset status ASSETS request = Some r → Worker.accepted (status r) = true.
Proof.
  unfold Worker.try_asset. destruct (ASSETS request) as [a|e]; [|done].
  destruct (Worker.accepted (status a)) eqn:E; [|done]. by intros [= <-].
Qed.

Lemma getApp_Some app w :
  Worker.getApp createHonoApp (Some app, w) = (app, (Some app, w)).
Proof. done. Qed.

(** With the app created, a request keeps the state, and what it
    delegates goes to that app. *)
Lemma fetch_created request ASSETS app w :
  snd (Worker.fetch createHonoApp pathname indexRequest status request ASSETS (Some app, w))
  = (Some app, w)
  ∧ ∀ a, fst (Worker.fetch createHonoApp pathname indexRequest status request ASSETS
                (Some app, w)) = Worker.Delegated a → a = app.
Proof.
  unfold Worker.fetch.
  destruct (Worker.is_feed_path _); [split; [done|by intros a [= <-]]|].
  destruct (startsWith _ "/api/"); [split; [done|by intros a [= <-]]|].
  destruct (if Worker.has_extension _ then _ else _); [done|].
  by destruct (match ASSETS with Some _ => _ | None => _ end).
Qed.

Lemma serve_created requests ASSETS app w :
  snd (Worker.serve createHonoApp pathname indexRequest status requests ASSETS (Some app, w))
  = (Some app, w)
  ∧ ∀ a, Worker.Delegated a
         ∈ fst (Worker.serve createHonoApp pathname indexRequest status requests ASSETS
                  (Some app, w)) → a = app.
Proof.
  induction requests as [|request requests IH]; cbn [Worker.serve].
  - split; [done|]. intros a H. by apply elem_of_nil in H.
  - destruct (fetch_created request ASSETS app w) as [Hst Hr].
    destruct (Worker.fetch _ _ _ _ request ASSETS (Some app, w)) as [r st]. cbn in Hst, Hr.
    subst st. destruct IH as [IHst IHr].
    destruct (Worker.serve _ _ _ _ requests ASSETS (Some app, w)) as [rs st].
    cbn in *. split; [done|]. intros a [Heq|H]%elem_of_cons; [by apply Hr|by apply IHr].
Qed.

(** A request that is delegated leaves the app it went to in the state;
    any other request leaves the state as it is. *)
Lemma fetch_state (request : Request) (ASSETS : option (Request → outcome Response))
    (st : option App * W) :
  let r := Worker.fetch createHonoApp pathname indexRequest status request ASSETS st in
  match fst r with
  | Worker.Delegated honoApp =>
      fst (snd r) = Some honoApp
      ∧ (Worker.is_feed_path (pathname request)
         || startsWith (pathname request) "/api/") = true
  | _ =>
      snd r = st
      ∧ (Worker.is_feed_path (pathname request)
         || startsWith (pathname request) "/api/") = false
  end.
Proof.
  cbv zeta. unfold Worker.fetch.
  assert (∀ s : option App * W,
            fst (snd (Worker.getApp createHonoApp s))
            = Some (fst (Worker.getApp createHonoApp s))) as Happ.
  { intros [[app|] w]; [done|]. unfold Worker.getApp. cbn [fst snd].
    by destruct (createHonoApp w). }
  destruct (Worker.is_feed_path _).
  { specialize (Happ st). destruct (Worker.getApp createHonoApp st) as [a s]. by cbn. }
  destruct (startsWith _ "/api/").
  { specialize (Happ st). destruct (Worker.getApp createHonoApp st) as [a s]. by cbn. }
  destruct (if Worker.has_extension _ then _ else _); [done|].
  by destruct (match ASSETS with Some _ => _ | None => _ end).
Qed.
End WorkerFacts.

(** X26.  How [fetch] routes a request.  The five feed paths and the
    paths under [/api/] go to the app, whatever [env.ASSETS] is.  Every
    other request leaves the app as it is and is answered by a response
    of [env.ASSETS] whose status is 200 or a redirect (300 to 399), never
    by another one, or else by 'Hi'; without [env.ASSETS] it is 'Hi'. *)
Theorem fetch_routes {App W Request Response : Type} (createHonoApp : W → App * W)
    (pathname : Request → string) (indexRequest : Request → Request)
    (status : Response → Z) (request : Request)
    (ASSETS : option (Request → outcome Response)) (st : option App * W) :
  let to_app := Worker.is_feed_path (pathname request)
                || startsWith (pathname request) "/api/" in
  let r := Worker.fetch createHonoApp pathname indexRequest status request ASSETS st in
  match fst r with
  | Worker.Delegated honoApp => to_app = true ∧ fst (snd r) = Some honoApp
  | Worker.Asset response =>
      to_app = false ∧ snd r = st ∧ ASSETS ≠ None
      ∧ (status response = 200 ∨ 300 ≤ status response < 400)%Z
  | Worker.Hi => to_app = false ∧ snd r = st
  end.
Proof.
  cbv zeta. unfold Worker.fetch.
  assert (∀ s : option App * W,
            fst (snd (Worker.getApp createHonoApp s))
            = Some (fst (Worker.getApp createHonoApp s))) as Happ.
  { intros [[app|] w]; [done|]. unfold Worker.getApp. cbn [fst snd].
    by destruct (createHonoApp w). }
  assert (∀ r : Response, Worker.accepted (status r) = true →
            (status r = 200 ∨ 300 ≤ status r < 400)%Z) as Hacc.
  { intros r. unfold Worker.accepted. intros H. apply orb_true_iff in H as [H|H].
    - left. by apply Z.eqb_eq.
    - right. apply andb_true_iff in H as [H1 H2].
      apply Z.leb_le in H1. apply Z.ltb_lt in H2. lia. }
  destruct (Worker.is_feed_path _).
  { specialize (Happ st). destruct (Worker.getApp createHonoApp st) as [a s]. by cbn. }
  destruct (startsWith _ "/api/").
  { specialize (Happ st). destruct (Worker.getApp createHonoApp st) as [a s]. by cbn. }
  cbn [orb]. destruct ASSETS as [assets|].
  - destruct (Worker.has_extension _).
    + destruct (Worker.try_asset status assets request) as [r|] eqn:E.
      { cbn. repeat split; [done|]. apply Hacc. by eapply (try_asset_accepted status). }
      destruct (Worker.try_asset status assets (indexRequest request)) as [r|] eqn:E'; [|done].
      cbn. repeat split; [done|]. apply Hacc. by eapply (try_asset_accepted status).
    + destruct (Worker.try_asset status assets (indexRequest request)) as [r|] eqn:E'; [|done].
      cbn. repeat split; [done|]. apply Hacc. by eapply (try_asset_accepted status).
  - by destruct (Worker.has_extension _).
Qed.

(** X27.  The app is a singleton: however many requests an isolate
    serves, [createHonoApp] runs at most once, and it runs exactly when
    one of the requests is for a feed path or a path under [/api/].  The
    app that [getApp] holds at the end is the one every delegated request
    went to, and it is there only when a request was delegated to it;
    without one, the state is as it was. *)
Theorem app_is_singleton {App W Request Response : Type} (createHonoApp : W → App * W)
    (pathname : Request → string) (indexRequest : Request → Request)
    (status : Response → Z) (requests : list Request)
    (ASSETS : option (Request → outcome Response)) (w : W) :
  let served := Worker.serve (Worker.counting createHonoApp) pathname indexRequest status
                  requests ASSETS (None, (w, 0)) in
  let app := fst (snd served) in
  let calls := snd (snd (snd served)) in
  calls = match app with Some _ => 1 | None => 0 end
  ∧ (∀ a, Worker.Delegated a ∈ fst served → app = Some a)
  ∧ (∀ a, app = Some a → Worker.Delegated a ∈ fst served)
  ∧ (is_Some app
     ↔ Exists (fun request => Worker.is_feed_path (pathname request)
                              || startsWith (pathname request) "/api/" = true) requests)
  ∧ (app = None → snd served = (None, (w, 0))).
Proof.
  cbv zeta. induction requests as [|request requests IH]; cbn [Worker.serve].
  - cbn. split; [done|]. split; [intros a H; by apply elem_of_nil in H|].
    split; [done|]. split; [|done].
    split; [by intros [? ?]|by intros H%Exists_nil].
  - pose proof (fetch_state (Worker.counting createHonoApp) pathname indexRequest status
                  request ASSETS (None, (w, 0))) as Hr. cbv zeta in Hr.
    destruct (Worker.fetch _ _ _ _ request ASSETS (None, (w, 0))) as [r st] eqn:Ef.
    cbn [fst snd] in Hr. destruct r as [a| |].
    + destruct Hr as [Hst Hto]. destruct st as [app [w' n]]. cbn in Hst. subst app.
      assert (n = 1) as ->.
      { unfold Worker.fetch in Ef. rewrite orb_true_iff in Hto.
        unfold Worker.getApp, Worker.counting in Ef. cbn [fst snd] in Ef.
        destruct (createHonoApp w) as [a0 w0].
        destruct (Worker.is_feed_path _); [by injection Ef as _ _ _ <-|].
        destruct Hto as [?|Hto]; [done|]. rewrite Hto in Ef. by injection Ef as _ _ _ <-. }
      destruct (serve_created (Worker.counting createHonoApp) pathname indexRequest status
                  requests ASSETS a (w', 1)) as [Hst Hrs].
      destruct (Worker.serve _ _ _ _ requests ASSETS (Some a, (w', 1))) as [rs st'].
      cbn in Hst, Hrs. subst st'. cbn. split; [done|].
      split; [intros a' [[= ->]|H]%elem_of_cons; [done|]; f_equal; symmetry; by apply Hrs|].
      split; [intros a' [= <-]; apply elem_of_cons; by left|].
      split; [|done]. split; [intros _; by apply Exists_cons_hd|by eexists].
    + destruct Hr as [-> Hto].
      destruct (Worker.serve _ _ _ _ requests ASSETS (None, (w, 0))) as [rs st'].
      cbn in *. destruct IH as (IH1 & IH2 & IH3 & IH4 & IH5). split; [done|].
      split; [intros a' [[=]|H]%elem_of_cons; by apply IH2|].
      split; [intros a' H; apply elem_of_cons; right; by apply IH3|].
      split; [|done]. rewrite IH4, Exists_cons. split; [by right|].
      intros [H|H]; [congruence|done].
    + destruct Hr as [-> Hto].
      destruct (Worker.serve _ _ _ _ requests ASSETS (None, (w, 0))) as [rs st'].
      cbn in *. destruct IH as (IH1 & IH2 & IH3 & IH4 & IH5). split; [done|].
      split; [intros a' [[=]|H]%elem_of_cons; by apply IH2|].
      split; [intros a' H; apply elem_of_cons; right; by apply IH3|].
      split; [|done]. rewrite IH4, Exists_cons. split; [by right|].
      intros [H|H]; [congruence|done].
Qed.

(** ** friendCrontab *)

Section FriendsFacts.
Context {W : Type}.
Variable String_of_number : Z → string.
Variable fetch : string → value → W → outcome Friends.response * W.
Variable message : value → string.

Lemma check_step ua (p : Friends.progress) (w : W) (friend : Friends.friend) :
  let p' := fst (Friends.check String_of_number fetch message ua (p, w) friend) in
  (Friends.updates p').*1 = (Friends.updates p).*1 ++ [Friends.id friend]
  ∧ Friends.health p' + Friends.unhealthy p'
    = S (Friends.health p + Friends.unhealthy p).
Proof.
  cbv zeta. unfold Friends.check.
  destruct (fetch (Friends.url friend) ua w) as [[response|e] w'].
  - destruct (Friends.ok response); cbn; rewrite fmap_app; split; [done|lia|done|lia].
  - cbn. rewrite fmap_app. split; [done|lia].
Qed.

(** The loop adds one update per friend, in the order of the list, and
    counts each friend once. *)
Lemma check_loop ua friend_list (p : Friends.progress) (w : W) :
  let p' := fst (foldl (Friends.check String_of_number fetch message ua) (p, w) friend_list) in
  (Friends.updates p').*1 = (Friends.updates p).*1 ++ (Friends.id <$> friend_list)
  ∧ Friends.health p' + Friends.unhealthy p'
    = Friends.health p + Friends.unhealthy p + length friend_list.
Proof.
  cbv zeta. revert p w.
  induction friend_list as [|friend friend_list IH]; intros p w; cbn [foldl].
  - cbn. rewrite app_nil_r. split; [done|lia].
  - destruct (check_step ua p w friend) as [H1 H2].
    destruct (Friends.check _ _ _ ua (p, w) friend) as [p1 w1]. cbn [fst] in H1, H2.
    destruct (IH p1 w1) as [-> ->]. rewrite H1, H2, <- app_assoc. cbn. split; [done|lia].
Qed.
End FriendsFacts.

(** X28.  [friendCrontab] does nothing (no request, no update) exactly
    when the server config holds a falsy value that is not null under
    'friend_crontab'; a missing or null entry counts as enabled.  When it
    runs, it hands over one health update per friend, in the order of the
    list, and the two counters add up to the number of friends. *)
Theorem friendCrontab_updates {W : Type} (String_of_number : Z → string)
    (fetch : string → value → W → outcome Friends.response * W)
    (message : value → string)
    (serverConfig : gmap string value) (friend_list : list Friends.friend) (w : W) :
  match Friends.friendCrontab String_of_number fetch message serverConfig friend_list w with
  | (None, w') =>
      w' = w
      ∧ ∃ v, serverConfig !! "friend_crontab" = Some v ∧ v ≠ VNull ∧ truthy v = false
  | (Some p, _) =>
      (Friends.updates p).*1 = Friends.id <$> friend_list
      ∧ Friends.health p + Friends.unhealthy p = length friend_list
      ∧ ¬ ∃ v, serverConfig !! "friend_crontab" = Some v ∧ v ≠ VNull ∧ truthy v = false
  end.
Proof.
  unfold Friends.friendCrontab, TestCacheImpl.getOrDefault, TestCacheImpl.get.
  destruct (negb (truthy _)) eqn:E.
  - split; [done|]. apply negb_true_iff in E.
    destruct (serverConfig !! "friend_crontab") as [v|]; [|done].
    exists v. split; [done|]. by destruct v.
  - pose proof (check_loop String_of_number fetch message
                  (if truthy (nullish (serverConfig !! "friend_ua") VNull)
                   then nullish (serverConfig !! "friend_ua") VNull
                   else VStr "Rin-Check/0.1.0")
                  friend_list
                  {| Friends.updates := []; Friends.health := 0; Friends.unhealthy := 0 |} w)
      as [H1 H2].
    destruct (foldl _ _ friend_list) as [p w']. cbn in H1, H2.
    split; [done|]. split; [done|]. intros (v & Hv & Hn & Ht).
    apply negb_false_iff in E. rewrite Hv in E. destruct v; cbn in *; congruence.
Qed.

(** ** Feed creation and the search results *)

Section FeedCreateFacts.
Context {W : Type}.
Variable parseInt : string → Http.number.
Variable decodeURI : string → option string.
Variable trim : string → string.
Variable findMany : bool → string → TestCacheImpl.factory W.
Variable view : value → outcome value.

Lemma POST_keeps admin title content exist uid result (data : gmap string value) k :
  startsWith k "feeds_" = false →
  snd (Feed.POST admin title content exist uid result data) !! k = data !! k.
Proof.
  intros Hk. unfold Feed.POST.
  destruct (negb admin); [done|]. destruct (Http.no_field title); [done|].
  destruct (Http.no_field content); [done|]. destruct exist; [done|].
  destruct (Http.no_uid uid); [done|]. destruct result as [|inserted result]; [done|].
  destruct (TestCacheImpl.deletePrefix "feeds_" data) as [u data'] eqn:E. cbn [snd].
  replace data' with (snd (TestCacheImpl.deletePrefix "feeds_" data)) by by rewrite E.
  by rewrite deletePrefix_lookup, Hk.
Qed.

(** A search that resolves either had an empty keyword, or leaves the
    rows it answered from under the key of the keyword. *)
Lemma search_resolved admin page limit keyword st r data' w' :
  Search.GET parseInt decodeURI trim findMany view admin page limit keyword st
  = (Resolved r, (data', w')) →
  ∃ kw, decodeURI keyword = Some kw
    ∧ (String.eqb (trim kw) "" = true ∧ r = Http.json (Http.page_of 0 [] false) 200
       ∨ String.eqb (trim kw) "" = false
         ∧ ∃ rows feed_list,
             data' !! ("search_" +:+ kw) = Some (VArr rows)
             ∧ Search.map_view view rows = Resolved feed_list
             ∧ r = Http.json (Search.paged feed_list (Http.page_num parseInt page)
                               (Http.limit_num parseInt limit)) 200).
Proof.
  unfold Search.GET. destruct (decodeURI keyword) as [kw|]; [|done].
  intros H. exists kw. split; [done|].
  destruct (String.eqb (trim kw) ""); [left; by injection H as <- _|right].
  split; [done|].
  destruct (TestCacheImpl.getOrSet _ (findMany admin kw) st) as [[v|e] st1] eqn:E; [|done].
  destruct v as [| | | |rows|]; try done.
  destruct (Search.map_view view rows) as [feed_list|e] eqn:Ev; [|done].
  injection H as <- ->. exists rows, feed_list. split; [|done].
  destruct st as [data w]. unfold TestCacheImpl.getOrSet in E.
  cbn [TestCacheImpl.get] in E.
  destruct (not_null (nullish (data !! ("search_" +:+ kw)) VNull)) eqn:Hn.
  - injection E as E <- _. destruct (data !! ("search_" +:+ kw)) as [[]|]; cbn in *; congruence.
  - destruct (findMany admin kw w) as [[v|e] w1] eqn:Ef; [|done].
    cbn [TestCacheImpl.set] in E. injection E as -> <- _. by rewrite lookup_insert_eq.
Qed.

(** With the rows of the keyword in the store, a search answers from
    them and leaves everything as it is. *)
Lemma search_hit admin page limit keyword kw rows (data : gmap string value) (w : W) :
  decodeURI keyword = Some kw → String.eqb (trim kw) "" = false →
  data !! ("search_" +:+ kw) = Some (VArr rows) →
  Search.GET parseInt decodeURI trim findMany view admin page limit keyword (data, w)
  = (match Search.map_view view rows with
     | Resolved feed_list =>
         Resolved (Http.json (Search.paged feed_list (Http.page_num parseInt page)
                                (Http.limit_num parseInt limit)) 200)
     | Rejected e => Rejected e
     end, (data, w)).
Proof.
  intros Hkw Htrim Hrows. unfold Search.GET. rewrite Hkw, Htrim.
  unfold TestCacheImpl.getOrSet. cbn [TestCacheImpl.get]. rewrite Hrows. cbn.
  by destruct (Search.map_view view rows).
Qed.
End FeedCreateFacts.

(** X29.  Creating a feed drops the list pages only: whatever the
    request and its outcome, every entry whose key does not start with
    [feeds_] is kept.  So a search that resolved before the creation is
    answered the same after it, from the kept rows and without running
    the query, whatever the database holds by then. *)
Theorem feed_create_keeps_search {W : Type} (parseInt : string → Http.number)
    (decodeURI : string → option string) (trim : string → string)
    (findMany : bool → string → TestCacheImpl.factory W) (view : value → outcome value)
    (admin admin' : bool) (page limit : option string) (keyword : string)
    (st : gmap string value * W) (r : Http.response) (data' : gmap string value) (w' w'' : W)
    (creator : bool) (title content : option value) (exist : bool) (uid : option Z)
    (result : list value) :
  Search.GET parseInt decodeURI trim findMany view admin page limit keyword st
  = (Resolved r, (data', w')) →
  let data'' := snd (Feed.POST creator title content exist uid result data') in
  (∀ k, startsWith k "feeds_" = false → data'' !! k = data' !! k)
  ∧ Search.GET parseInt decodeURI trim findMany view admin' page limit keyword (data'', w'')
    = (Resolved r, (data'', w'')).
Proof.
  intros Hfirst data''. split; [intros k Hk; by apply POST_keeps|].
  apply search_resolved in Hfirst as (kw & Hkw & [[Htrim ->]|(Htrim & rows & fl & Hrows & Hv & ->)]).
  - unfold Search.GET. by rewrite Hkw, Htrim.
  - rewrite (search_hit parseInt decodeURI trim findMany view admin' page limit keyword kw rows);
      [by rewrite Hv|done|done|].
    unfold data''. rewrite POST_keeps; [done|]. done.
Qed.

Lemma feed_create_keeps_search_witness :
  Search.GET (fun _ : string => None) Some (fun s : string => s)
    (fun (_ : bool) (_ : string) (w : list value) => (Resolved (VArr w), w))
    Resolved false None None "rocq" (∅, [VStr "old post"])
  = (Resolved (Http.json (Http.page_of 1 [VStr "old post"] false) 200),
     ({[ "search_rocq" := VArr [VStr "old post"] ]}, [VStr "old post"]))
  ∧ Search.GET (fun _ : string => None) Some (fun s : string => s)
      (fun (_ : bool) (_ : string) (w : list value) => (Resolved (VArr w), w))
      Resolved false None None "rocq"
      (snd (Feed.POST true (Some (VStr "rocq 9")) (Some (VStr "new post")) false (Some 1%Z)
              [VNum 2] {[ "search_rocq" := VArr [VStr "old post"] ]}),
       [VStr "new post"; VStr "old post"])
    = (Resolved (Http.json (Http.page_of 1 [VStr "old post"] false) 200),
       (snd (Feed.POST true (Some (VStr "rocq 9")) (Some (VStr "new post")) false (Some 1%Z)
               [VNum 2] {[ "search_rocq" := VArr [VStr "old post"] ]}),
        [VStr "new post"; VStr "old post"])).
Proof.
  split; [reflexivity|].
  refine (proj2 (feed_create_keeps_search (fun _ : string => None) Some (fun s : string => s)
           (fun (_ : bool) (_ : string) (w : list value) => (Resolved (VArr w), w))
           Resolved false false None None "rocq" (∅, [VStr "old post"]) _ _ _ _
           true (Some (VStr "rocq 9")) (Some (VStr "new post")) false (Some 1%Z) [VNum 2] _)).
  reflexivity.
Defined.
